(** * Hydrogen pattern editor: grid granularity, cursor and the length / tuplet dialogs

    A shallow embedding of the arithmetic that [PatternEditorPanel.cpp] and
    [PatternEditor.h] perform on ticks, grid marks and the texts typed into
    the "pattern size" and "tuplet" fields.

    - C++ [int] and [uint] are integers of [Z] with the 32-bit wrap-around
      written out where an operation can leave the range;
    - [float] and [double] are IEEE-754 binary32 and binary64 values, computed
      with the operations of the standard library's [SpecFloat];
    - [QString] is [string]; the dialogs a handler opens are returned as a
      list of [Message]s next to the new state. *)

From Stdlib Require Import ZArith List Bool Lia.
From Stdlib Require Import Strings.Ascii Strings.String.
From Stdlib Require Import Floats.SpecFloat.
Import ListNotations.

Local Open Scope string_scope.
Local Open Scope list_scope.
Local Open Scope Z_scope.

(** ** Machine integers *)

(** Modelled from the spec: the macro [MAX_NOTES] comes from the core library
    ([core/Globals.h]), outside the sources of the panel.  The spec fixes
    192 ticks per whole note, and the panel agrees: "the previous values are
    valid if and only if MAX_NOTES = 192". *)
Definition MAX_NOTES : Z := 192.

Module CInt.

Definition INT_MIN : Z := - 2 ^ 31.
Definition INT_MAX : Z := 2 ^ 31 - 1.
Definition UINT_MAX : Z := 2 ^ 32 - 1.

Definition is_int (z : Z) : Prop := INT_MIN <= z <= INT_MAX.
Definition is_intb (z : Z) : bool := (INT_MIN <=? z) && (z <=? INT_MAX).

(** Conversion to [unsigned int]: reduction modulo 2^32. *)
Definition to_uint (z : Z) : Z := z mod 2 ^ 32.

(** Result of a signed operation leaving the range, as two's complement
    hardware produces it. *)
Definition wrap (z : Z) : Z := (z + 2 ^ 31) mod 2 ^ 32 - 2 ^ 31.

Definition mul (a b : Z) : Z := wrap (a * b).
Definition add (a b : Z) : Z := wrap (a + b).
Definition sub (a b : Z) : Z := wrap (a - b).

(** [int * uint]: the usual arithmetic conversions make both unsigned. *)
Definition umul (a b : Z) : Z := to_uint (to_uint a * to_uint b).

(** [/] and [%] truncate towards zero. *)
Definition div (a b : Z) : Z := Z.quot a b.
Definition rem (a b : Z) : Z := Z.rem a b.

(** [0x1 << k]. *)
Definition shl1 (k : Z) : Z := wrap (Z.shiftl 1 k).

End CInt.

(** ** IEEE-754 arithmetic *)

Module IEEE.

Section Format.

Variables prec emax : Z.

(** Conversion of an integer, rounding to nearest even. *)
Definition of_Z (n : Z) : spec_float := binary_normalize prec emax n 0 false.

(** Re-encoding of a value of a narrower format (exact). *)
Definition widen (x : spec_float) : spec_float :=
  match x with
  | S754_finite s m e => binary_normalize prec emax (cond_Zopp s (Zpos m)) e s
  | _ => x
  end.

Definition mul : spec_float -> spec_float -> spec_float := SFmul prec emax.
Definition div : spec_float -> spec_float -> spec_float := SFdiv prec emax.

(** Magnitude of [m * 2^e] rounded to the nearest integer, halfway cases
    away from zero. *)
Definition round_magnitude (m : positive) (e : Z) : Z :=
  match e with
  | Z0 => Zpos m
  | Zpos _ => Z.shiftl (Zpos m) e
  | Zneg k => Z.shiftr (Zpos m + Z.shiftl 1 (Zpos k - 1)) (Zpos k)
  end.

(** Magnitude of [m * 2^e] with the fraction discarded. *)
Definition trunc_magnitude (m : positive) (e : Z) : Z :=
  match e with
  | Zneg k => Z.shiftr (Zpos m) (Zpos k)
  | _ => Z.shiftl (Zpos m) e
  end.

(** C's [round]: an integral value in floating-point format. *)
Definition round (x : spec_float) : spec_float :=
  match x with
  | S754_finite s m e =>
      binary_normalize prec emax (cond_Zopp s (round_magnitude m e)) 0 s
  | _ => x
  end.

(** [x] is finite with sign [s] and a mantissa of [prec] digits, and its
    magnitude is at least 2^(k-1) and below 2^k for some [lo <= k <= hi]. *)
Definition normal (s : bool) (lo hi : Z) (x : spec_float) : Prop :=
  exists m e, x = S754_finite s m e
              /\ Zpos (digits2_pos m) = prec /\ lo <= prec + e <= hi.

(** [x] is positive with a mantissa of [prec] digits and lies within half a
    unit of its last digit of the quotient [a / b]. *)
Definition nearest_to_quotient (x : spec_float) (a b : Z) : Prop :=
  exists m e, x = S754_finite false m e
              /\ Zpos (digits2_pos m) = prec
              /\ 2 * Z.abs (Zpos m * 2 ^ Z.max e 0 * b - a * 2 ^ Z.max (- e) 0)
                 <= 2 ^ Z.max e 0 * b.

End Format.

(** Conversion of a floating-point value to [int]: the fraction is
    discarded.  A value outside the range of [int] (or a NaN) has no defined
    result in C++; the model returns what the x86 conversion instruction
    delivers, [INT_MIN]. *)
Definition to_int (x : spec_float) : Z :=
  match x with
  | S754_zero _ => 0
  | S754_finite s m e =>
      let n := cond_Zopp s (trunc_magnitude m e) in
      if CInt.is_intb n then n else CInt.INT_MIN
  | _ => CInt.INT_MIN
  end.

Definition is_finite (x : spec_float) : bool :=
  match x with
  | S754_zero _ | S754_finite _ _ _ => true
  | _ => false
  end.

End IEEE.

(** binary32, C++ [float]. *)
Module F32.
Definition prec : Z := 24.
Definition emax : Z := 128.
Definition of_Z : Z -> spec_float := IEEE.of_Z prec emax.
Definition mul : spec_float -> spec_float -> spec_float := IEEE.mul prec emax.
Definition div : spec_float -> spec_float -> spec_float := IEEE.div prec emax.
End F32.

(** binary64, C++ [double]. *)
Module F64.
Definition prec : Z := 53.
Definition emax : Z := 1024.
Definition of_Z : Z -> spec_float := IEEE.of_Z prec emax.
Definition of_float : spec_float -> spec_float := IEEE.widen prec emax.
Definition mul : spec_float -> spec_float -> spec_float := IEEE.mul prec emax.
Definition div : spec_float -> spec_float -> spec_float := IEEE.div prec emax.
Definition round : spec_float -> spec_float := IEEE.round prec emax.
Definition ltb : spec_float -> spec_float -> bool := SFltb.
Definition leb : spec_float -> spec_float -> bool := SFleb.
End F64.

(** ** The grid of a pattern editor ([PatternEditor.h]) *)

Module PatternEditor.

(** The three grid members of the class: [uint m_nResolution],
    [int m_nTupletNumerator], [int m_nTupletDenominator]. *)
Record t : Type := mk {
  m_nResolution : Z;
  m_nTupletNumerator : Z;
  m_nTupletDenominator : Z
}.

(** [float granularity() const]:
    [(float) MAX_NOTES * m_nTupletDenominator / ( m_nTupletNumerator * m_nResolution )].
    The product on the right is taken in [unsigned int] before it is
    converted to [float]. *)
Definition granularity (ed : t) : spec_float :=
  F32.div
    (F32.mul (F32.of_Z MAX_NOTES) (F32.of_Z (m_nTupletDenominator ed)))
    (F32.of_Z (CInt.umul (m_nTupletNumerator ed) (m_nResolution ed))).

(** [void setTupletResolution( int nRes, int nTupletNum, int nTupletDen )]. *)
Definition setTupletResolution (nRes nTupletNum nTupletDen : Z) (ed : t) : t :=
  {| m_nResolution := CInt.to_uint nRes;
     m_nTupletNumerator := nTupletNum;
     m_nTupletDenominator := nTupletDen |}.

End PatternEditor.

(** ** Texts *)

Module QString.

(** [QString::split( sep )]: the pieces between separators, empty ones
    kept; a text without separator is its own single piece. *)
Fixpoint split (sep : ascii) (s : string) : list string :=
  match s with
  | EmptyString => [EmptyString]
  | String c rest =>
      if Ascii.eqb c sep then EmptyString :: split sep rest
      else match split sep rest with
           | piece :: pieces => String c piece :: pieces
           | [] => [String c EmptyString]
           end
  end.

(** [QString::replace( before, after )] for one-character texts. *)
Fixpoint replace (before after : ascii) (s : string) : string :=
  match s with
  | EmptyString => EmptyString
  | String c rest =>
      String (if Ascii.eqb c before then after else c) (replace before after rest)
  end.

Definition digit (n : Z) : ascii := ascii_of_N (Z.to_N (48 + n)).

Fixpoint digits (fuel : nat) (n : Z) (acc : string) : string :=
  match fuel with
  | O => acc
  | S fuel' =>
      let acc' := String (digit (n mod 10)) acc in
      if n <? 10 then acc' else digits fuel' (n / 10) acc'
  end.

(** Decimal text of a natural number. *)
Definition number_nat (n : Z) : string := digits (S (Z.to_nat (Z.log2 n))) n "".

(** [QString::number( int )], the text [QString::arg( int )] inserts. *)
Definition number (n : Z) : string :=
  if n <? 0 then String "-" (number_nat (- n)) else number_nat n.

Definition digit_value (c : ascii) : option Z :=
  let n := Z.of_N (N_of_ascii c) in
  if (48 <=? n) && (n <=? 57) then Some (n - 48) else None.

(** Value of a text made of decimal digits only. *)
Fixpoint digits_value (s : string) (acc : Z) : option Z :=
  match s with
  | EmptyString => Some acc
  | String c rest =>
      match digit_value c with
      | Some d => digits_value rest (10 * acc + d)
      | None => None
      end
  end.

(** Sign of a literal and what follows it. *)
Definition strip_sign (s : string) : bool * string :=
  match s with
  | String "-" rest => (true, rest)
  | String "+" rest => (false, rest)
  | _ => (false, s)
  end.

End QString.

(** The number conversions of Qt that the panel calls.  They belong to the
    toolkit, so the handlers are written against this interface:
    [toDouble] and [toInt] are [QString::toDouble( &ok )] and
    [QString::toInt( &ok )] ([None] when [ok] comes back false), and
    [decimalPoint] is the decimal separator of [QLocale::system()]. *)
Class QtText : Type := {
  toDouble : string -> option spec_float;
  toInt : string -> option Z;
  decimalPoint : ascii
}.

Module QLocale.

(** [QLocale::toString( float, 'f', 3 )]: fixed notation with three digits
    after the decimal separator, the value rounded to the nearest
    thousandth.  Digit grouping of integer parts of four and more digits is
    not rendered. *)
Definition toString_f3 (point : ascii) (x : spec_float) : string :=
  match x with
  | S754_zero s => ((if s then "-" else "") ++ "0" ++ String point "000")%string
  | S754_finite s m e =>
      let n := IEEE.round_magnitude (m * 1000) e in
      let f := n mod 1000 in
      ((if s then "-" else "")
         ++ QString.number_nat (n / 1000)
         ++ String point
              (String (QString.digit (f / 100))
                 (String (QString.digit (f / 10 mod 10))
                    (String (QString.digit (f mod 10)) ""))))%string
  | S754_infinity s => ((if s then "-" else "") ++ "inf")%string
  | S754_nan => "nan"
  end.

End QLocale.

(** A model of the two conversions on plain decimal literals: an optional
    sign, digits and, for [toDouble], an optional fraction after a point.
    The value of a literal is its decimal value correctly rounded to
    binary64.  Qt reads further spellings (exponents, surrounding blanks);
    those are read as failures here. *)
Module DecimalText.

Definition pow10 (k : nat) : positive := Pos.pow 10 (Pos.of_nat k).

Definition decimal_value (neg : bool) (m : Z) (k : nat) : spec_float :=
  match m with
  | Zpos p =>
      match k with
      | O => binary_normalize F64.prec F64.emax (cond_Zopp neg m) 0 neg
      | S _ => F64.div (S754_finite neg p 0) (S754_finite false (pow10 k) 0)
      end
  | _ => S754_zero neg
  end.

Definition parseInt (s : string) : option Z :=
  let (neg, body) := QString.strip_sign s in
  match body with
  | EmptyString => None
  | _ =>
      match QString.digits_value body 0 with
      | Some n =>
          let v := cond_Zopp neg n in
          if CInt.is_intb v then Some v else None
      | None => None
      end
  end.

Definition parseDouble (s : string) : option spec_float :=
  let (neg, body) := QString.strip_sign s in
  match QString.split "." body with
  | [ip] =>
      match ip with
      | EmptyString => None
      | _ =>
          match QString.digits_value ip 0 with
          | Some n => Some (decimal_value neg n 0)
          | None => None
          end
      end
  | [ip; fp] =>
      match (ip ++ fp)%string with
      | EmptyString => None
      | _ =>
          match QString.digits_value (ip ++ fp)%string 0 with
          | Some n => Some (decimal_value neg n (String.length fp))
          | None => None
          end
      end
  | _ => None
  end.

#[export] Instance qt (point : ascii) : QtText := {|
  toDouble := parseDouble;
  toInt := parseInt;
  decimalPoint := point
|}.

End DecimalText.

(** ** Collaborators of the panel *)

Module Pattern.

(** Modelled from the spec: [H2Core::Pattern] ([core/Basics/Pattern.h])
    belongs to the core library.  The panel reads and writes two of its
    members, the length in ticks and the note-value denominator, through
    [get_length], [get_denominator], [set_length] and [set_denominator]. *)
Record t : Type := mk {
  get_length : Z;
  get_denominator : Z
}.

Definition set_length (n : Z) (pat : t) : t :=
  {| get_length := n; get_denominator := get_denominator pat |}.

Definition set_denominator (n : Z) (pat : t) : t :=
  {| get_length := get_length pat; get_denominator := n |}.

End Pattern.

Module Preferences.

(** Modelled from the spec: [H2Core::Preferences] ([core/Preferences.h])
    belongs to the core library.  It stores the grid resolution and the
    tuplet ratio as plain integers. *)
Record t : Type := mk {
  getPatternEditorGridResolution : Z;
  getPatternEditorGridTupletNumerator : Z;
  getPatternEditorGridTupletDenominator : Z
}.

Definition setPatternEditorGridResolution (nRes : Z) (pref : t) : t :=
  {| getPatternEditorGridResolution := nRes;
     getPatternEditorGridTupletNumerator := getPatternEditorGridTupletNumerator pref;
     getPatternEditorGridTupletDenominator := getPatternEditorGridTupletDenominator pref |}.

Definition setPatternEditorGridTupletRatio (nNum nDen : Z) (pref : t) : t :=
  {| getPatternEditorGridResolution := getPatternEditorGridResolution pref;
     getPatternEditorGridTupletNumerator := nNum;
     getPatternEditorGridTupletDenominator := nDen |}.

End Preferences.

Module Editors.

Import PatternEditor.

(** Modelled from the spec: [PatternEditor::setResolution] and
    [PatternEditor::setTupletRatio] are declared in [PatternEditor.h] and
    defined in [PatternEditor.cpp], which is missing; the header describes
    them as the setters of the grid members ("tuplet numerator and
    denominator should be set together"). *)
Definition setResolution (res : Z) (ed : t) : t :=
  {| m_nResolution := CInt.to_uint res;
     m_nTupletNumerator := m_nTupletNumerator ed;
     m_nTupletDenominator := m_nTupletDenominator ed |}.

Definition setTupletRatio (nTupletNumerator nTupletDenominator : Z) (ed : t) : t :=
  {| m_nResolution := m_nResolution ed;
     m_nTupletNumerator := nTupletNumerator;
     m_nTupletDenominator := nTupletDenominator |}.

(** The seven editors the panel owns. *)
Record all : Type := mkAll {
  m_pDrumPatternEditor : t;
  m_pPianoRollEditor : t;
  m_pNoteVelocityEditor : t;
  m_pNoteLeadLagEditor : t;
  m_pNoteNoteKeyEditor : t;
  m_pNoteProbabilityEditor : t;
  m_pNotePanEditor : t
}.

Definition each (f : t -> t) (eds : all) : all :=
  {| m_pDrumPatternEditor := f (m_pDrumPatternEditor eds);
     m_pPianoRollEditor := f (m_pPianoRollEditor eds);
     m_pNoteVelocityEditor := f (m_pNoteVelocityEditor eds);
     m_pNoteLeadLagEditor := f (m_pNoteLeadLagEditor eds);
     m_pNoteNoteKeyEditor := f (m_pNoteNoteKeyEditor eds);
     m_pNoteProbabilityEditor := f (m_pNoteProbabilityEditor eds);
     m_pNotePanEditor := f (m_pNotePanEditor eds) |}.

Definition to_list (eds : all) : list t :=
  [ m_pDrumPatternEditor eds; m_pPianoRollEditor eds; m_pNoteVelocityEditor eds;
    m_pNoteLeadLagEditor eds; m_pNoteNoteKeyEditor eds;
    m_pNoteProbabilityEditor eds; m_pNotePanEditor eds ].

End Editors.

(** The message boxes the panel opens. *)
Inductive Message : Type :=
| NotWhenPlaying           (* "Is not possible to change the pattern size when playing." *)
| DenominatorRejected      (* "Denominator value rejected.\nLimits: (0, %1]" *)
| PatternSizeTooBig        (* "Pattern size too big.\nMaximum = 16/4" *)
| LengthNotSupported (nDenominator : Z)
                           (* "Pattern length in 1/%1 notes is not supported. Length may be approximated." *)
| SizeApproximated         (* "Pattern size was approximated.\n(resolution = %1 ticks/quarter note)" *)
| TupletNumeratorTooBig    (* "Tuplet numerator too big.\nMaximum = 20" *)
| TextRejected.            (* "Text rejected" *)

(** The boxes that report a refused input. *)
Definition is_rejection (m : Message) : bool :=
  match m with
  | DenominatorRejected | PatternSizeTooBig | TupletNumeratorTooBig | TextRejected => true
  | NotWhenPlaying | LengthNotSupported _ | SizeApproximated => false
  end.

(** The boxes that accompany an accepted input. *)
Definition is_advisory (m : Message) : bool :=
  match m with
  | LengthNotSupported _ | SizeApproximated => true
  | _ => false
  end.

(** ** The pattern editor panel ([PatternEditorPanel.cpp]) *)

Module PatternEditorPanel.

(** The members the handlers below read or write, with the preferences
    singleton they consult.  [pattern_size_LCD] and [m_pTupletLCD] hold the
    text the two displays show, [m_pDenominatorWarning] whether the warning
    icon is visible. *)
Record t : Type := mk {
  m_pPattern : Pattern.t;
  pattern_size_LCD : string;
  m_pDenominatorWarning : bool;
  m_pTupletLCD : string;
  m_nResolution : Z;
  m_nTupletNumerator : Z;
  m_nTupletDenominator : Z;
  m_nCursorIndexPosition : Z;
  m_nCursorIncrement : Z;
  editors : Editors.all;
  preferences : Preferences.t
}.

Definition with_pattern (pat : Pattern.t) (p : t) : t :=
  mk pat (pattern_size_LCD p) (m_pDenominatorWarning p) (m_pTupletLCD p)
     (m_nResolution p) (m_nTupletNumerator p) (m_nTupletDenominator p)
     (m_nCursorIndexPosition p) (m_nCursorIncrement p) (editors p) (preferences p).

Definition with_size_display (text : string) (warning : bool) (p : t) : t :=
  mk (m_pPattern p) text warning (m_pTupletLCD p)
     (m_nResolution p) (m_nTupletNumerator p) (m_nTupletDenominator p)
     (m_nCursorIndexPosition p) (m_nCursorIncrement p) (editors p) (preferences p).

Definition with_tuplet_display (text : string) (p : t) : t :=
  mk (m_pPattern p) (pattern_size_LCD p) (m_pDenominatorWarning p) text
     (m_nResolution p) (m_nTupletNumerator p) (m_nTupletDenominator p)
     (m_nCursorIndexPosition p) (m_nCursorIncrement p) (editors p) (preferences p).

Definition with_cursor (index : Z) (p : t) : t :=
  mk (m_pPattern p) (pattern_size_LCD p) (m_pDenominatorWarning p) (m_pTupletLCD p)
     (m_nResolution p) (m_nTupletNumerator p) (m_nTupletDenominator p)
     index (m_nCursorIncrement p) (editors p) (preferences p).

Definition with_cursor_increment (increment : Z) (p : t) : t :=
  mk (m_pPattern p) (pattern_size_LCD p) (m_pDenominatorWarning p) (m_pTupletLCD p)
     (m_nResolution p) (m_nTupletNumerator p) (m_nTupletDenominator p)
     (m_nCursorIndexPosition p) increment (editors p) (preferences p).

Definition with_preferences (pref : Preferences.t) (p : t) : t :=
  mk (m_pPattern p) (pattern_size_LCD p) (m_pDenominatorWarning p) (m_pTupletLCD p)
     (m_nResolution p) (m_nTupletNumerator p) (m_nTupletDenominator p)
     (m_nCursorIndexPosition p) (m_nCursorIncrement p) (editors p) pref.

(** Modelled from the spec: the panel's own [granularity()] and the types of
    its grid members are declared in [PatternEditorPanel.h], which is
    missing.  It is the formula of [PatternEditor::granularity] on the
    panel's copy of the three grid members. *)
Definition granularity (p : t) : spec_float :=
  PatternEditor.granularity
    (PatternEditor.mk (m_nResolution p) (m_nTupletNumerator p) (m_nTupletDenominator p)).

(** *** Grid resolution and tuplet ratio *)

Definition setResolutionToAllEditors (nResolution : Z) (p : t) : t :=
  mk (m_pPattern p) (pattern_size_LCD p) (m_pDenominatorWarning p) (m_pTupletLCD p)
     (CInt.to_uint nResolution) (m_nTupletNumerator p) (m_nTupletDenominator p)
     (m_nCursorIndexPosition p) (m_nCursorIncrement p)
     (Editors.each (Editors.setResolution nResolution) (editors p)) (preferences p).

Definition setTupletRatioToAllEditors (nTupletNum nTupletDen : Z) (p : t) : t :=
  mk (m_pPattern p) (pattern_size_LCD p) (m_pDenominatorWarning p) (m_pTupletLCD p)
     (m_nResolution p) nTupletNum nTupletDen
     (m_nCursorIndexPosition p) (m_nCursorIncrement p)
     (Editors.each (Editors.setTupletRatio nTupletNum nTupletDen) (editors p))
     (preferences p).

(** [QString( "%1:%2" ).arg( a ).arg( b )]. *)
Definition ratio_text (a b : Z) : string :=
  (QString.number a ++ ":" ++ QString.number b)%string.

(** The text the constructor puts on the tuplet display for the ratio it
    restores from the preferences. *)
Definition initial_tuplet_text (nTupletNumerator nTupletDenominator : Z) : string :=
  if (nTupletNumerator =? 4) && (nTupletDenominator =? 4) then "off"
  else ratio_text nTupletNumerator nTupletDenominator.

(** [void gridResolutionChanged( int nSelected )]. *)
Definition gridResolutionChanged (nSelected : Z) (p : t) : t :=
  let '(nResolution, p1) :=
    if nSelected =? 11 then
      (MAX_NOTES,
       setTupletRatioToAllEditors 4 4
         (with_tuplet_display (ratio_text 4 4)
            (with_preferences
               (Preferences.setPatternEditorGridTupletRatio 4 4 (preferences p)) p)))
    else if 4 <? nSelected then
      (CInt.shl1 (nSelected - 4),
       setTupletRatioToAllEditors 3 2
         (with_tuplet_display (ratio_text 3 2)
            (with_preferences
               (Preferences.setPatternEditorGridTupletRatio 3 2 (preferences p)) p)))
    else
      (CInt.shl1 (nSelected + 2), p) in
  let p2 := setResolutionToAllEditors nResolution p1 in
  let nTupletNumerator :=
    Preferences.getPatternEditorGridTupletNumerator (preferences p2) in
  let p3 :=
    with_cursor_increment
      (CInt.div (CInt.mul (if nTupletNumerator =? 3 then 4 else 3) MAX_NOTES)
                (CInt.mul nResolution 3)) p2 in
  with_preferences
    (Preferences.setPatternEditorGridResolution nResolution (preferences p3)) p3.

(** *** The cursor *)

(** [round( x )] on a [float] argument, as a [double]. *)
Definition round_float (x : spec_float) : spec_float := F64.round (F64.of_float x).

Definition getCursorIndexPosition (p : t) : Z := m_nCursorIndexPosition p.

(** [return round( m_nCursorIndexPosition * granularity() )]. *)
Definition getCursorPosition (p : t) : Z :=
  IEEE.to_int (round_float (F32.mul (F32.of_Z (m_nCursorIndexPosition p)) (granularity p))).

(** [void setCursorIndexPosition( int nGridIndex )]. *)
Definition setCursorIndexPosition (nGridIndex : Z) (p : t) : t :=
  if nGridIndex <? 0 then with_cursor 0 p
  else if F64.leb (F64.of_Z (Pattern.get_length (m_pPattern p)))
                  (round_float (F32.mul (F32.of_Z nGridIndex) (granularity p)))
  then with_cursor
         (IEEE.to_int (F32.div (F32.of_Z (Pattern.get_length (m_pPattern p)))
                               (granularity p))) p
  else with_cursor nGridIndex p.

(** [void setCursorPosition( int nColumn )]. *)
Definition setCursorPosition (nColumn : Z) (p : t) : t :=
  if nColumn <? 0 then with_cursor 0 p
  else if Pattern.get_length (m_pPattern p) <=? nColumn
  then with_cursor
         (IEEE.to_int (F32.div (F32.of_Z (Pattern.get_length (m_pPattern p)))
                               (granularity p))) p
  else with_cursor
         (IEEE.to_int (round_float (F32.div (F32.of_Z nColumn) (granularity p)))) p.

(** [int moveCursorLeft()]: the new state and the index returned. *)
Definition moveCursorLeft (p : t) : t * Z :=
  let p' :=
    if 0 <? m_nCursorIndexPosition p
    then with_cursor (CInt.sub (m_nCursorIndexPosition p) 1) p
    else p in
  (p', m_nCursorIndexPosition p').

(** [int moveCursorRight()]: the test is
    [round( m_nCursorIndexPosition + 1 ) * granularity() < m_pPattern->get_length()],
    with [round] applied to the integer [m_nCursorIndexPosition + 1] and the
    product taken in [double]. *)
Definition moveCursorRight (p : t) : t * Z :=
  let p' :=
    if F64.ltb
         (F64.mul (F64.round (F64.of_Z (CInt.add (m_nCursorIndexPosition p) 1)))
                  (F64.of_float (granularity p)))
         (F64.of_Z (Pattern.get_length (m_pPattern p)))
    then with_cursor (CInt.add (m_nCursorIndexPosition p) 1) p
    else p in
  (p', m_nCursorIndexPosition p').

(** *** The pattern size display and its dialog *)

Section Dialogs.

Context {qt : QtText}.

(** A conversion with its [ok] flag; Qt delivers 0 when it fails. *)
Definition toDouble_ok (s : string) : spec_float * bool :=
  match toDouble s with
  | Some x => (x, true)
  | None => (S754_zero false, false)
  end.

Definition toInt_ok (s : string) : Z * bool :=
  match toInt s with
  | Some n => (n, true)
  | None => (0, false)
  end.

(** [void updatePatternSizeLCD()]. *)
Definition updatePatternSizeLCD (p : t) : t :=
  let nPatternSize := Pattern.get_length (m_pPattern p) in
  let nDen := Pattern.get_denominator (m_pPattern p) in
  let qtmp :=
    if CInt.rem (CInt.mul nPatternSize nDen) MAX_NOTES =? 0 then
      (QString.number (CInt.div (CInt.mul nPatternSize nDen) MAX_NOTES)
         ++ "/" ++ QString.number nDen)%string
    else
      (QLocale.toString_f3 decimalPoint
         (F32.div (F32.of_Z (CInt.mul nPatternSize nDen)) (F32.of_Z MAX_NOTES))
         ++ "/" ++ QString.number nDen)%string in
  with_size_display qtmp (negb (CInt.rem MAX_NOTES nDen =? 0)) p.

(** [void patternLengthChanged()]: of its effects the refresh of the size
    display is kept; repainting the editors and queueing the
    [EVENT_SELECTED_PATTERN_CHANGED] event leave the members above
    untouched. *)
Definition patternLengthChanged (p : t) : t := updatePatternSizeLCD p.

(** [int nLength = round( MAX_NOTES / (double) nDenominator * fNumerator )]. *)
Definition length_in_ticks (fNumerator : spec_float) (nDenominator : Z) : Z :=
  IEEE.to_int
    (F64.round (F64.mul (F64.div (F64.of_Z MAX_NOTES) (F64.of_Z nDenominator)) fNumerator)).

(** [round( (double) nLength / MAX_NOTES * nDenominator * 1000 )]. *)
Definition displayedNum_x1000 (nLength nDenominator : Z) : Z :=
  IEEE.to_int
    (F64.round
       (F64.mul
          (F64.mul (F64.div (F64.of_Z nLength) (F64.of_Z MAX_NOTES))
                   (F64.of_Z nDenominator))
          (F64.of_Z 1000))).

(** [round( fNumerator * 1000 )]. *)
Definition roundInputNum_x1000 (fNumerator : spec_float) : Z :=
  IEEE.to_int (F64.round (F64.mul fNumerator (F64.of_Z 1000))).

(** [void patternSizeLCDClicked()].  [bReady] tells whether the engine is
    in [STATE_READY]; [bIsOkPressed] and [qtmp] are what the input dialog
    returns. *)
Definition patternSizeLCDClicked (bReady bIsOkPressed : bool) (qtmp : string) (p : t)
  : t * list Message :=
  if negb bReady then (p, [NotWhenPlaying])
  else if negb bIsOkPressed then (p, [])
  else if String.eqb (pattern_size_LCD p) qtmp then (p, [])
  else
    let parts := QString.split "/" qtmp in
    let parts0 := QString.replace "," "." (nth 0 parts "") in
    let size := Z.of_nat (List.length parts) in
    if (size =? 1) || (size =? 2) then
      let '(fNumerator, bOk0) := toDouble_ok parts0 in
      let '(nDenominator, bOk, bRefused) :=
        if bOk0 && (size =? 2) then
          let '(n, b) := toInt_ok (nth 1 parts "") in
          (n, b, b && ((n <=? 0) || (MAX_NOTES <? n)))
        else
          (Pattern.get_denominator (m_pPattern p), bOk0, false) in
      if bRefused then (p, [DenominatorRejected])
      else if bOk && F64.ltb (F64.of_Z 0) fNumerator then
        if F64.ltb (F64.of_Z 4) (F64.div fNumerator (F64.of_Z nDenominator))
        then (p, [PatternSizeTooBig])
        else
          let advisory :=
            if CInt.rem MAX_NOTES nDenominator =? 0 then []
            else [LengthNotSupported nDenominator] in
          let nLength := length_in_ticks fNumerator nDenominator in
          let p' :=
            patternLengthChanged
              (with_pattern
                 (Pattern.set_denominator nDenominator
                    (Pattern.set_length nLength (m_pPattern p))) p) in
          let approximated :=
            if displayedNum_x1000 nLength nDenominator =? roundInputNum_x1000 fNumerator
            then [] else [SizeApproximated] in
          (p', advisory ++ approximated)
      else (p, [TextRejected])
    else (p, [TextRejected]).

(** *** The tuplet dialog *)

(** The loop
    [nTupletDenominator = 1; while ( ( 2 * nTupletDenominator ) <= nTupletNumerator ) nTupletDenominator *= 2;]
    started at [nTupletDenominator].  [None]: the doubling left the range
    of [int] (or [fuel] iterations did not suffice). *)
Fixpoint standard_denominator_from (fuel : nat) (nTupletNumerator nTupletDenominator : Z)
  : option Z :=
  match fuel with
  | O => None
  | S fuel' =>
      if CInt.is_intb (2 * nTupletDenominator) then
        if 2 * nTupletDenominator <=? nTupletNumerator
        then standard_denominator_from fuel' nTupletNumerator (nTupletDenominator * 2)
        else Some nTupletDenominator
      else None
  end.

Definition standard_denominator (nTupletNumerator : Z) : option Z :=
  standard_denominator_from 32 nTupletNumerator 1.

(** [void tupletLCDClicked()].  [None]: the loop above overflowed. *)
Definition tupletLCDClicked (bIsOkPressed : bool) (qtmp : string) (p : t)
  : option (t * list Message) :=
  if negb bIsOkPressed then Some (p, [])
  else if String.eqb (m_pTupletLCD p) qtmp then Some (p, [])
  else
    let parts := QString.split ":" qtmp in
    let size := Z.of_nat (List.length parts) in
    if (size =? 1) || (size =? 2) then
      let '(nTupletNumerator, bOk0) := toInt_ok (nth 0 parts "") in
      let parsed :=
        if bOk0 && (size =? 2) then
          let '(n, b) := toInt_ok (nth 1 parts "") in
          Some (n, b, b && ((n <=? 0) || (MAX_NOTES <? n)))
        else
          match standard_denominator nTupletNumerator with
          | Some n => Some (n, bOk0, false)
          | None => None
          end in
      match parsed with
      | None => None
      | Some (nTupletDenominator, bOk, bRefused) =>
          if bRefused then Some (p, [DenominatorRejected])
          else if bOk && (0 <? nTupletNumerator) then
            if 20 <? nTupletNumerator then Some (p, [TupletNumeratorTooBig])
            else
              Some
                (with_tuplet_display (ratio_text nTupletNumerator nTupletDenominator)
                   (setTupletRatioToAllEditors nTupletNumerator nTupletDenominator
                      (with_preferences
                         (Preferences.setPatternEditorGridTupletRatio
                            nTupletNumerator nTupletDenominator (preferences p)) p)),
                 [])
          else Some (p, [TextRejected])
      end
    else Some (p, [TextRejected]).

End Dialogs.

End PatternEditorPanel.

(** ** The cursor rule as the specification words it *)

Module AsSpecified.

Import PatternEditorPanel.

(** The tick a grid index stands for, [round( index * granularity() )], as
    a [double]. *)
Definition tick_of_index (nGridIndex : Z) (p : t) : spec_float :=
  round_float (F32.mul (F32.of_Z nGridIndex) (granularity p)).

(** "clamps negative input to 0; clamps input whose implied tick position
    would exceed patternLength to floor(patternLength / granularity())",
    and keeps any other input. *)
Definition setIndex (nGridIndex : Z) (p : t) : Z :=
  if nGridIndex <? 0 then 0
  else if F64.ltb (F64.of_Z (Pattern.get_length (m_pPattern p)))
                  (tick_of_index nGridIndex p)
  then IEEE.to_int (F32.div (F32.of_Z (Pattern.get_length (m_pPattern p)))
                            (granularity p))
  else nGridIndex.

(** "index = index + 1 only if round((index+1) * granularity()) <
    patternLength, else unchanged". *)
Definition moveRight (p : t) : Z :=
  if F64.ltb (tick_of_index (m_nCursorIndexPosition p + 1) p)
             (F64.of_Z (Pattern.get_length (m_pPattern p)))
  then m_nCursorIndexPosition p + 1
  else m_nCursorIndexPosition p.

End AsSpecified.

(** ** Sample states *)

Module Sample.

Import PatternEditorPanel.

(** The conversions of [DecimalText] with the point as decimal separator. *)
Definition text : QtText := DecimalText.qt ".".

Definition editors (nRes nNum nDen : Z) : Editors.all :=
  let ed := PatternEditor.mk nRes nNum nDen in
  Editors.mkAll ed ed ed ed ed ed ed.

(** A panel on a pattern of [nLength] ticks shown in [1/nPatDen] notes, all
    grids at resolution [nRes] and ratio [nNum:nDen], the cursor on grid
    mark [nIndex]. *)
Definition panel (nRes nNum nDen nLength nPatDen nIndex : Z) : t :=
  @updatePatternSizeLCD text
    (mk (Pattern.mk nLength nPatDen) "" false (initial_tuplet_text nNum nDen)
        nRes nNum nDen nIndex 0 (editors nRes nNum nDen)
        (Preferences.mk nRes nNum nDen)).

End Sample.

(** ** Notions the statements below are phrased with *)

Module Outcome.

Import PatternEditorPanel.

(** A cursor operation leaves every member but the index as it was. *)
Definition same_but_cursor (p p' : t) : Prop :=
  with_cursor (m_nCursorIndexPosition p) p' = p.

(** One editor after a change of resolution alone. *)
Definition resolution_set (nRes : Z) (ed ed' : PatternEditor.t) : Prop :=
  PatternEditor.m_nResolution ed' = nRes
  /\ PatternEditor.m_nTupletNumerator ed' = PatternEditor.m_nTupletNumerator ed
  /\ PatternEditor.m_nTupletDenominator ed' = PatternEditor.m_nTupletDenominator ed.

(** The innermost branch of [patternSizeLCDClicked]: what the dialog does
    with a numerator and a denominator that passed every check. *)
Definition accept {qt : QtText} (fNumerator : spec_float) (nDenominator : Z) (p : t)
  : t * list Message :=
  let nLength := length_in_ticks fNumerator nDenominator in
  (patternLengthChanged
     (with_pattern
        (Pattern.set_denominator nDenominator
           (Pattern.set_length nLength (m_pPattern p))) p),
   (if CInt.rem MAX_NOTES nDenominator =? 0 then []
    else [LengthNotSupported nDenominator])
     ++ (if displayedNum_x1000 nLength nDenominator =? roundInputNum_x1000 fNumerator
         then [] else [SizeApproximated])).

(** The innermost branch of [tupletLCDClicked]: what the dialog does with a
    ratio that passed every check. *)
Definition accept_tuplet (nTupletNumerator nTupletDenominator : Z) (p : t) : t :=
  with_tuplet_display (ratio_text nTupletNumerator nTupletDenominator)
    (setTupletRatioToAllEditors nTupletNumerator nTupletDenominator
       (with_preferences
          (Preferences.setPatternEditorGridTupletRatio
             nTupletNumerator nTupletDenominator (preferences p)) p)).

(** The text [updatePatternSizeLCD] composes for a length and a denominator. *)
Definition size_text {qt : QtText} (nPatternSize nDen : Z) : string :=
  if CInt.rem (CInt.mul nPatternSize nDen) MAX_NOTES =? 0 then
    (QString.number (CInt.div (CInt.mul nPatternSize nDen) MAX_NOTES)
       ++ "/" ++ QString.number nDen)%string
  else
    (QLocale.toString_f3 decimalPoint
       (F32.div (F32.of_Z (CInt.mul nPatternSize nDen)) (F32.of_Z MAX_NOTES))
       ++ "/" ++ QString.number nDen)%string.

(** A number in fixed notation with exactly three digits after the decimal
    separator [point]. *)
Definition fixed3 (point : ascii) (s : string) : Prop :=
  exists (neg : bool) (ip a b c : Z),
    0 <= ip /\ 0 <= a <= 9 /\ 0 <= b <= 9 /\ 0 <= c <= 9
    /\ s = ((if neg then "-" else "")
              ++ QString.number_nat ip
              ++ String point
                   (String (QString.digit a)
                      (String (QString.digit b) (String (QString.digit c) ""))))%string.

(** The text [s] is the number [thousandths / 1000] in fixed notation: its
    integer part, the decimal separator [point] and exactly three digits. *)
Definition decimal3 (point : ascii) (s : string) (thousandths : Z) : Prop :=
  exists (ip a b c : Z),
    0 <= ip /\ 0 <= a <= 9 /\ 0 <= b <= 9 /\ 0 <= c <= 9
    /\ s = (QString.number_nat ip
              ++ String point
                   (String (QString.digit a)
                      (String (QString.digit b) (String (QString.digit c) ""))))%string
    /\ thousandths = 1000 * ip + 100 * a + 10 * b + c.

(** The text of an exact fraction, ["n/d"]. *)
Definition fraction_text (n d : Z) : string :=
  (QString.number n ++ "/" ++ QString.number d)%string.

End Outcome.

(** ** Exact fractions, one by one *)

Module Exhaustive.

Import PatternEditorPanel.

(** The integers [lo], [lo + 1], ..., [lo + len - 1]. *)
Definition range (lo : Z) (len : nat) : list Z :=
  map (fun i => lo + Z.of_nat i) (seq 0 len).

(** The fraction ["n/d"] is split, read and accepted as [n] and [d], stores
    [192 / d * n] ticks, and is displayed again as ["n/d"]. *)
Definition roundtrip_ok (n d : Z) : bool :=
  let text := Outcome.fraction_text n d in
  match QString.split "/" text with
  | [sNum; sDen] =>
      match DecimalText.parseDouble (QString.replace "," "." sNum),
            DecimalText.parseInt sDen with
      | Some f, Some d' =>
          (d' =? d)
          && F64.ltb (F64.of_Z 0) f
          && negb (F64.ltb (F64.of_Z 4) (F64.div f (F64.of_Z d)))
          && (length_in_ticks f d =? MAX_NOTES / d * n)
          && (CInt.rem (CInt.mul (MAX_NOTES / d * n) d) MAX_NOTES =? 0)
          && String.eqb
               (Outcome.fraction_text (CInt.div (CInt.mul (MAX_NOTES / d * n) d) MAX_NOTES) d)
               text
      | _, _ => false
      end
  | _ => false
  end.

(** Every fraction [n/d] with [0 < n <= 4 * d], for a divisor [d] of 192. *)
Definition roundtrip_row (d : Z) : bool :=
  if MAX_NOTES mod d =? 0
  then forallb (fun n => roundtrip_ok n d) (range 1 (Z.to_nat (4 * d)))
  else true.

End Exhaustive.

(** ** Logging, exceptions and the rest of Qt's texts *)

(** What [ERRORLOG], [WARNINGLOG] and [INFOLOG] write. *)
Inductive Log : Type :=
| ERRORLOG (msg : string)
| WARNINGLOG (msg : string)
| INFOLOG (msg : string).

Definition is_error (entry : Log) : bool :=
  match entry with
  | ERRORLOG _ => true
  | _ => false
  end.

(** The outcome of a function that can throw [std::runtime_error]. *)
Inductive result (A : Type) : Type :=
| Returned (a : A)
| Thrown (what : string).

Arguments Returned {A} a.
Arguments Thrown {A} what.

Module Qt.

(** [QChar::isSpace] on ASCII: tab, line feed, vertical tab, form feed,
    carriage return and blank. *)
Definition isSpace (c : ascii) : bool :=
  let n := Z.of_N (N_of_ascii c) in
  ((9 <=? n) && (n <=? 13)) || (n =? 32).

Fixpoint trimmed_start (s : string) : string :=
  match s with
  | EmptyString => EmptyString
  | String c rest => if isSpace c then trimmed_start rest else s
  end.

Fixpoint trimmed_end (s : string) : string :=
  match s with
  | EmptyString => EmptyString
  | String c rest =>
      match trimmed_end rest with
      | EmptyString => if isSpace c then EmptyString else String c EmptyString
      | kept => String c kept
      end
  end.

(** [QString::trimmed()]: white space removed from both ends. *)
Definition trimmed (s : string) : string := trimmed_end (trimmed_start s).

(** [QString::contains( QChar )]. *)
Fixpoint contains (c : ascii) (s : string) : bool :=
  match s with
  | EmptyString => false
  | String x rest => Ascii.eqb x c || contains c rest
  end.

End Qt.

(** The longest prefix of [l] whose members satisfy [f]. *)
Fixpoint take_while {A : Type} (f : A -> bool) (l : list A) : list A :=
  match l with
  | [] => []
  | a :: rest => if f a then a :: take_while f rest else []
  end.

(** ** The settings the constructor restores ([PatternEditorPanel.cpp]) *)

Module Construction.

Definition wrong_grid_resolution (nRes : Z) : Log :=
  ERRORLOG ("Wrong grid resolution: " ++ QString.number nRes).

(** "restore grid resolution": the entry of the resolution menu the
    constructor selects for the resolution [nRes] and the tuplet ratio
    [nTupletNumerator : nTupletDenominator] it reads from the preferences,
    with what it logs.  Entries 0 to 4 are 1/4 to 1/64, entries 6 to 9 are
    1/4T to 1/32T, entry 11 is "off"; 5 and 10 are the separators. *)
Definition nIndex (nRes nTupletNumerator nTupletDenominator : Z) : Z * list Log :=
  if nRes =? MAX_NOTES then (11, [])
  else if negb (nTupletNumerator =? 3) || negb (nTupletDenominator =? 2) then
    match nRes with
    | 4 => (0, [])
    | 8 => (1, [])
    | 16 => (2, [])
    | 32 => (3, [])
    | 64 => (4, [])
    | _ => (0, [wrong_grid_resolution nRes])
    end
  else
    match nRes with
    | 4 => (6, [])
    | 8 => (7, [])
    | 16 => (8, [])
    | 32 => (9, [])
    | _ => (6, [wrong_grid_resolution nRes])
    end.

(** [nIndex] on the three settings of the preferences. *)
Definition restored_index (pPref : Preferences.t) : Z :=
  fst (nIndex (Preferences.getPatternEditorGridResolution pPref)
              (Preferences.getPatternEditorGridTupletNumerator pPref)
              (Preferences.getPatternEditorGridTupletDenominator pPref)).

(** The entries of the resolution menu that can be chosen. *)
Definition selectable : list Z := [0; 1; 2; 3; 4; 6; 7; 8; 9; 11].

End Construction.

(** ** The explanation of the warning icon *)

Module DenominatorWarning.

(** The text of the box [denominatorWarningClicked] opens,
    [tr( "..." ).arg( MAX_NOTES )]. *)
Definition denominatorWarningClicked : string :=
  "Hydrogen can only represent notes as small as 1/" ++ QString.number MAX_NOTES
  ++ " of a whole note, so note values must be multiple of this."
  ++ String "010" "Supported values are: "
  ++ "1/1, 1/2, 1/3, 1/4, 1/6, 1/8, 1/12, 1/16, 1/24, 1/32, 1/48, 1/64, 1/96, 1/192".

(** The note values of the last sentence. *)
Definition supported_values : list Z :=
  [1; 2; 3; 4; 6; 8; 12; 16; 24; 32; 48; 64; 96; 192].

(** A list of note values as the sentence writes it: "1/a, 1/b, ...". *)
Fixpoint note_values (l : list Z) : string :=
  match l with
  | [] => ""
  | [d] => "1/" ++ QString.number d
  | d :: rest => "1/" ++ QString.number d ++ ", " ++ note_values rest
  end.

(** Whether a denominator is among them. *)
Definition listed (nDen : Z) : bool := existsb (Z.eqb nDen) supported_values.

End DenominatorWarning.

(** ** What the panel keeps in step *)

Module Sync.

Import PatternEditorPanel.

(** The panel, its seven editors and the preferences hold the same
    resolution and the same tuplet ratio. *)
Definition grids_agree (p : t) : Prop :=
  Forall (fun ed => ed = PatternEditor.mk (m_nResolution p) (m_nTupletNumerator p)
                                           (m_nTupletDenominator p))
         (Editors.to_list (editors p))
  /\ preferences p = Preferences.mk (m_nResolution p) (m_nTupletNumerator p)
                                    (m_nTupletDenominator p).

(** The size display and the warning icon show the pattern the panel
    holds. *)
Definition size_shown {qt : QtText} (p : t) : Prop :=
  pattern_size_LCD p
  = Outcome.size_text (Pattern.get_length (m_pPattern p))
                      (Pattern.get_denominator (m_pPattern p))
  /\ m_pDenominatorWarning p
     = negb (CInt.rem MAX_NOTES (Pattern.get_denominator (m_pPattern p)) =? 0).

(** The tuplet display shows the ratio the panel holds, "off" standing for
    4:4. *)
Definition tuplet_shown (p : t) : Prop :=
  m_pTupletLCD p = ratio_text (m_nTupletNumerator p) (m_nTupletDenominator p)
  \/ (m_pTupletLCD p = "off" /\ m_nTupletNumerator p = 4 /\ m_nTupletDenominator p = 4).

End Sync.

(** ** Grids on whole ticks *)

Module Grid.

Import PatternEditorPanel.

(** The marks of the grid fall on whole ticks, [G] ticks apart: the three
    grid members are positive and 192 * den = G * (num * resolution).
    So it is for every entry of the resolution menu while the tuplet ratio
    is 4:4, 1:1 or 3:2. *)
Definition whole_ticks (G : Z) (p : t) : Prop :=
  0 < m_nResolution p /\ 0 < m_nTupletNumerator p /\ 0 < m_nTupletDenominator p
  /\ 0 < G
  /\ MAX_NOTES * m_nTupletDenominator p
     = G * (m_nTupletNumerator p * m_nResolution p)
  /\ MAX_NOTES * m_nTupletDenominator p < 2 ^ 23.

End Grid.

(** ** The note property views *)

Module NoteProperties.

(** The five views [propertiesComboChanged] shows and hides: whether each
    scroll view is visible. *)
Record t : Type := mk {
  m_pNoteVelocityScrollView : bool;
  m_pNotePanScrollView : bool;
  m_pNoteLeadLagScrollView : bool;
  m_pNoteNoteKeyScrollView : bool;
  m_pNoteProbabilityScrollView : bool
}.

(** The modes of [NotePropertiesRuler], one editor each. *)
Inductive Mode : Type := VELOCITY | PAN | LEADLAG | NOTEKEY | PROBABILITY.

(** The scroll view the constructor builds around the editor of a mode. *)
Definition view (mode : Mode) (v : t) : bool :=
  match mode with
  | VELOCITY => m_pNoteVelocityScrollView v
  | PAN => m_pNotePanScrollView v
  | LEADLAG => m_pNoteLeadLagScrollView v
  | NOTEKEY => m_pNoteNoteKeyScrollView v
  | PROBABILITY => m_pNoteProbabilityScrollView v
  end.

(** [show()] and [hide()] of one scroll view. *)
Definition setVisible (mode : Mode) (visible : bool) (v : t) : t :=
  match mode with
  | VELOCITY =>
      mk visible (m_pNotePanScrollView v) (m_pNoteLeadLagScrollView v)
         (m_pNoteNoteKeyScrollView v) (m_pNoteProbabilityScrollView v)
  | PAN =>
      mk (m_pNoteVelocityScrollView v) visible (m_pNoteLeadLagScrollView v)
         (m_pNoteNoteKeyScrollView v) (m_pNoteProbabilityScrollView v)
  | LEADLAG =>
      mk (m_pNoteVelocityScrollView v) (m_pNotePanScrollView v) visible
         (m_pNoteNoteKeyScrollView v) (m_pNoteProbabilityScrollView v)
  | NOTEKEY =>
      mk (m_pNoteVelocityScrollView v) (m_pNotePanScrollView v)
         (m_pNoteLeadLagScrollView v) visible (m_pNoteProbabilityScrollView v)
  | PROBABILITY =>
      mk (m_pNoteVelocityScrollView v) (m_pNotePanScrollView v)
         (m_pNoteLeadLagScrollView v) (m_pNoteNoteKeyScrollView v) visible
  end.

Definition show (mode : Mode) : t -> t := setVisible mode true.
Definition hide (mode : Mode) : t -> t := setVisible mode false.

(** The entries the constructor adds to the properties menu, in order, with
    the mode each one stands for. *)
Definition pPropertiesCombo : list (string * Mode) :=
  [("Velocity", VELOCITY); ("Pan", PAN); ("Lead and Lag", LEADLAG);
   ("NoteKey", NOTEKEY); ("Probability", PROBABILITY)].

Definition unhandled_value (nSelected : Z) : Log :=
  ERRORLOG ("unhandled value : " ++ QString.number nSelected).

(** [void propertiesComboChanged( int nSelected )]: the views afterwards,
    the editor whose [updateEditor()] is called, and what is logged. *)
Definition propertiesComboChanged (nSelected : Z) (v : t) : t * option Mode * list Log :=
  if nSelected =? 0 then
    (hide PROBABILITY (show VELOCITY (hide NOTEKEY (hide LEADLAG (hide PAN v)))),
     Some VELOCITY, [])
  else if nSelected =? 1 then
    (hide PROBABILITY (show PAN (hide NOTEKEY (hide LEADLAG (hide VELOCITY v)))),
     Some PAN, [])
  else if nSelected =? 2 then
    (hide PROBABILITY (show LEADLAG (hide NOTEKEY (hide PAN (hide VELOCITY v)))),
     Some LEADLAG, [])
  else if nSelected =? 3 then
    (hide PROBABILITY (show NOTEKEY (hide LEADLAG (hide PAN (hide VELOCITY v)))),
     Some NOTEKEY, [])
  else if nSelected =? 4 then
    (show PROBABILITY (hide VELOCITY (hide NOTEKEY (hide LEADLAG (hide PAN v)))),
     Some PROBABILITY, [])
  else (v, None, [unhandled_value nSelected]).

Definition modes : list Mode := [VELOCITY; PAN; LEADLAG; NOTEKEY; PROBABILITY].

Definition Mode_eqb (a b : Mode) : bool :=
  match a, b with
  | VELOCITY, VELOCITY | PAN, PAN | LEADLAG, LEADLAG
  | NOTEKEY, NOTEKEY | PROBABILITY, PROBABILITY => true
  | _, _ => false
  end.

End NoteProperties.

(** ** The two recording boxes *)

Module RecDelete.

(** The entries the constructor adds to [__recpredelete] and to
    [__recpostdelete]. *)
Definition recpredelete : list string :=
  ["On play"; "On rec: once fp"; "On rec: 1/1 fp"; "On rec: 1/2 fp"; "On rec: 1/4 fp";
   "On rec: 1/8 fp"; "On rec: 1/16 fp"; "On rec: 1/32 fp"; "On rec: 1/64 fp";
   "On rec: 1/64"; "On rec: 1/32"; "On rec: 1/16"; "On rec: 1/8"; "On rec: 1/4";
   "On rec: 1/2"; "On rec: 1/1"; "On rec: once"].

Definition recpostdelete : list string :=
  ["off"; "1/64"; "1/32"; "1/16"; "1/8"; "1/4"; "1/2"; "1/1"].

(** The two settings of the preferences the boxes write, the setting they
    read, the entry [__recpredelete] stands on, and whether each box is
    visible. *)
Record t : Type := mk {
  m_nRecPreDelete : Z;
  m_nRecPostDelete : Z;
  getDestructiveRecord : bool;
  currentIndex : Z;
  recpredelete_visible : bool;
  recpostdelete_visible : bool
}.

(** [void recPreDeleteSelect( int index )]. *)
Definition recPreDeleteSelect (index : Z) (s : t) : t :=
  mk index (m_nRecPostDelete s) (getDestructiveRecord s) (currentIndex s)
     (recpredelete_visible s) ((9 <=? index) && (index <=? 15)).

(** [void recPostDeleteSelect( int index )]. *)
Definition recPostDeleteSelect (index : Z) (s : t) : t :=
  mk (m_nRecPreDelete s) index (getDestructiveRecord s) (currentIndex s)
     (recpredelete_visible s) (recpostdelete_visible s).

(** [void displayorHidePrePostCB()]. *)
Definition displayorHidePrePostCB (s : t) : t :=
  let index := currentIndex s in
  if getDestructiveRecord s then
    mk (m_nRecPreDelete s) (m_nRecPostDelete s) (getDestructiveRecord s) (currentIndex s)
       true ((8 <=? index) && (index <=? 14))
  else
    mk (m_nRecPreDelete s) (m_nRecPostDelete s) (getDestructiveRecord s) (currentIndex s)
       false false.

(** An entry of [__recpredelete] that is "On rec: " followed by a note value
    of [__recpostdelete]. *)
Definition names_note_value (entry : string) : bool :=
  existsb (fun value => String.eqb entry ("On rec: " ++ value)) (tl recpostdelete).

End RecDelete.

(** ** Drum editor and piano roll *)

Module EditorViews.

(** The two editors the panel switches between. *)
Inductive Editor : Type := DrumPatternEditor | PianoRollEditor.

(** What [showDrumEditorBtnClick] touches: the toggle button with its tool
    tip, which scroll views are visible, the editor whose scroll view the ruler
    and the instrument list forward their focus to, the vertical scroll position of
    the piano roll, and the notes selected in each editor. *)
Record t (Note : Type) : Type := mk {
  show_drum_btn : bool;
  toolTip : string;
  m_pPianoRollScrollView : bool;
  m_pEditorScrollView : bool;
  m_pInstrListScrollView : bool;
  rulerFocusProxy : Editor;
  instrumentListFocusProxy : Editor;
  pianoRollVerticalScroll : Z;
  drumSelection : list Note;
  pianoRollSelection : list Note
}.

Arguments mk {Note}.
Arguments show_drum_btn {Note}.
Arguments toolTip {Note}.
Arguments m_pPianoRollScrollView {Note}.
Arguments m_pEditorScrollView {Note}.
Arguments m_pInstrListScrollView {Note}.
Arguments rulerFocusProxy {Note}.
Arguments instrumentListFocusProxy {Note}.
Arguments pianoRollVerticalScroll {Note}.
Arguments drumSelection {Note}.
Arguments pianoRollSelection {Note}.

(** [void showDrumEditorBtnClick( Button *ref )]. *)
Definition showDrumEditorBtnClick {Note : Type} (s : t Note) : t Note :=
  if negb (show_drum_btn s) then
    mk (show_drum_btn s) "Show piano roll editor" false true true
       DrumPatternEditor DrumPatternEditor (pianoRollVerticalScroll s) [] []
  else
    mk (show_drum_btn s) "Show drum editor" true false true
       PianoRollEditor PianoRollEditor 250 [] [].

(** [void selectInstrumentNotes( int nInstrument )]: the editor whose
    [selectInstrumentNotes] is called. *)
Definition selectInstrumentNotes {Note : Type} (s : t Note) : Editor :=
  if show_drum_btn s then PianoRollEditor else DrumPatternEditor.

(** The scroll view of an editor is visible. *)
Definition visible {Note : Type} (editor : Editor) (s : t Note) : bool :=
  match editor with
  | DrumPatternEditor => m_pEditorScrollView s
  | PianoRollEditor => m_pPianoRollScrollView s
  end.

End EditorViews.

(** ** Moving the selected instrument *)

Module InstrumentMoves.

Section Song.

(** The instrument list of the song belongs to the core library; the panel
    reaches it through [size()] and [swap( a, b )]. *)
Variable InstrumentList : Type.
Variable size : InstrumentList -> Z.
Variable swap : Z -> Z -> InstrumentList -> InstrumentList.

(** The instrument list, the selected instrument number of the engine,
    whether the song is marked as modified, and whether the audio engine is
    locked. *)
Record t : Type := mk {
  pInstrumentList : InstrumentList;
  nSelectedInstrument : Z;
  isModified : bool;
  locked : bool
}.

Definition lock (s : t) : t :=
  mk (pInstrumentList s) (nSelectedInstrument s) (isModified s) true.

Definition unlock (s : t) : t :=
  mk (pInstrumentList s) (nSelectedInstrument s) (isModified s) false.

(** [void moveUpBtnClicked( Button * )]. *)
Definition moveUpBtnClicked (s : t) : t :=
  let n := nSelectedInstrument s in
  let s1 := lock s in
  if 0 <=? CInt.sub n 1 then
    let s2 := unlock (mk (swap (CInt.sub n 1) n (pInstrumentList s1)) n
                         (isModified s1) (locked s1)) in
    mk (pInstrumentList s2) (CInt.sub n 1) true (locked s2)
  else unlock s1.

(** [void moveDownBtnClicked( Button * )]. *)
Definition moveDownBtnClicked (s : t) : t :=
  let n := nSelectedInstrument s in
  let s1 := lock s in
  if CInt.add n 1 <? CInt.wrap (size (pInstrumentList s1)) then
    let s2 := unlock (mk (swap n (CInt.add n 1) (pInstrumentList s1)) n
                         (isModified s1) (locked s1)) in
    mk (pInstrumentList s2) (CInt.add n 1) true (locked s2)
  else unlock s1.

End Song.

Arguments mk {InstrumentList}.
Arguments pInstrumentList {InstrumentList}.
Arguments nSelectedInstrument {InstrumentList}.
Arguments isModified {InstrumentList}.
Arguments locked {InstrumentList}.
Arguments moveUpBtnClicked {InstrumentList}.
Arguments moveDownBtnClicked {InstrumentList}.

(** A list of two instruments, for examples. *)
Definition pair_size (l : Z * Z) : Z := 2.

Definition pair_swap (a b : Z) (l : Z * Z) : Z * Z :=
  if a =? b then l else (snd l, fst l).

End InstrumentMoves.

(** ** The selected pattern *)

Module SelectedPattern.

Import PatternEditorPanel.

(** A pattern of the song's list with its name. *)
Record Named : Type := mkNamed {
  get_name : string;
  pattern : Pattern.t
}.

(** What [selectedPatternChangedEvent] writes: the pattern the panel points
    to ([None] for [nullptr]), the window title, the name label, and the
    members of the panel the size display belongs to. *)
Record t : Type := mk {
  m_pPattern : option Named;
  windowTitle : string;
  m_pPatternNameLbl : string;
  panel : PatternEditorPanel.t
}.

(** [PatternList::get( idx )]. *)
Definition get (pPatternList : list Named) (idx : Z) : option Named :=
  if idx <? 0 then None else nth_error pPatternList (Z.to_nat idx).

(** [void selectedPatternChangedEvent()], for the pattern list of the song
    and the selected pattern number of the engine.  [None]: the list was
    indexed outside its bounds. *)
Definition selectedPatternChangedEvent {qt : QtText}
           (pPatternList : list Named) (nSelectedPatternNumber : Z) (s : t) : option t :=
  if negb (nSelectedPatternNumber =? -1)
     && (CInt.to_uint nSelectedPatternNumber
         <? CInt.to_uint (Z.of_nat (List.length pPatternList)))
  then
    match get pPatternList nSelectedPatternNumber with
    | Some pat =>
        Some (mk (Some pat)
                 ("Pattern editor - " ++ get_name pat)
                 (get_name pat)
                 (updatePatternSizeLCD (with_pattern (pattern pat) (panel s))))
    | None => None
    end
  else
    Some (mk None
             ("Pattern editor - " ++ "No pattern selected.")
             "No pattern selected"
             (panel s)).

End SelectedPattern.

(** ** The test helper ([TestHelper.cpp]) *)

Module TestHelper.

Definition APP_DATA_DIR : string := "/data/".
Definition TEST_DATA_DIR : string := "/src/tests/data/".

(** What the helper observes of the machine it runs on: the variables of
    the environment, the files that exist, and for a program with its
    arguments the exit code and the standard output of its run. *)
Record World : Type := mkWorld {
  environment : string -> option string;
  exists_ : string -> bool;
  run : string -> list string -> Z * string
}.

(** [QProcessEnvironment::value( name, defaultValue )]. *)
Definition value (w : World) (name defaultValue : string) : string :=
  match environment w name with
  | Some v => v
  | None => defaultValue
  end.

(** [QString qx( QStringList args )] on the list [program :: arguments]. *)
Definition qx (w : World) (program : string) (arguments : list string) : result string :=
  let '(exitCode, output) := run w program arguments in
  if negb (exitCode =? 0) then Thrown "Not a git repository"
  else Returned (Qt.trimmed output).

(** [bool checkRootDir( const QString &dir )]. *)
Definition checkRootDir (w : World) (dir : string) : bool :=
  exists_ w (dir ++ TEST_DATA_DIR ++ "/drumkits/baseKit/drumkit.xml").

Definition not_usable (dir : string) : Log :=
  ERRORLOG ("Directory " ++ dir ++ " not usable").

Definition no_data_directory : string :=
  "Can't find suitable data directory. Consider setting H2_HOME environment variable".

(** The end of [findRootDir]: "As last resort, use current dir". *)
Definition last_resort (w : World) (log : list Log) : result string * list Log :=
  if checkRootDir w "." then (Returned ".", log)
  else (Thrown no_data_directory, log).

(** [QString findRootDir()]: what it returns or throws, and what it logs. *)
Definition findRootDir (w : World) : result string * list Log :=
  let env_root_dir := value w "H2_HOME" "" in
  if negb (env_root_dir =? "")%string && checkRootDir w env_root_dir
  then (Returned env_root_dir, [])
  else
    let log := if negb (env_root_dir =? "")%string then [not_usable env_root_dir] else [] in
    match qx w "git" ["rev-parse"; "--show-toplevel"] with
    | Returned git_root_dir =>
        if checkRootDir w git_root_dir then (Returned git_root_dir, log)
        else last_resort w (log ++ [not_usable git_root_dir])
    | Thrown _ =>
        last_resort w (log ++ [WARNINGLOG "Can't find git root directory"])
    end.

(** The two members of the helper. *)
Record t : Type := mk {
  m_sDataDir : string;
  m_sTestDataDir : string
}.

(** [TestHelper::TestHelper()]. *)
Definition TestHelper (w : World) : result t * list Log :=
  match findRootDir w with
  | (Returned root_dir, log) =>
      (Returned (mk (root_dir ++ APP_DATA_DIR) (root_dir ++ TEST_DATA_DIR)),
       log ++ [INFOLOG ("Using test data directory: " ++ root_dir)])
  | (Thrown what, log) => (Thrown what, log)
  end.

(** [void TestHelper::createInstance()] on the static [m_pInstance]
    ([None] for [nullptr]): the instance afterwards, the exception that
    left the function, if any, and what was logged. *)
Definition createInstance (w : World) (m_pInstance : option t)
  : option t * option string * list Log :=
  match m_pInstance with
  | Some _ => (m_pInstance, None, [])
  | None =>
      match TestHelper w with
      | (Returned helper, log) => (Some helper, None, log)
      | (Thrown what, log) => (None, Some what, log)
      end
  end.

(** The directories [findRootDir] considers, in the order it tries them:
    the value of [H2_HOME] unless it is empty, the top level git reports
    unless git fails, and the current directory. *)
Definition candidates (w : World) : list string :=
  (if (value w "H2_HOME" "" =? "")%string then [] else [value w "H2_HOME" ""])
  ++ match qx w "git" ["rev-parse"; "--show-toplevel"] with
     | Returned git_root_dir => [git_root_dir]
     | Thrown _ => []
     end
  ++ ["."].

End TestHelper.

(** * Properties *)

(** ** Rounding in the normal range *)

Module RoundingFacts.

Lemma digits2_size (m : positive) : digits2_pos m = Pos.size m.
Proof. induction m; cbn; congruence. Qed.

Lemma digits2_log2 (m : positive) : Zpos (digits2_pos m) = Z.log2 (Zpos m) + 1.
Proof. rewrite digits2_size. destruct m; cbn [Z.log2 Pos.size]; lia. Qed.

Lemma digits2_bounds (m : positive) :
  2 ^ (Zpos (digits2_pos m) - 1) <= Zpos m < 2 ^ Zpos (digits2_pos m).
Proof.
  rewrite digits2_log2.
  replace (Z.log2 (Zpos m) + 1 - 1) with (Z.log2 (Zpos m)) by lia.
  pose proof (Z.log2_spec (Zpos m) ltac:(lia)) as H.
  replace (Z.log2 (Zpos m) + 1) with (Z.succ (Z.log2 (Zpos m))) by lia.
  exact H.
Qed.

Lemma digits2_unique (m : positive) (k : Z) :
  2 ^ (k - 1) <= Zpos m < 2 ^ k -> Zpos (digits2_pos m) = k.
Proof.
  intros [Hlo Hhi]. rewrite digits2_log2.
  assert (Hk : 1 <= k).
  { destruct (Z_lt_le_dec k 1) as [Hlt|]; [|assumption].
    assert (2 ^ k <= 2 ^ 0) by (apply Z.pow_le_mono_r; lia).
    change (2 ^ 0) with 1 in *. lia. }
  rewrite (Z.log2_unique (Zpos m) (k - 1)); [lia|lia|].
  replace (Z.succ (k - 1)) with k by lia. split; assumption.
Qed.

Lemma shr_m_of_loc (m : Z) (l : location) : shr_m (shr_record_of_loc m l) = m.
Proof. destruct l as [|[]]; reflexivity. Qed.

Lemma shr_1_m (r : shr_record) : 0 <= shr_m r -> shr_m (shr_1 r) = shr_m r / 2.
Proof.
  destruct r as [m rb sb]. cbn. intros Hm.
  destruct m as [|[p|p|]|p]; cbn; try lia.
  - rewrite (Pos2Z.inj_xI p). apply Z.div_unique with (r := 1); lia.
  - rewrite (Pos2Z.inj_xO p). apply Z.div_unique with (r := 0); lia.
Qed.

Lemma iter_shr_m (p : positive) :
  forall r, 0 <= shr_m r ->
            shr_m (iter_pos shr_1 p r) = shr_m r / 2 ^ Zpos p.
Proof.
  induction p as [p IH|p IH|]; intros r Hr; cbn [iter_pos].
  - assert (H1 : 0 <= shr_m (shr_1 r)) by (rewrite shr_1_m by assumption; apply Z.div_pos; lia).
    assert (Hp : 0 < 2 ^ Zpos p) by (apply Z.pow_pos_nonneg; lia).
    assert (H2 : 0 <= shr_m (iter_pos shr_1 p (shr_1 r)))
      by (rewrite IH by assumption; apply Z.div_pos; lia).
    rewrite IH by assumption. rewrite IH by assumption. rewrite shr_1_m by assumption.
    rewrite !Z.div_div by lia. f_equal.
    rewrite (Pos2Z.inj_xI p).
    replace (2 * Zpos p + 1) with (1 + Zpos p + Zpos p) by lia.
    rewrite (Z.pow_add_r 2 (1 + Zpos p) (Zpos p)) by lia.
    rewrite (Z.pow_add_r 2 1 (Zpos p)) by lia. lia.
  - assert (Hp : 0 < 2 ^ Zpos p) by (apply Z.pow_pos_nonneg; lia).
    assert (H2 : 0 <= shr_m (iter_pos shr_1 p r))
      by (rewrite IH by assumption; apply Z.div_pos; lia).
    rewrite IH by assumption. rewrite IH by assumption.
    rewrite !Z.div_div by lia. f_equal.
    rewrite (Pos2Z.inj_xO p).
    replace (2 * Zpos p) with (Zpos p + Zpos p) by lia.
    rewrite (Z.pow_add_r 2 (Zpos p) (Zpos p)) by lia. lia.
  - apply shr_1_m. assumption.
Qed.

Lemma shr_spec (r : shr_record) (e n : Z) :
  0 <= shr_m r -> 0 <= n ->
  shr_m (fst (shr r e n)) = shr_m r / 2 ^ n /\ snd (shr r e n) = e + n.
Proof.
  intros Hr Hn. destruct n as [|p|p]; cbn [shr fst snd].
  - rewrite Z.div_1_r. split; lia.
  - split; [apply iter_shr_m; assumption|reflexivity].
  - lia.
Qed.

Lemma round_nearest_even_bounds (m : Z) (l : location) :
  m <= round_nearest_even m l <= m + 1.
Proof.
  destruct l as [|[]]; cbn; try lia. destruct (Z.even m); lia.
Qed.

Lemma loc_of_record_of_loc (m : Z) (l : location) :
  loc_of_shr_record (shr_record_of_loc m l) = l.
Proof. destruct l as [|[]]; reflexivity. Qed.

Lemma shr_1_even (m : Z) :
  0 <= m ->
  shr_1 {| shr_m := 2 * m; shr_r := false; shr_s := false |}
  = {| shr_m := m; shr_r := false; shr_s := false |}.
Proof. intros Hm. destruct m as [|p|p]; try lia; reflexivity. Qed.

Lemma iter_shr_exact (p : positive) :
  forall m, 0 <= m ->
            iter_pos shr_1 p {| shr_m := m * 2 ^ Zpos p; shr_r := false; shr_s := false |}
            = {| shr_m := m; shr_r := false; shr_s := false |}.
Proof.
  induction p as [p IH|p IH|]; intros m Hm; cbn [iter_pos].
  - assert (Hp : 0 < 2 ^ Zpos p) by (apply Z.pow_pos_nonneg; lia).
    replace (m * 2 ^ Zpos p~1) with (2 * (m * 2 ^ Zpos p * 2 ^ Zpos p)).
    + rewrite shr_1_even by nia. rewrite IH by nia. apply IH. assumption.
    + rewrite (Pos2Z.inj_xI p).
      replace (2 * Zpos p + 1) with (1 + Zpos p + Zpos p) by lia.
      rewrite (Z.pow_add_r 2 (1 + Zpos p) (Zpos p)) by lia.
      rewrite (Z.pow_add_r 2 1 (Zpos p)) by lia. lia.
  - assert (Hp : 0 < 2 ^ Zpos p) by (apply Z.pow_pos_nonneg; lia).
    replace (m * 2 ^ Zpos p~0) with (m * 2 ^ Zpos p * 2 ^ Zpos p).
    + rewrite IH by nia. apply IH. assumption.
    + rewrite (Pos2Z.inj_xO p).
      replace (2 * Zpos p) with (Zpos p + Zpos p) by lia.
      rewrite (Z.pow_add_r 2 (Zpos p) (Zpos p)) by lia. lia.
  - change (2 ^ 1) with 2. rewrite Z.mul_comm. apply shr_1_even. assumption.
Qed.

Section Format.

Variables prec emax : Z.
Hypothesis Hprec : 0 < prec.

Lemma shr_fexp_spec (m e : Z) (l : location) :
  0 < m -> prec <= Zdigits2 m -> emin prec emax <= Zdigits2 m + e - prec ->
  shr_m (fst (shr_fexp prec emax m e l)) = m / 2 ^ (Zdigits2 m - prec)
  /\ snd (shr_fexp prec emax m e l) = e + (Zdigits2 m - prec).
Proof.
  intros Hm Hd Hmin. unfold shr_fexp, fexp.
  rewrite Z.max_l by lia.
  replace (Zdigits2 m + e - prec - e) with (Zdigits2 m - prec) by lia.
  pose proof (shr_spec (shr_record_of_loc m l) e (Zdigits2 m - prec)) as H.
  rewrite shr_m_of_loc in H. apply H; lia.
Qed.

(** In the normal range [binary_round_aux] delivers a finite number of the
    sign it was given, with a mantissa of [prec] digits. *)
Lemma binary_round_aux_normal (s : bool) (mx ex : Z) (lx : location) :
  0 < mx -> prec <= Zdigits2 mx ->
  emin prec emax <= Zdigits2 mx + ex - prec ->
  Zdigits2 mx + ex + 1 <= emax ->
  exists m e,
    binary_round_aux prec emax s mx ex lx = S754_finite s m e
    /\ Zpos (digits2_pos m) = prec
    /\ Zdigits2 mx + ex <= prec + e <= Zdigits2 mx + ex + 1.
Proof.
  intros Hmx Hd Hmin Hmax.
  destruct mx as [|px|px]; try lia. cbn [Zdigits2] in *.
  set (d := Zpos (digits2_pos px)) in *.
  pose proof (digits2_bounds px) as Hpx. fold d in Hpx.
  unfold binary_round_aux.
  pose proof (shr_fexp_spec (Zpos px) ex lx ltac:(lia) Hd Hmin) as [Hq He'].
  cbn [Zdigits2] in Hq, He'. fold d in Hq, He'.
  destruct (shr_fexp prec emax (Zpos px) ex lx) as [mrs' e']. cbn [fst snd] in Hq, He'.
  assert (Hn : 0 < 2 ^ (d - prec)) by (apply Z.pow_pos_nonneg; lia).
  assert (Hqlo : 2 ^ (prec - 1) <= shr_m mrs').
  { rewrite Hq. apply Z.div_le_lower_bound; [lia|].
    rewrite <- Z.pow_add_r by lia. replace (d - prec + (prec - 1)) with (d - 1) by lia.
    lia. }
  assert (Hqhi : shr_m mrs' < 2 ^ prec).
  { rewrite Hq. apply Z.div_lt_upper_bound; [lia|].
    rewrite <- Z.pow_add_r by lia. replace (d - prec + prec) with d by lia. lia. }
  pose proof (round_nearest_even_bounds (shr_m mrs') (loc_of_shr_record mrs')) as Hm1.
  set (m1 := round_nearest_even (shr_m mrs') (loc_of_shr_record mrs')) in *.
  assert (Hpp : 0 < 2 ^ (prec - 1)) by (apply Z.pow_pos_nonneg; lia).
  assert (Hp2 : 2 ^ prec = 2 * 2 ^ (prec - 1)).
  { replace prec with (1 + (prec - 1)) at 1 by lia. rewrite Z.pow_add_r by lia. lia. }
  destruct m1 as [|p1|p1] eqn:Em1; try lia.
  destruct (Z_lt_le_dec (Zpos p1) (2 ^ prec)) as [Hlt|Hge].
  - (* no carry *)
    assert (Hd1 : Zpos (digits2_pos p1) = prec) by (apply digits2_unique; lia).
    pose proof (shr_fexp_spec (Zpos p1) e' loc_Exact ltac:(lia)) as H2.
    cbn [Zdigits2] in H2. rewrite Hd1 in H2.
    destruct (H2 ltac:(lia) ltac:(lia)) as [Hm2 He2].
    destruct (shr_fexp prec emax (Zpos p1) e' loc_Exact) as [mrs'' e''].
    cbn [fst snd] in Hm2, He2.
    replace (prec - prec) with 0 in Hm2, He2 by lia. rewrite Z.div_1_r in Hm2.
    rewrite Hm2.
    replace (e'' <=? emax - prec) with true by (symmetry; apply Z.leb_le; lia).
    exists p1, e''. repeat split; try assumption; lia.
  - (* the rounding carried into a further digit *)
    assert (Heq : Zpos p1 = 2 ^ prec) by lia.
    assert (Hd1 : Zpos (digits2_pos p1) = prec + 1).
    { apply digits2_unique. replace (prec + 1 - 1) with prec by lia.
      rewrite Heq. replace (prec + 1) with (1 + prec) by lia.
      rewrite (Z.pow_add_r 2 1 prec) by lia. lia. }
    pose proof (shr_fexp_spec (Zpos p1) e' loc_Exact ltac:(lia)) as H2.
    cbn [Zdigits2] in H2. rewrite Hd1 in H2.
    destruct (H2 ltac:(lia) ltac:(lia)) as [Hm2 He2].
    destruct (shr_fexp prec emax (Zpos p1) e' loc_Exact) as [mrs'' e''].
    cbn [fst snd] in Hm2, He2.
    replace (prec + 1 - prec) with 1 in Hm2, He2 by lia.
    assert (Hhalf : 2 ^ prec / 2 = 2 ^ (prec - 1)).
    { rewrite Hp2. rewrite (Z.mul_comm 2 (2 ^ (prec - 1))). apply Z.div_mul. lia. }
    change (2 ^ 1) with 2 in Hm2. rewrite Heq, Hhalf in Hm2.
    rewrite Hm2.
    destruct (2 ^ (prec - 1)) as [|p2|p2] eqn:E2; try lia.
    replace (e'' <=? emax - prec) with true by (symmetry; apply Z.leb_le; lia).
    exists p2, e''. repeat split; try lia.
    apply digits2_unique. rewrite E2, Hp2. lia.
Qed.


(** *** Numbers in the normal range *)

Lemma normal_weaken (s : bool) (lo hi lo' hi' : Z) (x : spec_float) :
  IEEE.normal prec s lo hi x -> lo' <= lo -> hi <= hi' -> IEEE.normal prec s lo' hi' x.
Proof.
  intros (m & e & Hx & Hd & He) Hlo Hhi. exists m, e. repeat split; try assumption; lia.
Qed.

Lemma iter_xO (m d : positive) : Zpos (Pos.iter xO m d) = Zpos m * 2 ^ Zpos d.
Proof.
  induction d as [|d IH] using Pos.peano_ind.
  - cbn [Pos.iter]. rewrite (Pos2Z.inj_xO m). change (2 ^ 1) with 2. lia.
  - rewrite Pos.iter_succ. rewrite (Pos2Z.inj_xO (Pos.iter xO m d)), IH.
    rewrite Pos2Z.inj_succ, Z.pow_succ_r by lia. lia.
Qed.

Lemma digits2_shift (m m' : positive) (k : Z) :
  0 <= k -> Zpos m' = Zpos m * 2 ^ k ->
  Zpos (digits2_pos m') = Zpos (digits2_pos m) + k.
Proof.
  intros Hk Hm'. apply digits2_unique. rewrite Hm'.
  pose proof (digits2_bounds m) as [Hlo Hhi].
  assert (0 < 2 ^ k) by (apply Z.pow_pos_nonneg; lia).
  replace (Zpos (digits2_pos m) + k - 1) with (Zpos (digits2_pos m) - 1 + k) by lia.
  rewrite !Z.pow_add_r by lia. split; nia.
Qed.

Lemma digits2_range (n : positive) (k : Z) :
  Zpos n < 2 ^ k -> 1 <= Zpos (digits2_pos n) <= k.
Proof.
  intros Hn. split; [lia|].
  pose proof (digits2_bounds n) as [Hlo _].
  destruct (Z_lt_le_dec k (Zpos (digits2_pos n))) as [Hlt|]; [|assumption].
  assert (2 ^ k <= 2 ^ (Zpos (digits2_pos n) - 1)) by (apply Z.pow_le_mono_r; lia).
  lia.
Qed.

Hypothesis Hemax : prec < emax.

Lemma binary_round_normal (s : bool) (n : positive) :
  Zpos (digits2_pos n) + 1 <= emax ->
  IEEE.normal prec s (Zpos (digits2_pos n)) (Zpos (digits2_pos n) + 1)
         (binary_round prec emax s n 0).
Proof.
  intros Hmax. unfold binary_round, shl_align, fexp.
  set (d := Zpos (digits2_pos n)) in *.
  assert (Hemin : emin prec emax <= d - prec) by (unfold emin; lia).
  rewrite Z.add_0_r, Z.max_l by lia.
  destruct (d - prec - 0) as [|k|k] eqn:Ek.
  - destruct (binary_round_aux_normal s (Zpos n) 0 loc_Exact) as (m & e & Hx & Hd & He);
      cbn [Zdigits2]; fold d; try lia.
    exists m, e. cbn [Zdigits2] in He. fold d in He. repeat split; try assumption; lia.
  - destruct (binary_round_aux_normal s (Zpos n) 0 loc_Exact) as (m & e & Hx & Hd & He);
      cbn [Zdigits2]; fold d; try lia.
    exists m, e. cbn [Zdigits2] in He. fold d in He. repeat split; try assumption; lia.
  - pose proof (iter_xO n k) as Hshift.
    pose proof (digits2_shift n (Pos.iter xO n k) (Zpos k) ltac:(lia) Hshift) as Hdig.
    fold d in Hdig.
    destruct (binary_round_aux_normal s (Zpos (Pos.iter xO n k)) (d - prec) loc_Exact)
      as (m & e & Hx & Hd & He); cbn [Zdigits2]; rewrite ?Hdig; try lia.
    exists m, e. cbn [Zdigits2] in He. rewrite Hdig in He.
    repeat split; try assumption; lia.
Qed.

Lemma of_Z_normal (n : Z) (k : Z) :
  n <> 0 -> Z.abs n < 2 ^ k -> k + 1 <= emax ->
  IEEE.normal prec (n <? 0) 1 (k + 1) (binary_normalize prec emax n 0 false).
Proof.
  intros Hn Hk Hmax.
  destruct n as [|p|p]; [congruence| |]; cbn [binary_normalize Z.ltb Z.compare Z.abs] in *.
  - pose proof (digits2_range p k Hk).
    apply normal_weaken with (lo := Zpos (digits2_pos p)) (hi := Zpos (digits2_pos p) + 1);
      [apply binary_round_normal|..]; lia.
  - pose proof (digits2_range p k Hk).
    apply normal_weaken with (lo := Zpos (digits2_pos p)) (hi := Zpos (digits2_pos p) + 1);
      [apply binary_round_normal|..]; lia.
Qed.

Lemma digits2_mul (mx my : positive) :
  Zpos (digits2_pos mx) + Zpos (digits2_pos my) - 1
  <= Zpos (digits2_pos (mx * my))
  <= Zpos (digits2_pos mx) + Zpos (digits2_pos my).
Proof.
  pose proof (digits2_bounds mx) as [Hxl Hxh].
  pose proof (digits2_bounds my) as [Hyl Hyh].
  pose proof (digits2_bounds (mx * my)) as [Hl Hh].
  rewrite Pos2Z.inj_mul in Hl, Hh.
  set (dx := Zpos (digits2_pos mx)) in *. set (dy := Zpos (digits2_pos my)) in *.
  set (d := Zpos (digits2_pos (mx * my))) in *.
  assert (Hdx : 1 <= dx) by (unfold dx; lia).
  assert (Hdy : 1 <= dy) by (unfold dy; lia).
  assert (Hd : 1 <= d) by (unfold d; lia).
  assert (Hlow : 2 ^ (dx - 1 + (dy - 1)) <= Zpos mx * Zpos my).
  { rewrite Z.pow_add_r by lia.
    assert (0 < 2 ^ (dx - 1)) by (apply Z.pow_pos_nonneg; lia).
    assert (0 < 2 ^ (dy - 1)) by (apply Z.pow_pos_nonneg; lia). nia. }
  assert (Hhigh : Zpos mx * Zpos my < 2 ^ (dx + dy)).
  { rewrite Z.pow_add_r by lia. nia. }
  split.
  - destruct (Z_lt_le_dec d (dx + dy - 1)) as [Hlt|]; [|assumption].
    assert (2 ^ d <= 2 ^ (dx - 1 + (dy - 1))) by (apply Z.pow_le_mono_r; lia). lia.
  - destruct (Z_lt_le_dec (dx + dy) d) as [Hlt|]; [|assumption].
    assert (2 ^ (dx + dy) <= 2 ^ (d - 1)) by (apply Z.pow_le_mono_r; lia). lia.
Qed.

Lemma SFmul_normal (sx sy : bool) (lox hix loy hiy : Z) (x y : spec_float) :
  IEEE.normal prec sx lox hix x -> IEEE.normal prec sy loy hiy y ->
  1 <= prec ->
  emin prec emax <= lox + loy - 1 - prec -> hix + hiy + 1 <= emax ->
  IEEE.normal prec (xorb sx sy) (lox + loy - 1) (hix + hiy + 1) (SFmul prec emax x y).
Proof.
  intros (mx & ex & -> & Hdx & Hex) (my & ey & -> & Hdy & Hey) Hp Hmin Hmax.
  cbn [SFmul].
  pose proof (digits2_mul mx my) as Hd. rewrite Hdx, Hdy in Hd.
  destruct (binary_round_aux_normal (xorb sx sy) (Zpos (mx * my)) (ex + ey) loc_Exact)
    as (m & e & Hx & Hdm & He); cbn [Zdigits2]; try lia.
  exists m, e. cbn [Zdigits2] in He. repeat split; try assumption; lia.
Qed.

Lemma div_quotient_digits (mx my : positive) :
  Zpos (digits2_pos mx) = prec -> Zpos (digits2_pos my) = prec ->
  2 ^ (prec - 1) <= Zpos mx * 2 ^ prec / Zpos my < 2 ^ (prec + 1).
Proof.
  intros Hdx Hdy.
  pose proof (digits2_bounds mx) as [Hxl Hxh]. rewrite Hdx in Hxl, Hxh.
  pose proof (digits2_bounds my) as [Hyl Hyh]. rewrite Hdy in Hyl, Hyh.
  assert (Hpp : 0 < 2 ^ (prec - 1)) by (apply Z.pow_pos_nonneg; lia).
  assert (Hp2 : 2 ^ prec = 2 * 2 ^ (prec - 1)).
  { replace prec with (1 + (prec - 1)) at 1 by lia. rewrite Z.pow_add_r by lia. lia. }
  assert (Hp3 : 2 ^ (prec + 1) = 2 * 2 ^ prec).
  { replace (prec + 1) with (1 + prec) by lia. rewrite Z.pow_add_r by lia. lia. }
  split.
  - apply Z.div_le_lower_bound; [lia|]. nia.
  - apply Z.div_lt_upper_bound; [lia|]. nia.
Qed.

Lemma SFdiv_normal (sx sy : bool) (lox hix loy hiy : Z) (x y : spec_float) :
  IEEE.normal prec sx lox hix x -> IEEE.normal prec sy loy hiy y ->
  emin prec emax <= lox - hiy - prec -> hix - loy + 2 <= emax ->
  IEEE.normal prec (xorb sx sy) (lox - hiy) (hix - loy + 2) (SFdiv prec emax x y).
Proof.
  intros (mx & ex & -> & Hdx & Hex) (my & ey & -> & Hdy & Hey) Hmin Hmax.
  cbn [SFdiv]. unfold SFdiv_core_binary, fexp. cbn [Zdigits2].
  rewrite Hdx, Hdy.
  replace (prec + ex - (prec + ey)) with (ex - ey) by lia.
  rewrite Z.max_l by lia. rewrite Z.min_l by lia.
  replace (ex - ey - (ex - ey - prec)) with prec by lia.
  assert (Hshift : match prec with
                   | Z0 => Zpos mx
                   | Zpos _ => Z.shiftl (Zpos mx) prec
                   | Zneg _ => 0
                   end = Zpos mx * 2 ^ prec).
  { generalize Hprec. clear. intros Hp.
    destruct prec; try lia. apply Z.shiftl_mul_pow2. lia. }
  rewrite Hshift.
  pose proof (div_quotient_digits mx my Hdx Hdy) as [Hql Hqh].
  pose proof (Z.pow_pos_nonneg 2 (prec - 1) ltac:(lia) ltac:(lia)) as Hpp.
  unfold Z.div in Hql, Hqh.
  destruct (Z.div_eucl (Zpos mx * 2 ^ prec) (Zpos my)) as [q r]. cbn [fst] in Hql, Hqh.
  destruct q as [|pq|pq]; try lia.
  assert (Hdq : prec <= Zpos (digits2_pos pq) <= prec + 1).
  { pose proof (digits2_bounds pq) as [Hl Hh]. split.
    - destruct (Z_lt_le_dec (Zpos (digits2_pos pq)) prec) as [Hlt|]; [|assumption].
      assert (2 ^ Zpos (digits2_pos pq) <= 2 ^ (prec - 1)) by (apply Z.pow_le_mono_r; lia).
      lia.
    - destruct (Z_lt_le_dec (prec + 1) (Zpos (digits2_pos pq))) as [Hlt|]; [|assumption].
      assert (2 ^ (prec + 1) <= 2 ^ (Zpos (digits2_pos pq) - 1))
        by (apply Z.pow_le_mono_r; lia).
      lia. }
  destruct (binary_round_aux_normal (xorb sx sy) (Zpos pq) (ex - ey - prec)
                                    (new_location (Zpos my) r))
    as (m & e & Hx & Hdm & He); cbn [Zdigits2]; try lia.
  exists m, e. cbn [Zdigits2] in He. repeat split; try assumption; lia.
Qed.

(** *** Exact results *)

(** A mantissa of [prec] digits is kept as it is. *)
Lemma binary_round_aux_exact (s : bool) (m : positive) (e : Z) :
  Zpos (digits2_pos m) = prec ->
  emin prec emax <= e <= emax - prec ->
  binary_round_aux prec emax s (Zpos m) e loc_Exact = S754_finite s m e.
Proof.
  intros Hd He. unfold binary_round_aux, shr_fexp, fexp. cbn [Zdigits2].
  rewrite Hd. replace (prec + e - prec) with e by lia.
  rewrite Z.max_l by lia. rewrite Z.sub_diag.
  cbn [shr shr_record_of_loc shr_m loc_of_shr_record round_nearest_even Zdigits2].
  rewrite Hd. replace (prec + e - prec) with e by lia.
  rewrite Z.max_l by lia. rewrite Z.sub_diag.
  cbn [shr shr_record_of_loc shr_m].
  replace (e <=? emax - prec) with true by (symmetry; apply Z.leb_le; lia).
  reflexivity.
Qed.

(** Trailing zeros beyond [prec] digits are dropped without rounding. *)
Lemma binary_round_aux_exact_shift (s : bool) (m : positive) (mx ex n : Z) :
  Zpos (digits2_pos m) = prec -> 0 <= n -> mx = Zpos m * 2 ^ n ->
  emin prec emax <= ex + n <= emax - prec ->
  binary_round_aux prec emax s mx ex loc_Exact = S754_finite s m (ex + n).
Proof.
  intros Hd Hn Hmx He.
  destruct n as [|p|p]; try lia.
  - rewrite Z.mul_1_r in Hmx. rewrite Z.add_0_r in *. subst mx.
    apply binary_round_aux_exact; assumption.
  - assert (Hpos : 0 < 2 ^ Zpos p) by (apply Z.pow_pos_nonneg; lia).
    destruct mx as [|px|px]; try lia.
    pose proof (digits2_shift m px (Zpos p) ltac:(lia) Hmx) as Hdx. rewrite Hd in Hdx.
    unfold binary_round_aux, shr_fexp, fexp. cbn [Zdigits2].
    rewrite Hdx. replace (prec + Zpos p + ex - prec) with (ex + Zpos p) by lia.
    rewrite Z.max_l by lia.
    replace (ex + Zpos p - ex) with (Zpos p) by lia.
    cbn [shr shr_record_of_loc]. rewrite Hmx, iter_shr_exact by lia.
    cbn [shr_m loc_of_shr_record round_nearest_even Zdigits2].
    rewrite Hd. replace (prec + (ex + Zpos p) - prec) with (ex + Zpos p) by lia.
    rewrite Z.max_l by lia. rewrite Z.sub_diag.
    cbn [shr shr_record_of_loc shr_m].
    replace (ex + Zpos p <=? emax - prec) with true by (symmetry; apply Z.leb_le; lia).
    reflexivity.
Qed.

(** The conversion of an integer of at most [prec] digits is exact. *)
Lemma binary_round_exact (s : bool) (n : positive) :
  Zpos (digits2_pos n) <= prec ->
  exists m,
    binary_round prec emax s n 0 = S754_finite s m (Zpos (digits2_pos n) - prec)
    /\ Zpos (digits2_pos m) = prec
    /\ Zpos m = Zpos n * 2 ^ (prec - Zpos (digits2_pos n)).
Proof.
  intros Hd. unfold binary_round, shl_align, fexp.
  set (d := Zpos (digits2_pos n)) in *.
  assert (Hd1 : 1 <= d) by (unfold d; lia).
  assert (Hemin : emin prec emax <= d - prec) by (unfold emin; lia).
  rewrite Z.add_0_r, Z.max_l by lia.
  destruct (d - prec - 0) as [|k|k] eqn:Ek; try lia.
  - exists n. assert (d = prec) by lia.
    replace (d - prec) with 0 by lia. replace (prec - d) with 0 by lia.
    rewrite Z.mul_1_r. repeat split; [|assumption].
    apply binary_round_aux_exact; [assumption|lia].
  - exists (Pos.iter xO n k).
    pose proof (iter_xO n k) as Hshift.
    pose proof (digits2_shift n (Pos.iter xO n k) (Zpos k) ltac:(lia) Hshift) as Hdig.
    fold d in Hdig.
    replace (prec - d) with (Zpos k) by lia.
    repeat split; [|lia|assumption].
    apply binary_round_aux_exact; lia.
Qed.

(** The product of two converted integers is the conversion of their
    product, as long as that has at most [prec] digits. *)
Lemma mul_of_Z_exact (a b : positive) :
  Zpos a * Zpos b < 2 ^ prec ->
  SFmul prec emax (binary_round prec emax false a 0) (binary_round prec emax false b 0)
  = binary_round prec emax false (a * b) 0.
Proof.
  intros Hab.
  assert (Hpow : 0 < 2 ^ prec) by (apply Z.pow_pos_nonneg; lia).
  assert (Ha : Zpos a < 2 ^ prec) by nia.
  assert (Hb : Zpos b < 2 ^ prec) by nia.
  pose proof (digits2_range a prec Ha) as Hda.
  pose proof (digits2_range b prec Hb) as Hdb.
  rewrite <- Pos2Z.inj_mul in Hab.
  pose proof (digits2_range (a * b) prec Hab) as Hdab.
  pose proof (digits2_mul a b) as Hmul.
  destruct (binary_round_exact false a ltac:(lia)) as (ma & -> & Hma & Hva).
  destruct (binary_round_exact false b ltac:(lia)) as (mb & -> & Hmb & Hvb).
  destruct (binary_round_exact false (a * b) ltac:(lia)) as (mab & -> & Hmab & Hvab).
  set (da := Zpos (digits2_pos a)) in *. set (db := Zpos (digits2_pos b)) in *.
  set (dab := Zpos (digits2_pos (a * b))) in *.
  cbn [SFmul xorb].
  rewrite (binary_round_aux_exact_shift false mab (Zpos (ma * mb)) (da - prec + (db - prec))
             (prec - da - db + dab)); try assumption; try lia.
  - f_equal. lia.
  - rewrite Pos2Z.inj_mul, Hva, Hvb, Hvab, Pos2Z.inj_mul.
    replace (prec - da) with (prec - da - db + dab + (db - dab)) at 1.
    2: lia.
    assert (E : 2 ^ (prec - da) * 2 ^ (prec - db)
                = 2 ^ (prec - dab) * 2 ^ (prec - da - db + dab)).
    { rewrite <- !Z.pow_add_r by lia. f_equal. lia. }
    replace (prec - da - db + dab + (db - dab)) with (prec - da) by lia.
    nia.
  - unfold emin. lia.
Qed.


(** *** Rounding a quotient *)

(** The second half of [binary_round_aux]: once the mantissa has [prec]
    digits, rounding keeps it or carries into the next binade. *)
Lemma binary_round_aux_steps (s : bool) (mx ex : Z) (lx : location)
      (mrs' : shr_record) (e' : Z) :
  shr_fexp prec emax mx ex lx = (mrs', e') ->
  2 ^ (prec - 1) <= shr_m mrs' < 2 ^ prec ->
  emin prec emax <= e' -> e' + 1 <= emax - prec ->
  exists m c,
    binary_round_aux prec emax s mx ex lx = S754_finite s m (e' + c)
    /\ Zpos (digits2_pos m) = prec
    /\ ((c = 0 /\ Zpos m = round_nearest_even (shr_m mrs') (loc_of_shr_record mrs'))
        \/ (c = 1
            /\ 2 * Zpos m = round_nearest_even (shr_m mrs') (loc_of_shr_record mrs'))).
Proof.
  intros Hfirst [Hqlo Hqhi] Hmin Hmax.
  unfold binary_round_aux. rewrite Hfirst.
  pose proof (round_nearest_even_bounds (shr_m mrs') (loc_of_shr_record mrs')) as Hm1.
  set (m1 := round_nearest_even (shr_m mrs') (loc_of_shr_record mrs')) in *.
  assert (Hpp : 0 < 2 ^ (prec - 1)) by (apply Z.pow_pos_nonneg; lia).
  assert (Hp2 : 2 ^ prec = 2 * 2 ^ (prec - 1)).
  { replace prec with (1 + (prec - 1)) at 1 by lia. rewrite Z.pow_add_r by lia. lia. }
  destruct m1 as [|p1|p1] eqn:Em1; try lia.
  destruct (Z_lt_le_dec (Zpos p1) (2 ^ prec)) as [Hlt|Hge].
  - assert (Hd1 : Zpos (digits2_pos p1) = prec) by (apply digits2_unique; lia).
    pose proof (shr_fexp_spec (Zpos p1) e' loc_Exact ltac:(lia)) as H2.
    cbn [Zdigits2] in H2. rewrite Hd1 in H2.
    destruct (H2 ltac:(lia) ltac:(lia)) as [Hm2 He2].
    destruct (shr_fexp prec emax (Zpos p1) e' loc_Exact) as [mrs'' e''].
    cbn [fst snd] in Hm2, He2.
    replace (prec - prec) with 0 in Hm2, He2 by lia. rewrite Z.div_1_r in Hm2.
    rewrite Hm2.
    replace (e'' <=? emax - prec) with true by (symmetry; apply Z.leb_le; lia).
    exists p1, 0. rewrite He2. repeat split; try assumption. left. split; reflexivity.
  - assert (Heq : Zpos p1 = 2 ^ prec) by lia.
    assert (Hd1 : Zpos (digits2_pos p1) = prec + 1).
    { apply digits2_unique. replace (prec + 1 - 1) with prec by lia.
      rewrite Heq. replace (prec + 1) with (1 + prec) by lia.
      rewrite (Z.pow_add_r 2 1 prec) by lia. lia. }
    pose proof (shr_fexp_spec (Zpos p1) e' loc_Exact ltac:(lia)) as H2.
    cbn [Zdigits2] in H2. rewrite Hd1 in H2.
    destruct (H2 ltac:(lia) ltac:(lia)) as [Hm2 He2].
    destruct (shr_fexp prec emax (Zpos p1) e' loc_Exact) as [mrs'' e''].
    cbn [fst snd] in Hm2, He2.
    replace (prec + 1 - prec) with 1 in Hm2, He2 by lia.
    assert (Hhalf : 2 ^ prec / 2 = 2 ^ (prec - 1)).
    { rewrite Hp2. rewrite (Z.mul_comm 2 (2 ^ (prec - 1))). apply Z.div_mul. lia. }
    change (2 ^ 1) with 2 in Hm2. rewrite Heq, Hhalf in Hm2.
    rewrite Hm2.
    destruct (2 ^ (prec - 1)) as [|p2|p2] eqn:E2; try lia.
    replace (e'' <=? emax - prec) with true by (symmetry; apply Z.leb_le; lia).
    exists p2, 1. rewrite He2. repeat split.
    + apply digits2_unique. rewrite E2, Hp2. lia.
    + right. split; [reflexivity|]. lia.
Qed.

Lemma new_location_cases (b r : Z) :
  (r = 0 /\ new_location b r = loc_Exact)
  \/ (r <> 0 /\ exists c, new_location b r = loc_Inexact c).
Proof.
  unfold new_location, new_location_even, new_location_odd.
  destruct (Z.even b); cbv beta; destruct (r =? 0) eqn:E.
  - apply Z.eqb_eq in E. left. split; [assumption|reflexivity].
  - apply Z.eqb_neq in E. right. split; [assumption|]. eexists; reflexivity.
  - apply Z.eqb_eq in E. left. split; [assumption|reflexivity].
  - apply Z.eqb_neq in E. right. split; [assumption|]. eexists; reflexivity.
Qed.

(** Rounding the quotient [q + r/b] where it stands. *)
Lemma round_at_new_location (q b r : Z) :
  0 < b -> 0 <= r < b ->
  2 * Z.abs (round_nearest_even q (new_location b r) * b - (q * b + r)) <= b.
Proof.
  intros Hb Hr.
  unfold new_location, new_location_even, new_location_odd.
  destruct (Z.even b); cbv beta; destruct (r =? 0) eqn:E;
    try (apply Z.eqb_eq in E; subst r; cbn [round_nearest_even]; lia);
    apply Z.eqb_neq in E.
  - destruct (Z.compare_spec (2 * r) b) as [H|H|H]; cbn [round_nearest_even];
      try destruct (Z.even q); lia.
  - destruct (Z.compare_spec (2 * r + 1) b) as [H|H|H]; cbn [round_nearest_even];
      try destruct (Z.even q); lia.
Qed.

(** Rounding the quotient [q + r/b] after its last digit was shifted out. *)
Lemma round_after_shift (q : positive) (b r : Z) :
  0 < b -> 0 <= r < b ->
  let rec := shr_1 (shr_record_of_loc (Zpos q) (new_location b r)) in
  2 * Z.abs (round_nearest_even (shr_m rec) (loc_of_shr_record rec) * 2 * b
             - (Zpos q * b + r)) <= 2 * b.
Proof.
  intros Hb Hr. cbv zeta.
  destruct (new_location_cases b r) as [[-> ->]|[Hnz [c ->]]].
  - destruct q as [p|p|];
      cbn [shr_record_of_loc shr_1 shr_m loc_of_shr_record orb round_nearest_even];
      rewrite ?(Pos2Z.inj_xI p), ?(Pos2Z.inj_xO p);
      try change (Z.even 0) with true; cbv iota;
      try destruct (Z.even (Zpos p)); lia.
  - destruct q as [p|p|]; destruct c;
      cbn [shr_record_of_loc shr_1 shr_m loc_of_shr_record orb round_nearest_even];
      rewrite ?(Pos2Z.inj_xI p), ?(Pos2Z.inj_xO p);
      try change (Z.even 0) with true; cbv iota;
      try destruct (Z.even (Zpos p)); lia.
Qed.

Lemma shr_fexp_0 (m : positive) (e : Z) (l : location) :
  Zpos (digits2_pos m) = prec -> emin prec emax <= e ->
  shr_fexp prec emax (Zpos m) e l = (shr_record_of_loc (Zpos m) l, e).
Proof.
  intros Hd He. unfold shr_fexp, fexp. cbn [Zdigits2]. rewrite Hd.
  replace (prec + e - prec) with e by lia.
  rewrite Z.max_l by lia. rewrite Z.sub_diag. reflexivity.
Qed.

Lemma shr_fexp_1 (m : positive) (e : Z) (l : location) :
  Zpos (digits2_pos m) = prec + 1 -> emin prec emax <= e + 1 ->
  shr_fexp prec emax (Zpos m) e l = (shr_1 (shr_record_of_loc (Zpos m) l), e + 1).
Proof.
  intros Hd He. unfold shr_fexp, fexp. cbn [Zdigits2]. rewrite Hd.
  replace (prec + 1 + e - prec) with (e + 1) by lia.
  rewrite Z.max_l by lia. replace (e + 1 - e) with 1 by lia. reflexivity.
Qed.

(** [binary_round_aux] on a quotient [q + r/b] of [prec] or [prec + 1]
    digits delivers a mantissa within half a unit of it. *)
Lemma binary_round_aux_nearest (s : bool) (q : positive) (e' b r : Z) :
  prec <= Zpos (digits2_pos q) <= prec + 1 ->
  0 < b -> 0 <= r < b ->
  emin prec emax <= e' -> e' + 2 <= emax - prec ->
  exists m k,
    binary_round_aux prec emax s (Zpos q) e' (new_location b r) = S754_finite s m (e' + k)
    /\ Zpos (digits2_pos m) = prec
    /\ 0 <= k <= 2
    /\ 2 * Z.abs (Zpos m * 2 ^ k * b - (Zpos q * b + r)) <= 2 ^ k * b.
Proof.
  intros Hd Hb Hr Hmin Hmax.
  pose proof (digits2_bounds q) as Hq.
  assert (Hpp : 0 < 2 ^ (prec - 1)) by (apply Z.pow_pos_nonneg; lia).
  assert (Hp2 : 2 ^ prec = 2 * 2 ^ (prec - 1)).
  { replace prec with (1 + (prec - 1)) at 1 by lia. rewrite Z.pow_add_r by lia. lia. }
  destruct (Z.eq_dec (Zpos (digits2_pos q)) prec) as [Hd0|Hd1].
  - rewrite Hd0 in Hq.
    pose proof (round_at_new_location (Zpos q) b r Hb Hr) as Hnear.
    destruct (binary_round_aux_steps s (Zpos q) e' (new_location b r)
                (shr_record_of_loc (Zpos q) (new_location b r)) e')
      as (m & c & Hrun & Hdm & Hc);
      [apply shr_fexp_0; assumption|rewrite shr_m_of_loc; lia|lia|lia|].
    rewrite shr_m_of_loc, loc_of_record_of_loc in Hc.
    exists m, c. split; [assumption|]. split; [assumption|].
    destruct Hc as [[-> Hm]|[-> Hm]].
    + change (2 ^ 0) with 1. rewrite Hm. split; lia.
    + change (2 ^ 1) with 2. split; [lia|].
      replace (Zpos m * 2 * b) with (2 * Zpos m * b) by lia. rewrite Hm. lia.
  - assert (Hd' : Zpos (digits2_pos q) = prec + 1) by lia.
    rewrite Hd' in Hq. replace (prec + 1 - 1) with prec in Hq by lia.
    assert (Hp3 : 2 ^ (prec + 1) = 2 * 2 ^ prec).
    { replace (prec + 1) with (1 + prec) by lia. rewrite Z.pow_add_r by lia. lia. }
    pose proof (round_after_shift q b r Hb Hr) as Hnear. cbv zeta in Hnear.
    set (rec := shr_1 (shr_record_of_loc (Zpos q) (new_location b r))) in *.
    assert (Hrec : shr_m rec = Zpos q / 2).
    { unfold rec. rewrite shr_1_m; rewrite shr_m_of_loc; lia. }
    assert (Hrange : 2 ^ (prec - 1) <= shr_m rec < 2 ^ prec).
    { rewrite Hrec. split.
      - apply Z.div_le_lower_bound; lia.
      - apply Z.div_lt_upper_bound; lia. }
    destruct (binary_round_aux_steps s (Zpos q) e' (new_location b r) rec (e' + 1))
      as (m & c & Hrun & Hdm & Hc);
      [apply shr_fexp_1; [assumption|lia]|assumption|lia|lia|].
    exists m, (1 + c). split; [rewrite Hrun; f_equal; lia|]. split; [assumption|].
    destruct Hc as [[-> Hm]|[-> Hm]].
    + change (2 ^ (1 + 0)) with 2. rewrite <- Hm in Hnear. split; lia.
    + change (2 ^ (1 + 1)) with 4. split; [lia|].
      replace (Zpos m * 4 * b) with (2 * Zpos m * 2 * b) by lia. rewrite Hm. lia.
Qed.

(** The quotient of two numbers with full mantissas is correctly rounded. *)
Lemma SFdiv_nearest (sx sy : bool) (mx my : positive) (ex ey : Z) :
  Zpos (digits2_pos mx) = prec -> Zpos (digits2_pos my) = prec ->
  emin prec emax <= ex - ey - prec -> ex - ey + 2 <= emax - prec ->
  exists m k,
    SFdiv prec emax (S754_finite sx mx ex) (S754_finite sy my ey)
    = S754_finite (xorb sx sy) m (ex - ey - prec + k)
    /\ Zpos (digits2_pos m) = prec
    /\ 0 <= k <= 2
    /\ 2 * Z.abs (Zpos m * 2 ^ k * Zpos my - Zpos mx * 2 ^ prec) <= 2 ^ k * Zpos my.
Proof.
  intros Hdx Hdy Hmin Hmax.
  cbn [SFdiv]. unfold SFdiv_core_binary, fexp. cbn [Zdigits2].
  rewrite Hdx, Hdy.
  replace (prec + ex - (prec + ey)) with (ex - ey) by lia.
  rewrite Z.max_l by lia. rewrite Z.min_l by lia.
  replace (ex - ey - (ex - ey - prec)) with prec by lia.
  assert (Hshift : match prec with
                   | Z0 => Zpos mx
                   | Zpos _ => Z.shiftl (Zpos mx) prec
                   | Zneg _ => 0
                   end = Zpos mx * 2 ^ prec).
  { generalize Hprec. clear. intros Hp.
    destruct prec; try lia. apply Z.shiftl_mul_pow2. lia. }
  rewrite Hshift.
  pose proof (div_quotient_digits mx my Hdx Hdy) as [Hql Hqh].
  pose proof (Z.pow_pos_nonneg 2 (prec - 1) ltac:(lia) ltac:(lia)) as Hpp.
  pose proof (Z_div_mod (Zpos mx * 2 ^ prec) (Zpos my) ltac:(lia)) as Hdm.
  unfold Z.div in Hql, Hqh.
  destruct (Z.div_eucl (Zpos mx * 2 ^ prec) (Zpos my)) as [q r]. cbn [fst] in Hql, Hqh.
  destruct Hdm as [Heq Hr].
  destruct q as [|pq|pq]; try lia.
  assert (Hdq : prec <= Zpos (digits2_pos pq) <= prec + 1).
  { pose proof (digits2_bounds pq) as [Hl Hh]. split.
    - destruct (Z_lt_le_dec (Zpos (digits2_pos pq)) prec) as [Hlt|]; [|assumption].
      assert (2 ^ Zpos (digits2_pos pq) <= 2 ^ (prec - 1)) by (apply Z.pow_le_mono_r; lia).
      lia.
    - destruct (Z_lt_le_dec (prec + 1) (Zpos (digits2_pos pq))) as [Hlt|]; [|assumption].
      assert (2 ^ (prec + 1) <= 2 ^ (Zpos (digits2_pos pq) - 1))
        by (apply Z.pow_le_mono_r; lia).
      lia. }
  destruct (binary_round_aux_nearest (xorb sx sy) pq (ex - ey - prec) (Zpos my) r)
    as (m & k & Hrun & Hdm & Hk & Hnear); try lia.
  exists m, k. split; [assumption|]. split; [assumption|]. split; [assumption|].
  rewrite Heq. replace (Zpos my * Zpos pq + r) with (Zpos pq * Zpos my + r) by lia.
  exact Hnear.
Qed.

Lemma scale_cancel (x y j : Z) :
  0 < j -> 2 * Z.abs (x * j) <= y * j -> 2 * Z.abs x <= y.
Proof.
  intros Hj H. rewrite Z.abs_mul, (Z.abs_eq j) in H by lia. nia.
Qed.

(** The quotient of two converted integers of at most [prec] digits is the
    number nearest to their ratio. *)
Lemma div_of_Z_nearest (a b : positive) :
  Zpos a < 2 ^ prec -> Zpos b < 2 ^ prec -> 2 * prec + 1 <= emax ->
  IEEE.nearest_to_quotient prec
    (SFdiv prec emax (binary_round prec emax false a 0) (binary_round prec emax false b 0))
    (Zpos a) (Zpos b).
Proof.
  intros Ha Hb Hbig.
  pose proof (digits2_range a prec Ha) as Hda.
  pose proof (digits2_range b prec Hb) as Hdb.
  destruct (binary_round_exact false a ltac:(lia)) as (ma & -> & Hma & Hva).
  destruct (binary_round_exact false b ltac:(lia)) as (mb & -> & Hmb & Hvb).
  set (da := Zpos (digits2_pos a)) in *. set (db := Zpos (digits2_pos b)) in *.
  destruct (SFdiv_nearest false false ma mb (da - prec) (db - prec) Hma Hmb)
    as (m & k & Hrun & Hdm & Hk & Hnear); try (unfold emin; lia).
  exists m, (da - prec - (db - prec) - prec + k).
  split; [exact Hrun|]. split; [exact Hdm|].
  set (e := da - prec - (db - prec) - prec + k).
  set (j := k + (prec - db) - Z.max e 0).
  assert (Hj : 0 <= j) by (unfold j, e; lia).
  assert (Hs : k + (prec - db) = Z.max e 0 + j) by (unfold j; lia).
  assert (Ht : prec - da + prec = Z.max (- e) 0 + j) by (unfold j, e; lia).
  assert (Hpj : 0 < 2 ^ j) by (apply Z.pow_pos_nonneg; lia).
  apply scale_cancel with (j := 2 ^ j); [assumption|].
  rewrite Hva, Hvb in Hnear.
  replace ((Zpos m * 2 ^ Z.max e 0 * Zpos b - Zpos a * 2 ^ Z.max (- e) 0) * 2 ^ j)
    with (Zpos m * 2 ^ k * (Zpos b * 2 ^ (prec - db))
          - Zpos a * 2 ^ (prec - da) * 2 ^ prec).
  - replace (2 ^ Z.max e 0 * Zpos b * 2 ^ j) with (2 ^ k * (Zpos b * 2 ^ (prec - db))).
    + exact Hnear.
    + replace (2 ^ k * (Zpos b * 2 ^ (prec - db)))
        with (2 ^ (k + (prec - db)) * Zpos b) by (rewrite Z.pow_add_r by lia; lia).
      rewrite Hs, Z.pow_add_r by lia. lia.
  - replace (Zpos m * 2 ^ k * (Zpos b * 2 ^ (prec - db)))
      with (Zpos m * 2 ^ (k + (prec - db)) * Zpos b) by (rewrite Z.pow_add_r by lia; lia).
    replace (Zpos a * 2 ^ (prec - da) * 2 ^ prec)
      with (Zpos a * 2 ^ (prec - da + prec)) by (rewrite Z.pow_add_r by lia; lia).
    rewrite Hs, Ht, !Z.pow_add_r by lia. lia.
Qed.


End Format.

End RoundingFacts.

(** ** Granularity *)

Module GranularityFacts.

(** The conversion of a non-zero [int] or [uint] to [float]. *)
Lemma of_Z_normal32 (n : Z) :
  n <> 0 -> Z.abs n < 2 ^ 32 -> IEEE.normal F32.prec (n <? 0) 1 33 (F32.of_Z n).
Proof.
  intros Hn Hk. unfold F32.of_Z, IEEE.of_Z.
  apply (RoundingFacts.of_Z_normal F32.prec F32.emax) with (k := 32);
    unfold F32.prec, F32.emax; try lia; assumption.
Qed.

Lemma positive_of_normal (lo hi : Z) (x : spec_float) :
  IEEE.normal F32.prec false lo hi x -> SFltb (S754_zero false) x = true.
Proof. intros (m & e & -> & _). reflexivity. Qed.

Lemma finite_of_normal (prec : Z) (s : bool) (lo hi : Z) (x : spec_float) :
  IEEE.normal prec s lo hi x -> IEEE.is_finite x = true.
Proof. intros (m & e & -> & _). reflexivity. Qed.

(** The dividend [(float) MAX_NOTES * m_nTupletDenominator]. *)
Lemma dividend_normal (nDen : Z) :
  0 < nDen <= CInt.INT_MAX ->
  IEEE.normal F32.prec false 1 67 (F32.mul (F32.of_Z MAX_NOTES) (F32.of_Z nDen)).
Proof.
  intros H. unfold CInt.INT_MAX in H. change (2 ^ 31) with 2147483648 in H.
  replace false with (xorb false false) by reflexivity.
  apply (RoundingFacts.SFmul_normal F32.prec F32.emax)
    with (sx := false) (sy := false) (lox := 1) (hix := 33) (loy := 1) (hiy := 33);
    unfold F32.prec, F32.emax; try lia.
  - apply (of_Z_normal32 MAX_NOTES); unfold MAX_NOTES; [lia|reflexivity].
  - replace false with (nDen <? 0) by (apply Z.ltb_ge; lia).
    apply of_Z_normal32; lia.
  - cbn. lia.
Qed.

(** [granularity()] is strictly positive on every grid whose three members
    are positive: a finite number, or plus infinity when the unsigned product
    [m_nTupletNumerator * m_nResolution] wraps to zero. *)
Lemma granularity_positive (ed : PatternEditor.t) :
  0 < PatternEditor.m_nResolution ed <= CInt.UINT_MAX ->
  0 < PatternEditor.m_nTupletNumerator ed <= CInt.INT_MAX ->
  0 < PatternEditor.m_nTupletDenominator ed <= CInt.INT_MAX ->
  SFltb (S754_zero false) (PatternEditor.granularity ed) = true.
Proof.
  intros Hr Hn Hd. unfold PatternEditor.granularity.
  pose proof (dividend_normal _ Hd) as Hx.
  set (u := CInt.umul (PatternEditor.m_nTupletNumerator ed) (PatternEditor.m_nResolution ed)).
  assert (Hu : 0 <= u < 2 ^ 32) by (apply Z.mod_pos_bound; reflexivity).
  destruct (Z.eq_dec u 0) as [->|Hnz].
  - destruct Hx as (m & e & -> & _). reflexivity.
  - apply (positive_of_normal (1 - 33) (67 - 1 + 2)).
    replace false with (xorb false false) by reflexivity.
    apply (RoundingFacts.SFdiv_normal F32.prec F32.emax)
      with (sx := false) (sy := false) (lox := 1) (hix := 67) (loy := 1) (hiy := 33);
      unfold F32.prec, F32.emax; try lia.
    + exact Hx.
    + replace false with (u <? 0) by (apply Z.ltb_ge; lia).
      apply of_Z_normal32; lia.
    + cbn. lia.
Qed.

(** The numerator the size display divides out,
    [( nPatternSize * nDen ) / (float) MAX_NOTES], is a finite number. *)
Lemma size_quotient_finite (n : Z) :
  CInt.is_int n ->
  IEEE.is_finite (F32.div (F32.of_Z n) (F32.of_Z MAX_NOTES)) = true.
Proof.
  intros Hn. unfold CInt.is_int, CInt.INT_MIN, CInt.INT_MAX in Hn.
  change (2 ^ 31) with 2147483648 in Hn.
  destruct (Z.eq_dec n 0) as [->|Hnz]; [reflexivity|].
  apply (finite_of_normal F32.prec (xorb (n <? 0) false) (1 - 33) (33 - 1 + 2)).
  apply (RoundingFacts.SFdiv_normal F32.prec F32.emax)
    with (lox := 1) (hix := 33) (loy := 1) (hiy := 33);
    unfold F32.prec, F32.emax; try lia.
  - apply of_Z_normal32; lia.
  - apply (of_Z_normal32 MAX_NOTES); unfold MAX_NOTES; [lia|reflexivity].
  - cbn. lia.
Qed.


(** While both products have at most 24 digits, [granularity()] is the
    [float] nearest to their ratio. *)
Lemma granularity_nearest (ed : PatternEditor.t) :
  0 < PatternEditor.m_nResolution ed ->
  0 < PatternEditor.m_nTupletNumerator ed ->
  0 < PatternEditor.m_nTupletDenominator ed ->
  MAX_NOTES * PatternEditor.m_nTupletDenominator ed < 2 ^ 24 ->
  PatternEditor.m_nTupletNumerator ed * PatternEditor.m_nResolution ed < 2 ^ 24 ->
  IEEE.nearest_to_quotient F32.prec (PatternEditor.granularity ed)
    (MAX_NOTES * PatternEditor.m_nTupletDenominator ed)
    (PatternEditor.m_nTupletNumerator ed * PatternEditor.m_nResolution ed).
Proof.
  destruct ed as [r n d]. cbn [PatternEditor.m_nResolution PatternEditor.m_nTupletNumerator
                                 PatternEditor.m_nTupletDenominator].
  intros Hr Hn Hd Ha Hb. unfold PatternEditor.granularity.
  cbn [PatternEditor.m_nResolution PatternEditor.m_nTupletNumerator
         PatternEditor.m_nTupletDenominator].
  change (2 ^ 24) with 16777216 in Ha, Hb.
  assert (Hu : CInt.umul n r = n * r).
  { unfold CInt.umul, CInt.to_uint. change (2 ^ 32) with 4294967296.
    rewrite (Z.mod_small n), (Z.mod_small r) by nia. apply Z.mod_small. nia. }
  rewrite Hu.
  destruct d as [|pd|pd]; try lia.
  destruct (n * r) as [|pb|pb] eqn:Eb; try nia.
  unfold F32.div, F32.mul, F32.of_Z, IEEE.div, IEEE.mul, IEEE.of_Z, MAX_NOTES in *.
  cbn [binary_normalize].
  rewrite (RoundingFacts.mul_of_Z_exact F32.prec F32.emax) by (unfold F32.prec, F32.emax; lia).
  change (192 * Zpos pd) with (Zpos (192 * pd)).
  apply (RoundingFacts.div_of_Z_nearest F32.prec F32.emax);
    unfold F32.prec, F32.emax; lia.
Qed.

End GranularityFacts.

(** C2: for every grid whose resolution, tuplet numerator and tuplet
    denominator are positive, [granularity()] returns the quotient
    192 * den / (num * res) taken in [float], not truncated to an integer,
    and the result is strictly positive.  As long as both products have at
    most 24 binary digits, which holds for every ratio and resolution the
    panel lets through, it is the [float] nearest to the exact ratio.  At
    resolution 16 with the tuplet off (1:1 or 4:4) it is exactly 12. *)
Theorem granularity_is_the_positive_quotient (ed : PatternEditor.t) :
  0 < PatternEditor.m_nResolution ed <= CInt.UINT_MAX ->
  0 < PatternEditor.m_nTupletNumerator ed <= CInt.INT_MAX ->
  0 < PatternEditor.m_nTupletDenominator ed <= CInt.INT_MAX ->
  PatternEditor.granularity ed
  = F32.div (F32.mul (F32.of_Z MAX_NOTES) (F32.of_Z (PatternEditor.m_nTupletDenominator ed)))
            (F32.of_Z (CInt.umul (PatternEditor.m_nTupletNumerator ed)
                                 (PatternEditor.m_nResolution ed)))
  /\ SFltb (S754_zero false) (PatternEditor.granularity ed) = true
  /\ (MAX_NOTES * PatternEditor.m_nTupletDenominator ed < 2 ^ 24 ->
      PatternEditor.m_nTupletNumerator ed * PatternEditor.m_nResolution ed < 2 ^ 24 ->
      IEEE.nearest_to_quotient F32.prec (PatternEditor.granularity ed)
        (MAX_NOTES * PatternEditor.m_nTupletDenominator ed)
        (PatternEditor.m_nTupletNumerator ed * PatternEditor.m_nResolution ed))
  /\ PatternEditor.granularity (PatternEditor.mk 16 1 1) = F32.of_Z 12
  /\ PatternEditor.granularity (PatternEditor.mk 16 4 4) = F32.of_Z 12.
Proof.
  intros Hr Hn Hd. split; [|split; [|split; [|split]]].
  - reflexivity.
  - apply GranularityFacts.granularity_positive; assumption.
  - intros Ha Hb. apply GranularityFacts.granularity_nearest; lia.
  - reflexivity.
  - reflexivity.
Qed.

Lemma granularity_is_the_positive_quotient_witness :
  SFltb (S754_zero false) (PatternEditor.granularity (PatternEditor.mk 4 5 4)) = true
  /\ IEEE.nearest_to_quotient F32.prec (PatternEditor.granularity (PatternEditor.mk 4 5 4))
       (MAX_NOTES * 4) (5 * 4).
Proof.
  destruct (granularity_is_the_positive_quotient (PatternEditor.mk 4 5 4))
    as (_ & Hpos & Hnear & _); cbn; try (unfold CInt.UINT_MAX, CInt.INT_MAX; lia).
  split; [exact Hpos|]. apply Hnear; reflexivity.
Defined.

(** ** Machine integers, cursor, grid and dialogs *)

Module CIntFacts.

Lemma wrap_small (z : Z) : CInt.is_int z -> CInt.wrap z = z.
Proof.
  unfold CInt.is_int, CInt.INT_MIN, CInt.INT_MAX, CInt.wrap.
  change (2 ^ 31) with 2147483648. change (2 ^ 32) with 4294967296.
  intros H. rewrite Z.mod_small by lia. lia.
Qed.

Lemma is_intb_spec (z : Z) : CInt.is_intb z = true <-> CInt.is_int z.
Proof.
  unfold CInt.is_intb, CInt.is_int.
  rewrite andb_true_iff, !Z.leb_le. reflexivity.
Qed.

End CIntFacts.

Module CursorFacts.

Import PatternEditorPanel.

Lemma with_cursor_same (i : Z) (p : t) : Outcome.same_but_cursor p (with_cursor i p).
Proof. destruct p; reflexivity. Qed.

(** The conversion to [int] of a non-negative number [m * 2^e] is its floor. *)
Lemma to_int_floor (m : positive) (e : Z) :
  e <= 0 -> Zpos m / 2 ^ (- e) <= CInt.INT_MAX ->
  IEEE.to_int (S754_finite false m e) = Zpos m / 2 ^ (- e).
Proof.
  intros He Hmax. unfold IEEE.to_int, cond_Zopp.
  assert (Hn : IEEE.trunc_magnitude m e = Zpos m / 2 ^ (- e)).
  { destruct e as [|k|k]; try lia; cbn [IEEE.trunc_magnitude Z.opp].
    - rewrite Z.shiftl_0_r, Z.div_1_r. reflexivity.
    - apply Z.shiftr_div_pow2. lia. }
  rewrite Hn.
  assert (Hpos : 0 <= Zpos m / 2 ^ (- e)).
  { apply Z.div_pos; [lia|]. apply Z.pow_pos_nonneg; lia. }
  replace (CInt.is_intb (Zpos m / 2 ^ (- e))) with true; [reflexivity|].
  symmetry. apply CIntFacts.is_intb_spec.
  unfold CInt.is_int, CInt.INT_MIN, CInt.INT_MAX in *.
  change (2 ^ 31) with 2147483648 in *. lia.
Qed.

(** The test of [moveCursorRight] as the code writes it. *)
Lemma moveCursorRight_test (p : t) :
  snd (moveCursorRight p) =
    if F64.ltb
         (F64.mul (F64.round (F64.of_Z (CInt.add (m_nCursorIndexPosition p) 1)))
                  (F64.of_float (granularity p)))
         (F64.of_Z (Pattern.get_length (m_pPattern p)))
    then CInt.add (m_nCursorIndexPosition p) 1
    else m_nCursorIndexPosition p.
Proof.
  unfold moveCursorRight.
  destruct (F64.ltb _ _); destruct p; reflexivity.
Qed.

(** [moveCursorLeft] stops at index 0. *)
Lemma moveCursorLeft_floor (p : t) :
  0 <= m_nCursorIndexPosition p <= CInt.INT_MAX ->
  snd (moveCursorLeft p) = Z.max 0 (m_nCursorIndexPosition p - 1).
Proof.
  intros H. unfold moveCursorLeft.
  destruct (0 <? m_nCursorIndexPosition p) eqn:E.
  - apply Z.ltb_lt in E. destruct p; cbn in *.
    unfold CInt.sub. rewrite CIntFacts.wrap_small; [lia|].
    unfold CInt.is_int, CInt.INT_MIN, CInt.INT_MAX in *.
    change (2 ^ 31) with 2147483648 in *. lia.
  - apply Z.ltb_ge in E. cbn. lia.
Qed.

End CursorFacts.

Import PatternEditorPanel.

(** C3 (the code departs from it): with resolution 4 and the tuplet 5:4 the
    granularity is 38.4 ticks.  On a pattern of 77 ticks with the cursor on
    grid index 1, the claimed rule keeps the index, since
    round((1 + 1) * 38.4) = 77 is not below 77; [moveCursorRight] moves to
    index 2, whose tick is the pattern length itself. *)
Theorem moveCursorRight_steps_past_the_end :
  let p := Sample.panel 4 5 4 77 192 1 in
  AsSpecified.moveRight p = 1
  /\ snd (moveCursorRight p) = 2
  /\ snd (moveCursorRight p) <> AsSpecified.moveRight p
  /\ getCursorPosition (fst (moveCursorRight p)) = Pattern.get_length (m_pPattern p).
Proof. vm_compute. repeat split; try reflexivity. discriminate. Qed.

(** C4 as stated fails where the tick of the index equals the pattern
    length: with granularity 38.4 and a pattern of 38 ticks, index 1 stands
    for tick 38, which does not exceed 38, so the claimed rule stores 1;
    [setCursorIndexPosition] stores floor(38 / 38.4) = 0. *)
Lemma setCursorIndexPosition_at_the_end_counterexample :
  let p := Sample.panel 4 5 4 38 5 0 in
  AsSpecified.setIndex 1 p = 1
  /\ m_nCursorIndexPosition (setCursorIndexPosition 1 p) = 0
  /\ m_nCursorIndexPosition (setCursorIndexPosition 1 p) <> AsSpecified.setIndex 1 p.
Proof. vm_compute. repeat split; try reflexivity. discriminate. Qed.

(** C4, amended: for every integer input g, [setCursorIndexPosition] stores
    0 when g is negative, stores floor(patternLength / granularity()) when
    the tick round(g * granularity()) of g reaches or exceeds patternLength,
    and stores g otherwise; no other member changes.  The stored quotient is
    the [float] quotient converted to [int], which is its floor. *)
Theorem setCursorIndexPosition_clamps (nGridIndex : Z) (p : t) :
  let p' := setCursorIndexPosition nGridIndex p in
  let nLength := Pattern.get_length (m_pPattern p) in
  (nGridIndex < 0 -> m_nCursorIndexPosition p' = 0)
  /\ (0 <= nGridIndex ->
      F64.leb (F64.of_Z nLength) (AsSpecified.tick_of_index nGridIndex p) = true ->
      m_nCursorIndexPosition p' =
        IEEE.to_int (F32.div (F32.of_Z nLength) (granularity p)))
  /\ (0 <= nGridIndex ->
      F64.leb (F64.of_Z nLength) (AsSpecified.tick_of_index nGridIndex p) = false ->
      m_nCursorIndexPosition p' = nGridIndex)
  /\ (forall m e,
         F32.div (F32.of_Z nLength) (granularity p) = S754_finite false m e ->
         e <= 0 -> Zpos m / 2 ^ (- e) <= CInt.INT_MAX ->
         IEEE.to_int (F32.div (F32.of_Z nLength) (granularity p)) = Zpos m / 2 ^ (- e))
  /\ Outcome.same_but_cursor p p'.
Proof.
  cbv zeta. unfold setCursorIndexPosition, AsSpecified.tick_of_index.
  assert (Hfloor : forall m e,
             F32.div (F32.of_Z (Pattern.get_length (m_pPattern p))) (granularity p)
             = S754_finite false m e ->
             e <= 0 -> Zpos m / 2 ^ (- e) <= CInt.INT_MAX ->
             IEEE.to_int (F32.div (F32.of_Z (Pattern.get_length (m_pPattern p)))
                                  (granularity p))
             = Zpos m / 2 ^ (- e)).
  { intros m e -> He Hmax. apply CursorFacts.to_int_floor; assumption. }
  destruct (nGridIndex <? 0) eqn:Eneg;
    [apply Z.ltb_lt in Eneg | apply Z.ltb_ge in Eneg;
     destruct (F64.leb _ _) eqn:Ecmp];
    (split; [|split; [|split; [|split]]]);
    try exact Hfloor;
    try (intros; (lia || discriminate));
    try apply CursorFacts.with_cursor_same;
    intros; destruct p; reflexivity.
Qed.

(** C10: [gridResolutionChanged] with a plain selection, index 0 to 4, sets
    the resolution of the panel and of each of the seven editors to
    2^(index + 2) and leaves every tuplet numerator and denominator as it
    was; with the "off" selection, index 11, it sets the resolution to 192
    and the tuplet ratio to (4,4) everywhere, whatever ratio was there. *)
Theorem gridResolutionChanged_plain_and_off (nSelected : Z) (p : t) :
  0 <= nSelected <= 4 ->
  let plain := gridResolutionChanged nSelected p in
  let off := gridResolutionChanged 11 p in
  Forall2 (Outcome.resolution_set (2 ^ (nSelected + 2)))
          (Editors.to_list (editors p)) (Editors.to_list (editors plain))
  /\ m_nResolution plain = 2 ^ (nSelected + 2)
  /\ m_nTupletNumerator plain = m_nTupletNumerator p
  /\ m_nTupletDenominator plain = m_nTupletDenominator p
  /\ Forall (fun ed => ed = PatternEditor.mk MAX_NOTES 4 4) (Editors.to_list (editors off))
  /\ m_nResolution off = MAX_NOTES
  /\ m_nTupletNumerator off = 4
  /\ m_nTupletDenominator off = 4.
Proof.
  intros H. cbv zeta.
  assert (Hsel : nSelected = 0 \/ nSelected = 1 \/ nSelected = 2 \/ nSelected = 3
                 \/ nSelected = 4) by lia.
  split; [|split; [|split; [|split; [|split; [|split; [|split]]]]]].
  - destruct Hsel as [->|[->|[->|[->| ->]]]]; destruct p as [? ? ? ? ? ? ? ? ? eds ?];
      destruct eds; cbn; repeat constructor.
  - destruct Hsel as [->|[->|[->|[->| ->]]]]; destruct p; reflexivity.
  - destruct Hsel as [->|[->|[->|[->| ->]]]]; destruct p; reflexivity.
  - destruct Hsel as [->|[->|[->|[->| ->]]]]; destruct p; reflexivity.
  - destruct p as [? ? ? ? ? ? ? ? ? eds ?]; destruct eds; cbn; repeat constructor.
  - destruct p; reflexivity.
  - destruct p; reflexivity.
  - destruct p; reflexivity.
Qed.

Lemma gridResolutionChanged_plain_and_off_witness :
  0 <= 2 <= 4
  /\ m_nResolution (gridResolutionChanged 2 (Sample.panel 8 5 4 192 4 0)) = 16
  /\ m_nTupletNumerator (gridResolutionChanged 2 (Sample.panel 8 5 4 192 4 0)) = 5
  /\ m_nTupletNumerator (gridResolutionChanged 11 (Sample.panel 8 5 4 192 4 0)) = 4.
Proof.
  split; [lia|].
  destruct (gridResolutionChanged_plain_and_off 2 (Sample.panel 8 5 4 192 4 0))
    as (_ & Hres & Hnum & _ & _ & _ & Hoff & _); [lia|].
  repeat split; assumption.
Defined.

Module TupletFacts.

Import PatternEditorPanel.

Lemma standard_denominator_from_pow2 (fuel : nat) :
  forall nNum k,
    0 <= k -> 2 ^ k <= nNum -> nNum < 2 ^ 30 ->
    (Z.to_nat (Z.log2 nNum - k) < fuel)%nat ->
    standard_denominator_from fuel nNum (2 ^ k) = Some (2 ^ Z.log2 nNum).
Proof.
  induction fuel as [|fuel IH]; intros nNum k Hk Hle Hlt Hfuel; [lia|].
  assert (Hpos : 0 < 2 ^ k) by (apply Z.pow_pos_nonneg; lia).
  cbn [standard_denominator_from].
  assert (Hint : CInt.is_intb (2 * 2 ^ k) = true).
  { apply CIntFacts.is_intb_spec.
    unfold CInt.is_int, CInt.INT_MIN, CInt.INT_MAX.
    change (2 ^ 31) with 2147483648. change (2 ^ 30) with 1073741824 in Hlt. lia. }
  rewrite Hint.
  destruct (2 * 2 ^ k <=? nNum) eqn:E.
  - apply Z.leb_le in E.
    replace (2 ^ k * 2) with (2 ^ (k + 1)) by (rewrite Z.pow_add_r by lia; lia).
    assert (Hk1 : k + 1 <= Z.log2 nNum).
    { apply (proj1 (Z.log2_le_pow2 nNum (k + 1) ltac:(lia))).
      rewrite Z.pow_add_r by lia. lia. }
    apply IH; try lia. rewrite Z.pow_add_r by lia. lia.
  - apply Z.leb_gt in E. f_equal. f_equal. symmetry.
    apply Z.log2_unique; [lia|]. rewrite Z.pow_succ_r by lia. lia.
Qed.

(** Below 2^30 the loop ends on the largest power of two that does not
    exceed the numerator. *)
Lemma standard_denominator_pow2 (nNum : Z) :
  0 < nNum < 2 ^ 30 ->
  standard_denominator nNum = Some (2 ^ Z.log2 nNum).
Proof.
  intros [Hpos Hlt]. unfold standard_denominator.
  change 1 with (2 ^ 0) at 1.
  apply standard_denominator_from_pow2; try lia.
  assert (Z.log2 nNum < 30) by (apply Z.log2_lt_pow2; lia).
  assert (0 <= Z.log2 nNum) by apply Z.log2_nonneg. lia.
Qed.

Lemma log2_largest (nNum : Z) :
  0 < nNum ->
  2 ^ Z.log2 nNum <= nNum < 2 * 2 ^ Z.log2 nNum
  /\ forall j, 0 <= j -> 2 ^ j <= nNum -> 2 ^ j <= 2 ^ Z.log2 nNum.
Proof.
  intros Hpos. split.
  - pose proof (Z.log2_spec nNum Hpos) as H.
    rewrite Z.pow_succ_r in H by apply Z.log2_nonneg. lia.
  - intros j Hj Hle. apply Z.pow_le_mono_r; [lia|].
    apply (proj1 (Z.log2_le_pow2 nNum j Hpos)). exact Hle.
Qed.

(** From 2^30 on the doubling leaves the range of [int]. *)
Lemma standard_denominator_overflow :
  standard_denominator (2 ^ 30) = None.
Proof. reflexivity. Qed.

End TupletFacts.

(** C8: a tuplet expression that gives the numerator alone (no ':') and is
    accepted stores that numerator with the denominator
    [den = 1; while 2 * den <= num: den *= 2], the largest power of two that
    does not exceed the numerator; the loop delivers it for every numerator
    below 2^30.  The input "5" stores the ratio (5,4). *)
Theorem tuplet_numerator_only_derives_denominator
        (qt : QtText) (qtmp sNum : string) (nNum : Z) (p : t) :
  m_pTupletLCD p <> qtmp ->
  QString.split ":" qtmp = [sNum] ->
  toInt sNum = Some nNum ->
  0 < nNum <= 20 ->
  (exists p',
      tupletLCDClicked true qtmp p = Some (p', [])
      /\ m_nTupletNumerator p' = nNum
      /\ m_nTupletDenominator p' = 2 ^ Z.log2 nNum)
  /\ (2 ^ Z.log2 nNum <= nNum < 2 * 2 ^ Z.log2 nNum
      /\ forall j, 0 <= j -> 2 ^ j <= nNum -> 2 ^ j <= 2 ^ Z.log2 nNum)
  /\ (forall n, 0 < n < 2 ^ 30 -> standard_denominator n = Some (2 ^ Z.log2 n))
  /\ (exists p',
         @tupletLCDClicked Sample.text true "5" (Sample.panel 16 4 4 192 4 0)
           = Some (p', [])
         /\ m_nTupletNumerator p' = 5 /\ m_nTupletDenominator p' = 4).
Proof.
  intros Htext Hsplit Hnum Hrange.
  split; [|split; [|split]].
  - unfold tupletLCDClicked. cbn [negb].
    apply String.eqb_neq in Htext. rewrite Htext, Hsplit.
    cbn -[standard_denominator]. unfold toInt_ok. rewrite Hnum.
    rewrite TupletFacts.standard_denominator_pow2
      by (change (2 ^ 30) with 1073741824; lia).
    replace (0 <? nNum) with true by (symmetry; apply Z.ltb_lt; lia).
    replace (20 <? nNum) with false by (symmetry; apply Z.ltb_ge; lia).
    cbn. eexists. split; [reflexivity|]. split; reflexivity.
  - apply TupletFacts.log2_largest. lia.
  - apply TupletFacts.standard_denominator_pow2.
  - eexists. vm_compute. repeat split; reflexivity.
Qed.

Lemma tuplet_numerator_only_derives_denominator_witness :
  exists p',
    @tupletLCDClicked Sample.text true "7" (Sample.panel 16 4 4 192 4 0) = Some (p', [])
    /\ m_nTupletNumerator p' = 7
    /\ m_nTupletDenominator p' = 2 ^ Z.log2 7.
Proof.
  apply (tuplet_numerator_only_derives_denominator
           Sample.text "7" "7" 7 (Sample.panel 16 4 4 192 4 0)).
  - vm_compute. discriminate.
  - reflexivity.
  - reflexivity.
  - lia.
Defined.

(** After "4" is accepted the display reads "4:4", whereas the constructor
    shows "off" for the same ratio. *)
Lemma tupletLCDClicked_shows_four_to_four :
  let p := Sample.panel 16 3 2 192 4 0 in
  initial_tuplet_text 4 4 = "off"
  /\ exists p',
      @tupletLCDClicked Sample.text true "4" p = Some (p', [])
      /\ m_nTupletNumerator p' = 4
      /\ m_nTupletDenominator p' = 4
      /\ m_pTupletLCD p' = "4:4".
Proof.
  cbv zeta. split; [reflexivity|].
  eexists. vm_compute. repeat split; reflexivity.
Qed.

Module DialogFacts.

Import PatternEditorPanel Outcome.

Lemma advisories_not_rejections (msgs : list Message) :
  forallb is_advisory msgs = true -> existsb is_rejection msgs = false.
Proof.
  induction msgs as [|m msgs IH]; [reflexivity|].
  cbn. intros H. apply andb_true_iff in H. destruct H as [Hm Hrest].
  rewrite (IH Hrest). destruct m; try discriminate; reflexivity.
Qed.

Section Length.

Context {qt : QtText}.

Lemma accept_pattern (fNumerator : spec_float) (nDenominator : Z) (p : t) :
  m_pPattern (fst (accept fNumerator nDenominator p))
  = Pattern.mk (length_in_ticks fNumerator nDenominator) nDenominator.
Proof. destruct p; reflexivity. Qed.

Lemma accept_advisories (fNumerator : spec_float) (nDenominator : Z) (p : t) :
  forallb is_advisory (snd (accept fNumerator nDenominator p)) = true.
Proof.
  unfold accept. cbn [snd].
  destruct (CInt.rem MAX_NOTES nDenominator =? 0);
    destruct (displayedNum_x1000 _ _ =? _); reflexivity.
Qed.

(** The outcomes of the pattern size dialog: nothing happens, one box
    refuses the input, or the input is accepted. *)
Lemma patternSizeLCDClicked_cases (bReady bIsOkPressed : bool) (qtmp : string) (p : t) :
  let r := patternSizeLCDClicked bReady bIsOkPressed qtmp p in
  r = (p, [NotWhenPlaying]) \/ r = (p, [])
  \/ r = (p, [DenominatorRejected]) \/ r = (p, [PatternSizeTooBig])
  \/ r = (p, [TextRejected])
  \/ exists fNumerator nDenominator, r = accept fNumerator nDenominator p.
Proof.
  cbv zeta. unfold patternSizeLCDClicked.
  destruct bReady; cbn [negb]; [|tauto].
  destruct bIsOkPressed; cbn [negb]; [|tauto].
  destruct (String.eqb _ _); [tauto|].
  destruct (_ || _); [|tauto].
  destruct (toDouble_ok _) as [fNumerator bOk0].
  destruct (bOk0 && _).
  - destruct (toInt_ok _) as [n b].
    destruct (b && _); [tauto|].
    destruct (b && _); [|tauto].
    destruct (F64.ltb _ _); [tauto|].
    do 5 right. exists fNumerator, n. reflexivity.
  - destruct (bOk0 && _); [|tauto].
    destruct (F64.ltb _ _); [tauto|].
    do 5 right. exists fNumerator, (Pattern.get_denominator (m_pPattern p)).
    reflexivity.
Qed.

(** A fraction with both parts that passes every check. *)
Lemma patternSizeLCDClicked_fraction
      (qtmp sNum sDen : string) (fNumerator : spec_float) (nDenominator : Z) (p : t) :
  pattern_size_LCD p <> qtmp ->
  QString.split "/" qtmp = [sNum; sDen] ->
  toDouble (QString.replace "," "." sNum) = Some fNumerator ->
  toInt sDen = Some nDenominator ->
  F64.ltb (F64.of_Z 0) fNumerator = true ->
  0 < nDenominator <= MAX_NOTES ->
  F64.ltb (F64.of_Z 4) (F64.div fNumerator (F64.of_Z nDenominator)) = false ->
  patternSizeLCDClicked true true qtmp p = accept fNumerator nDenominator p.
Proof.
  intros Htext Hsplit Hnum Hden Hpos Hrange Hsize.
  unfold patternSizeLCDClicked. cbn [negb].
  apply String.eqb_neq in Htext. rewrite Htext, Hsplit.
  cbn [List.length nth Z.of_nat Pos.of_succ_nat Pos.succ Z.eqb Pos.eqb orb andb].
  unfold toDouble_ok, toInt_ok. rewrite Hnum, Hden.
  cbn [andb].
  replace (nDenominator <=? 0) with false by (symmetry; apply Z.leb_gt; lia).
  replace (MAX_NOTES <? nDenominator) with false by (symmetry; apply Z.ltb_ge; lia).
  cbn [orb andb]. rewrite Hpos, Hsize. reflexivity.
Qed.

(** A numerator alone: the pattern keeps its denominator. *)
Lemma patternSizeLCDClicked_numerator_only
      (qtmp sNum : string) (fNumerator : spec_float) (p : t) :
  pattern_size_LCD p <> qtmp ->
  QString.split "/" qtmp = [sNum] ->
  toDouble (QString.replace "," "." sNum) = Some fNumerator ->
  F64.ltb (F64.of_Z 0) fNumerator = true ->
  F64.ltb (F64.of_Z 4)
          (F64.div fNumerator (F64.of_Z (Pattern.get_denominator (m_pPattern p))))
    = false ->
  patternSizeLCDClicked true true qtmp p
  = accept fNumerator (Pattern.get_denominator (m_pPattern p)) p.
Proof.
  intros Htext Hsplit Hnum Hpos Hsize.
  unfold patternSizeLCDClicked. cbn [negb].
  apply String.eqb_neq in Htext. rewrite Htext, Hsplit.
  cbn [List.length nth Z.of_nat Pos.of_succ_nat Pos.succ Z.eqb Pos.eqb orb andb].
  unfold toDouble_ok. rewrite Hnum.
  cbn [andb]. rewrite Hpos, Hsize. reflexivity.
Qed.

(** The outcomes of the tuplet dialog. *)
Lemma tupletLCDClicked_cases (bIsOkPressed : bool) (qtmp : string) (p : t) :
  let r := tupletLCDClicked bIsOkPressed qtmp p in
  r = None \/ r = Some (p, [])
  \/ r = Some (p, [DenominatorRejected]) \/ r = Some (p, [TupletNumeratorTooBig])
  \/ r = Some (p, [TextRejected])
  \/ exists nNum nDen,
      0 < nNum <= 20
      /\ r = Some
             (accept_tuplet nNum nDen p,
              []).
Proof.
  cbv zeta. unfold tupletLCDClicked.
  destruct bIsOkPressed; cbn [negb]; [|tauto].
  destruct (String.eqb _ _); [tauto|].
  destruct (_ || _); [|tauto].
  destruct (toInt_ok _) as [nNum bOk0].
  assert (Hfinish : forall nDen bOk,
             let r :=
               if bOk && (0 <? nNum)
               then if 20 <? nNum then Some (p, [TupletNumeratorTooBig])
                    else Some
                           (accept_tuplet nNum nDen p,
                            [])
               else Some (p, [TextRejected]) in
             r = Some (p, [TupletNumeratorTooBig]) \/ r = Some (p, [TextRejected])
             \/ exists nNum' nDen',
                 0 < nNum' <= 20
                 /\ r = Some
                        (accept_tuplet nNum' nDen' p,
                         [])).
  { intros nDen bOk. cbv zeta.
    destruct (bOk && (0 <? nNum)) eqn:E; [|tauto].
    apply andb_true_iff in E. destruct E as [_ E]. apply Z.ltb_lt in E.
    destruct (20 <? nNum) eqn:E20; [tauto|].
    apply Z.ltb_ge in E20. right. right. exists nNum, nDen. split; [lia|reflexivity]. }
  destruct (bOk0 && _).
  - destruct (toInt_ok _) as [n b].
    destruct (b && (_ || _)); [tauto|].
    destruct (Hfinish n b) as [H|[H|(n' & d' & Hr & H)]]; unfold accept_tuplet in H; rewrite H; try tauto.
    do 5 right. exists n', d'. split; [assumption|reflexivity].
  - destruct (standard_denominator nNum) as [n|]; [|tauto].
    destruct (Hfinish n bOk0) as [H|[H|(n' & d' & Hr & H)]]; unfold accept_tuplet in H; rewrite H; try tauto.
    do 5 right. exists n', d'. split; [assumption|reflexivity].
Qed.

(** With OK pressed on a changed text, a run of the tuplet dialog that opens
    no box has stored the ratio and written it on the display. *)
Lemma tupletLCDClicked_accepted (qtmp : string) (p p' : t) :
  m_pTupletLCD p <> qtmp ->
  tupletLCDClicked true qtmp p = Some (p', []) ->
  exists nNum nDen,
    0 < nNum <= 20
    /\ p' = accept_tuplet nNum nDen p.
Proof.
  intros Htext. unfold tupletLCDClicked. cbn [negb].
  apply String.eqb_neq in Htext. rewrite Htext.
  destruct (_ || _); [|discriminate].
  destruct (toInt_ok _) as [nNum bOk0].
  assert (Hfinish : forall nDen bOk,
             (if bOk && (0 <? nNum)
              then if 20 <? nNum then Some (p, [TupletNumeratorTooBig])
                   else Some
                          (accept_tuplet nNum nDen p,
                           [])
              else Some (p, [TextRejected])) = Some (p', []) ->
             exists nNum' nDen',
               0 < nNum' <= 20
               /\ p' = accept_tuplet nNum' nDen' p).
  { intros nDen bOk.
    destruct (bOk && (0 <? nNum)) eqn:E; [|discriminate].
    apply andb_true_iff in E. destruct E as [_ E]. apply Z.ltb_lt in E.
    destruct (20 <? nNum) eqn:E20; [discriminate|].
    apply Z.ltb_ge in E20. intros H. injection H as <-.
    exists nNum, nDen. split; [lia|reflexivity]. }
  destruct (bOk0 && _).
  - destruct (toInt_ok _) as [n b].
    destruct (b && (_ || _)); [discriminate|]. apply Hfinish.
  - destruct (standard_denominator nNum) as [n|]; [|discriminate]. apply Hfinish.
Qed.

End Length.

End DialogFacts.

Import DialogFacts Outcome.

(** C7: whenever one of the two dialogs opens a box that refuses the input
    (text rejected, denominator rejected, pattern size too big, tuplet
    numerator too big), the state it returns is the state it received.
    Each cause of rejection is run on a sample panel: more than one
    separator, a numerator that is no number or not positive, a denominator
    outside (0, 192], a length beyond 16/4, a tuplet numerator above 20. *)
Theorem rejected_input_mutates_nothing
        (qt : QtText) (bReady bIsOkPressed : bool) (qtmp : string) (p : t) :
  (forall p' msgs,
      patternSizeLCDClicked bReady bIsOkPressed qtmp p = (p', msgs) ->
      existsb is_rejection msgs = true -> p' = p)
  /\ (forall p' msgs,
         tupletLCDClicked bIsOkPressed qtmp p = Some (p', msgs) ->
         existsb is_rejection msgs = true -> p' = p)
  /\ (let q := Sample.panel 16 3 2 192 4 0 in
      @patternSizeLCDClicked Sample.text true true "3/4/5" q = (q, [TextRejected])
      /\ @patternSizeLCDClicked Sample.text true true "x/4" q = (q, [TextRejected])
      /\ @patternSizeLCDClicked Sample.text true true "-3/4" q = (q, [TextRejected])
      /\ @patternSizeLCDClicked Sample.text true true "0/4" q = (q, [TextRejected])
      /\ @patternSizeLCDClicked Sample.text true true "3/0" q = (q, [DenominatorRejected])
      /\ @patternSizeLCDClicked Sample.text true true "3/193" q = (q, [DenominatorRejected])
      /\ @patternSizeLCDClicked Sample.text true true "17/4" q = (q, [PatternSizeTooBig])
      /\ @tupletLCDClicked Sample.text true "3:2:1" q = Some (q, [TextRejected])
      /\ @tupletLCDClicked Sample.text true "x" q = Some (q, [TextRejected])
      /\ @tupletLCDClicked Sample.text true "0" q = Some (q, [TextRejected])
      /\ @tupletLCDClicked Sample.text true "3:0" q = Some (q, [DenominatorRejected])
      /\ @tupletLCDClicked Sample.text true "3:193" q = Some (q, [DenominatorRejected])
      /\ @tupletLCDClicked Sample.text true "25" q = Some (q, [TupletNumeratorTooBig])).
Proof.
  split; [|split].
  - intros p' msgs Hrun Hrej.
    destruct (patternSizeLCDClicked_cases bReady bIsOkPressed qtmp p)
      as [H|[H|[H|[H|[H|(fNumerator & nDenominator & H)]]]]];
      cbv zeta in H; rewrite H in Hrun.
    1-5: injection Hrun as <- _; reflexivity.
    pose proof (advisories_not_rejections _ (accept_advisories fNumerator nDenominator p))
      as Hno.
    rewrite Hrun in Hno. cbn [snd] in Hno. congruence.
  - intros p' msgs Hrun Hrej.
    destruct (tupletLCDClicked_cases bIsOkPressed qtmp p)
      as [H|[H|[H|[H|[H|(nNum & nDen & _ & H)]]]]];
      cbv zeta in H; rewrite H in Hrun.
    + discriminate.
    + injection Hrun as <- _; reflexivity.
    + injection Hrun as <- _; reflexivity.
    + injection Hrun as <- _; reflexivity.
    + injection Hrun as <- _; reflexivity.
    + injection Hrun as _ <-. discriminate.
  - vm_compute. repeat split; reflexivity.
Qed.

(** C1: a length expression "n/d" that passes the checks (n read as a
    number after commas are turned into points, n > 0, 0 < d <= 192, n / d
    not above 4) stores the length round(192 / d * n), computed in [double]
    and rounded half away from zero, together with the denominator d; an
    expression without denominator does the same with the denominator of
    the pattern.  "3/8" stores 72 ticks and denominator 8; "1.5/4" and
    "1,5/4" both store 72 ticks. *)
Theorem length_expression_stores_rounded_ticks
        (qt : QtText) (qtmp sNum sDen : string) (fNumerator : spec_float)
        (nDenominator : Z) (p : t) :
  pattern_size_LCD p <> qtmp ->
  QString.split "/" qtmp = [sNum; sDen] ->
  toDouble (QString.replace "," "." sNum) = Some fNumerator ->
  toInt sDen = Some nDenominator ->
  F64.ltb (F64.of_Z 0) fNumerator = true ->
  0 < nDenominator <= MAX_NOTES ->
  F64.ltb (F64.of_Z 4) (F64.div fNumerator (F64.of_Z nDenominator)) = false ->
  m_pPattern (fst (patternSizeLCDClicked true true qtmp p))
  = Pattern.mk
      (IEEE.to_int
         (F64.round
            (F64.mul (F64.div (F64.of_Z MAX_NOTES) (F64.of_Z nDenominator)) fNumerator)))
      nDenominator
  /\ (forall qtmp' sNum' fNumerator',
         let nCurrent := Pattern.get_denominator (m_pPattern p) in
         pattern_size_LCD p <> qtmp' ->
         QString.split "/" qtmp' = [sNum'] ->
         toDouble (QString.replace "," "." sNum') = Some fNumerator' ->
         F64.ltb (F64.of_Z 0) fNumerator' = true ->
         F64.ltb (F64.of_Z 4) (F64.div fNumerator' (F64.of_Z nCurrent)) = false ->
         m_pPattern (fst (patternSizeLCDClicked true true qtmp' p))
         = Pattern.mk
             (IEEE.to_int
                (F64.round
                   (F64.mul (F64.div (F64.of_Z MAX_NOTES) (F64.of_Z nCurrent))
                            fNumerator')))
             nCurrent)
  /\ (let q := Sample.panel 16 4 4 192 4 0 in
      m_pPattern (fst (@patternSizeLCDClicked Sample.text true true "3/8" q))
      = Pattern.mk 72 8
      /\ m_pPattern (fst (@patternSizeLCDClicked Sample.text true true "1.5/4" q))
         = Pattern.mk 72 4
      /\ m_pPattern (fst (@patternSizeLCDClicked Sample.text true true "1,5/4" q))
         = Pattern.mk 72 4
      /\ m_pPattern (fst (@patternSizeLCDClicked Sample.text true true "0,79/4" q))
         = Pattern.mk 38 4).
Proof.
  intros Htext Hsplit Hnum Hden Hpos Hrange Hsize. split; [|split].
  - rewrite (patternSizeLCDClicked_fraction qtmp sNum sDen fNumerator nDenominator p)
      by assumption.
    apply accept_pattern.
  - intros qtmp' sNum' fNumerator' nCurrent Htext' Hsplit' Hnum' Hpos' Hsize'.
    rewrite (patternSizeLCDClicked_numerator_only qtmp' sNum' fNumerator' p)
      by assumption.
    apply accept_pattern.
  - vm_compute. repeat split; reflexivity.
Qed.

Lemma length_expression_stores_rounded_ticks_witness :
  m_pPattern (fst (@patternSizeLCDClicked Sample.text true true "3/8"
                     (Sample.panel 16 4 4 192 4 0)))
  = Pattern.mk
      (IEEE.to_int
         (F64.round (F64.mul (F64.div (F64.of_Z MAX_NOTES) (F64.of_Z 8)) (F64.of_Z 3))))
      8.
Proof.
  apply (length_expression_stores_rounded_ticks
           Sample.text "3/8" "3" "8" (F64.of_Z 3) 8 (Sample.panel 16 4 4 192 4 0)).
  - vm_compute. discriminate.
  - reflexivity.
  - reflexivity.
  - reflexivity.
  - reflexivity.
  - unfold MAX_NOTES. lia.
  - reflexivity.
Defined.

(** C6: when the denominator d of an otherwise valid length expression does
    not divide 192, the input is accepted all the same: the box "Pattern
    length in 1/d notes is not supported" is opened, no refusing box is, and
    the pattern receives the rounded length and d.  "1/5" is accepted with
    that advisory and stores 38 ticks. *)
Theorem unsupported_denominator_is_accepted_with_advisory
        (qt : QtText) (qtmp sNum sDen : string) (fNumerator : spec_float)
        (nDenominator : Z) (p : t) :
  pattern_size_LCD p <> qtmp ->
  QString.split "/" qtmp = [sNum; sDen] ->
  toDouble (QString.replace "," "." sNum) = Some fNumerator ->
  toInt sDen = Some nDenominator ->
  F64.ltb (F64.of_Z 0) fNumerator = true ->
  0 < nDenominator <= MAX_NOTES ->
  F64.ltb (F64.of_Z 4) (F64.div fNumerator (F64.of_Z nDenominator)) = false ->
  CInt.rem MAX_NOTES nDenominator <> 0 ->
  (exists p' more,
      patternSizeLCDClicked true true qtmp p
      = (p', LengthNotSupported nDenominator :: more)
      /\ existsb is_rejection (LengthNotSupported nDenominator :: more) = false
      /\ m_pPattern p'
         = Pattern.mk
             (IEEE.to_int
                (F64.round
                   (F64.mul (F64.div (F64.of_Z MAX_NOTES) (F64.of_Z nDenominator))
                            fNumerator)))
             nDenominator)
  /\ (let q := Sample.panel 16 4 4 192 4 0 in
      exists p',
        @patternSizeLCDClicked Sample.text true true "1/5" q
        = (p', [LengthNotSupported 5; SizeApproximated])
        /\ m_pPattern p' = Pattern.mk 38 5).
Proof.
  intros Htext Hsplit Hnum Hden Hpos Hrange Hsize Hrem. split.
  - rewrite (patternSizeLCDClicked_fraction qtmp sNum sDen fNumerator nDenominator p)
      by assumption.
    pose proof (accept_advisories fNumerator nDenominator p) as Hadv.
    pose proof (accept_pattern fNumerator nDenominator p) as Hpat.
    unfold accept in *. cbn [fst snd] in *.
    apply Z.eqb_neq in Hrem. rewrite Hrem in *.
    eexists. eexists. split; [reflexivity|]. split.
    + apply advisories_not_rejections. exact Hadv.
    + exact Hpat.
  - eexists. vm_compute. split; reflexivity.
Qed.

Lemma unsupported_denominator_is_accepted_with_advisory_witness :
  exists p' more,
    @patternSizeLCDClicked Sample.text true true "1/5" (Sample.panel 16 4 4 192 4 0)
    = (p', LengthNotSupported 5 :: more)
    /\ existsb is_rejection (LengthNotSupported 5 :: more) = false
    /\ m_pPattern p'
       = Pattern.mk
           (IEEE.to_int
              (F64.round (F64.mul (F64.div (F64.of_Z MAX_NOTES) (F64.of_Z 5)) (F64.of_Z 1))))
           5.
Proof.
  apply (unsupported_denominator_is_accepted_with_advisory
           Sample.text "1/5" "1" "5" (F64.of_Z 1) 5 (Sample.panel 16 4 4 192 4 0)).
  - vm_compute. discriminate.
  - reflexivity.
  - reflexivity.
  - reflexivity.
  - reflexivity.
  - unfold MAX_NOTES. lia.
  - reflexivity.
  - vm_compute. discriminate.
Defined.

(** C9 as stated fails on the ratio 1:1: the accepted input "1" stores (1,1)
    and the display reads "1:1", not "off". *)
Lemma tuplet_one_to_one_is_shown_as_ratio_counterexample :
  exists p',
    @tupletLCDClicked Sample.text true "1" (Sample.panel 16 3 2 192 4 0) = Some (p', [])
    /\ m_nTupletNumerator p' = 1
    /\ m_nTupletDenominator p' = 1
    /\ m_pTupletLCD p' = "1:1"
    /\ m_pTupletLCD p' <> "off".
Proof.
  eexists. vm_compute. repeat split; try reflexivity. discriminate.
Qed.

(** C9, amended: after a tuplet expression is accepted with a resulting
    ratio other than (4,4), in particular with 1:1, the tuplet display shows
    the fraction "num:den"; "off" is what the panel shows when it is
    constructed on a stored ratio of (4,4), any other stored ratio being
    shown as "num:den" as well. *)
Theorem accepted_tuplet_is_shown_as_ratio
        (qt : QtText) (qtmp : string) (p p' : t) :
  m_pTupletLCD p <> qtmp ->
  tupletLCDClicked true qtmp p = Some (p', []) ->
  (m_nTupletNumerator p', m_nTupletDenominator p') <> (4, 4) ->
  0 < m_nTupletNumerator p' <= 20
  /\ m_pTupletLCD p' = ratio_text (m_nTupletNumerator p') (m_nTupletDenominator p')
  /\ initial_tuplet_text 4 4 = "off"
  /\ (forall n d, (n, d) <> (4, 4) -> initial_tuplet_text n d = ratio_text n d).
Proof.
  intros Htext Hrun _.
  destruct (tupletLCDClicked_accepted qtmp p p' Htext Hrun) as (nNum & nDen & Hrange & ->).
  split; [|split; [|split]].
  - destruct p; exact Hrange.
  - destruct p; reflexivity.
  - reflexivity.
  - intros n d Hnd. unfold initial_tuplet_text.
    destruct (n =? 4) eqn:En; [|reflexivity].
    destruct (d =? 4) eqn:Ed; [|reflexivity].
    apply Z.eqb_eq in En, Ed. subst. congruence.
Qed.

Lemma accepted_tuplet_is_shown_as_ratio_witness :
  let p' := accept_tuplet 1 1 (Sample.panel 16 3 2 192 4 0) in
  0 < m_nTupletNumerator p' <= 20
  /\ m_pTupletLCD p' = ratio_text (m_nTupletNumerator p') (m_nTupletDenominator p')
  /\ initial_tuplet_text 4 4 = "off"
  /\ (forall n d, (n, d) <> (4, 4) -> initial_tuplet_text n d = ratio_text n d).
Proof.
  apply (accepted_tuplet_is_shown_as_ratio Sample.text "1" (Sample.panel 16 3 2 192 4 0)).
  - vm_compute. discriminate.
  - reflexivity.
  - vm_compute. discriminate.
Defined.

(** ** The pattern size display *)

Module DisplayFacts.

Import PatternEditorPanel Outcome.

Lemma wrap_is_int (z : Z) : CInt.is_int (CInt.wrap z).
Proof.
  unfold CInt.is_int, CInt.wrap, CInt.INT_MIN, CInt.INT_MAX.
  change (2 ^ 31) with 2147483648. change (2 ^ 32) with 4294967296.
  pose proof (Z.mod_pos_bound (z + 2147483648) 4294967296 ltac:(lia)). lia.
Qed.

(** Without overflow the products and quotients of [int] are the
    mathematical ones. *)
Lemma size_numerator_exact (nPatternSize nDen : Z) :
  0 <= nPatternSize -> 0 <= nDen -> nPatternSize * nDen <= CInt.INT_MAX ->
  CInt.rem (CInt.mul nPatternSize nDen) MAX_NOTES = (nPatternSize * nDen) mod MAX_NOTES
  /\ CInt.div (CInt.mul nPatternSize nDen) MAX_NOTES = nPatternSize * nDen / MAX_NOTES.
Proof.
  intros HL Hd Hmax. unfold CInt.mul.
  rewrite CIntFacts.wrap_small.
  - unfold CInt.rem, CInt.div, MAX_NOTES. split.
    + apply Z.rem_mod_nonneg; nia.
    + apply Z.quot_div_nonneg; nia.
  - unfold CInt.is_int, CInt.INT_MIN, CInt.INT_MAX in *.
    change (2 ^ 31) with 2147483648 in *. nia.
Qed.

Section Display.

Context {qt : QtText}.

Lemma updatePatternSizeLCD_text (p : t) :
  pattern_size_LCD (updatePatternSizeLCD p)
  = size_text (Pattern.get_length (m_pPattern p)) (Pattern.get_denominator (m_pPattern p)).
Proof. destruct p; reflexivity. Qed.

Lemma accept_text (fNumerator : spec_float) (nDenominator : Z) (p : t) :
  pattern_size_LCD (fst (accept fNumerator nDenominator p))
  = size_text (length_in_ticks fNumerator nDenominator) nDenominator.
Proof. destruct p; reflexivity. Qed.

End Display.

Lemma round_magnitude_nonneg (m : positive) (e : Z) : 0 <= IEEE.round_magnitude m e.
Proof.
  destruct e as [|k|k]; cbn [IEEE.round_magnitude].
  - lia.
  - apply Z.shiftl_nonneg. lia.
  - apply Z.shiftr_nonneg.
    assert (0 <= Z.shiftl 1 (Zpos k - 1)) by (apply Z.shiftl_nonneg; lia). lia.
Qed.

(** [toString( x, 'f', 3 )] of a finite number has three digits after the
    separator. *)
Lemma toString_f3_fixed3 (point : ascii) (x : spec_float) :
  IEEE.is_finite x = true -> fixed3 point (QLocale.toString_f3 point x).
Proof.
  destruct x as [s|s| |s m e]; try discriminate; intros _.
  - exists s, 0, 0, 0, 0. repeat split; try lia.
  - pose proof (round_magnitude_nonneg (m * 1000) e) as Hn.
    cbn [QLocale.toString_f3].
    set (n := IEEE.round_magnitude (m * 1000) e) in *.
    pose proof (Z.mod_pos_bound n 1000 ltac:(lia)) as Hf.
    exists s, (n / 1000), (n mod 1000 / 100), (n mod 1000 / 10 mod 10), (n mod 1000 mod 10).
    split; [apply Z.div_pos; lia|].
    split.
    { assert (n mod 1000 / 100 < 10) by (apply Z.div_lt_upper_bound; lia).
      split; [apply Z.div_pos; lia|lia]. }
    split; [pose proof (Z.mod_pos_bound (n mod 1000 / 10) 10 ltac:(lia)); lia|].
    split; [pose proof (Z.mod_pos_bound (n mod 1000) 10 ltac:(lia)); lia|].
    reflexivity.
Qed.

Lemma forallb_range (f : Z -> bool) (lo : Z) (len : nat) :
  forallb f (Exhaustive.range lo len) = true ->
  forall z, lo <= z < lo + Z.of_nat len -> f z = true.
Proof.
  intros Hall z Hz. rewrite forallb_forall in Hall. apply Hall.
  unfold Exhaustive.range. apply in_map_iff.
  exists (Z.to_nat (z - lo)). split; [lia|]. apply in_seq. lia.
Qed.

Lemma roundtrip_all_true :
  forallb Exhaustive.roundtrip_row (Exhaustive.range 1 192) = true.
Proof. vm_compute. reflexivity. Qed.

Lemma roundtrip_each (n d : Z) :
  0 < n <= 4 * d -> 0 < d <= MAX_NOTES -> MAX_NOTES mod d = 0 ->
  Exhaustive.roundtrip_ok n d = true.
Proof.
  intros Hn Hd Hdiv. unfold MAX_NOTES in Hd.
  pose proof (forallb_range Exhaustive.roundtrip_row 1 192 roundtrip_all_true d) as Hrow.
  assert (Hin : 1 <= d < 1 + Z.of_nat 192) by lia.
  specialize (Hrow Hin). unfold Exhaustive.roundtrip_row in Hrow.
  rewrite Hdiv, Z.eqb_refl in Hrow.
  apply (forallb_range _ 1 (Z.to_nat (4 * d)) Hrow). lia.
Qed.

(** An exact fraction typed into the dialog comes back on the display. *)
Lemma fraction_roundtrip (point : ascii) (n d : Z) (p : t) :
  0 < n <= 4 * d -> 0 < d <= MAX_NOTES -> MAX_NOTES mod d = 0 ->
  pattern_size_LCD p <> fraction_text n d ->
  let p' := fst (@patternSizeLCDClicked (DecimalText.qt point) true true
                   (fraction_text n d) p) in
  m_pPattern p' = Pattern.mk (MAX_NOTES / d * n) d
  /\ pattern_size_LCD p' = fraction_text n d.
Proof.
  intros Hn Hd Hdiv Htext. cbv zeta.
  pose proof (roundtrip_each n d Hn Hd Hdiv) as Hok.
  unfold Exhaustive.roundtrip_ok in Hok.
  destruct (QString.split "/" (fraction_text n d)) as [|sNum [|sDen [|]]] eqn:Hsplit;
    try discriminate.
  destruct (DecimalText.parseDouble (QString.replace "," "." sNum)) as [f|] eqn:Hnum;
    [|discriminate].
  destruct (DecimalText.parseInt sDen) as [d'|] eqn:Hden; [|discriminate].
  repeat (apply andb_true_iff in Hok; destruct Hok as [Hok ?]).
  match goal with H : (d' =? d) = true |- _ => apply Z.eqb_eq in H; subst d' end.
  match goal with H : negb _ = true |- _ => apply negb_true_iff in H end.
  match goal with H : (length_in_ticks _ _ =? _) = true |- _ => apply Z.eqb_eq in H end.
  match goal with H : (CInt.rem _ _ =? _) = true |- _ => rename H into Hrem end.
  match goal with H : String.eqb _ _ = true |- _ => apply String.eqb_eq in H; rename H into Htxt end.
  rewrite (@DialogFacts.patternSizeLCDClicked_fraction (DecimalText.qt point)
             (fraction_text n d) sNum sDen f d p) by assumption.
  split.
  - rewrite DialogFacts.accept_pattern. f_equal. assumption.
  - rewrite accept_text. unfold size_text.
    match goal with H : length_in_ticks _ _ = _ |- _ => rewrite H end.
    rewrite Hrem. exact Htxt.
Qed.

End DisplayFacts.

(** ** Texts *)

Module TextFacts.

Lemma append_assoc (a b c : string) : ((a ++ b) ++ c = a ++ (b ++ c))%string.
Proof. induction a as [|x a IH]; [reflexivity|]. cbn. rewrite IH. reflexivity. Qed.

Lemma append_empty_r (a : string) : (a ++ "" = a)%string.
Proof. induction a as [|x a IH]; [reflexivity|]. cbn. rewrite IH. reflexivity. Qed.

End TextFacts.

(** ** The test helper *)

Module TestHelperFacts.

Import TestHelper.

Lemma last_resort_fst (w : World) (log : list Log) :
  fst (last_resort w log)
  = if checkRootDir w "." then Returned "." else Thrown no_data_directory.
Proof. unfold last_resort. destruct (checkRootDir w "."); reflexivity. Qed.

Lemma last_resort_snd (w : World) (log : list Log) : snd (last_resort w log) = log.
Proof. unfold last_resort. destruct (checkRootDir w "."); reflexivity. Qed.

(** [findRootDir] returns the first candidate that passes [checkRootDir]. *)
Lemma findRootDir_find (w : World) :
  fst (findRootDir w)
  = match find (checkRootDir w) (candidates w) with
    | Some dir => Returned dir
    | None => Thrown no_data_directory
    end.
Proof.
  unfold findRootDir, candidates.
  destruct (value w "H2_HOME" "" =? "")%string eqn:Eenv; cbn [negb andb app].
  - destruct (qx w "git" _) as [git_root_dir|what]; cbn [app find].
    + destruct (checkRootDir w git_root_dir); [reflexivity|].
      rewrite last_resort_fst. destruct (checkRootDir w "."); reflexivity.
    + rewrite last_resort_fst. destruct (checkRootDir w "."); reflexivity.
  - destruct (checkRootDir w (value w "H2_HOME" "")) eqn:Ecur; cbn [find fst];
      rewrite Ecur; [reflexivity|].
    destruct (qx w "git" _) as [git_root_dir|what]; cbn [app find].
    + destruct (checkRootDir w git_root_dir); [reflexivity|].
      rewrite last_resort_fst. destruct (checkRootDir w "."); reflexivity.
    + rewrite last_resort_fst. destruct (checkRootDir w "."); reflexivity.
Qed.

Lemma TestHelper_thrown (w : World) (what : string) (log : list Log) :
  TestHelper w = (Thrown what, log) -> what = no_data_directory.
Proof.
  pose proof (findRootDir_find w) as Hfind.
  unfold TestHelper.
  destruct (findRootDir w) as [[root_dir|e] l]; [discriminate|].
  intros H. injection H as <- _. cbn [fst] in Hfind.
  destruct (find (checkRootDir w) (candidates w)); [discriminate|].
  injection Hfind as ->. reflexivity.
Qed.

Lemma filter_is_error_not_usable (dirs : list string) :
  filter is_error (map not_usable dirs) = map not_usable dirs.
Proof. induction dirs as [|d dirs IH]; [reflexivity|]. cbn. rewrite IH. reflexivity. Qed.

End TestHelperFacts.

Section TestHelperProperties.

Import TestHelper.

(** X1: [findRootDir] tries the value of H2_HOME (unless it is empty), the
    top level git reports (unless git fails) and the current directory, in
    this order, and returns the first one under which
    src/tests/data//drumkits/baseKit/drumkit.xml exists.  It throws, with
    the advice to set H2_HOME, exactly when none of them has that file. *)
Theorem findRootDir_returns_the_first_usable_directory (w : World) :
  fst (findRootDir w)
  = match find (checkRootDir w) (candidates w) with
    | Some dir => Returned dir
    | None => Thrown no_data_directory
    end
  /\ (forall dir,
         fst (findRootDir w) = Returned dir ->
         In dir (candidates w)
         /\ exists_ w (dir ++ "/src/tests/data/" ++ "/drumkits/baseKit/drumkit.xml") = true)
  /\ ((exists what, fst (findRootDir w) = Thrown what)
      <-> forall dir, In dir (candidates w) -> checkRootDir w dir = false).
Proof.
  pose proof (TestHelperFacts.findRootDir_find w) as Hfind.
  split; [exact Hfind|]. split.
  - intros dir Hret. rewrite Hret in Hfind.
    destruct (find (checkRootDir w) (candidates w)) as [d|] eqn:E; [|discriminate].
    injection Hfind as ->. apply find_some in E. exact E.
  - split.
    + intros [what Hthrow] dir Hin. rewrite Hthrow in Hfind.
      destruct (find (checkRootDir w) (candidates w)) as [d|] eqn:E; [discriminate|].
      apply (find_none _ _ E dir Hin).
    + intros Hnone. rewrite Hfind.
      destruct (find (checkRootDir w) (candidates w)) as [d|] eqn:E.
      * apply find_some in E. destruct E as [Hin Hok].
        rewrite (Hnone d Hin) in Hok. discriminate.
      * eexists. reflexivity.
Qed.

(** X2: [findRootDir] reports with "Directory ... not usable" exactly the
    directories taken from H2_HOME and from git that it tried and refused,
    in the order it tried them; the current directory is never reported.
    It logs nothing at all when H2_HOME names a usable directory, and it
    warns that git found no root only when it ran git and git failed. *)
Theorem findRootDir_reports_the_refused_directories (w : World) :
  filter is_error (snd (findRootDir w))
  = map not_usable
        (take_while (fun dir => negb (checkRootDir w dir)) (removelast (candidates w)))
  /\ ((value w "H2_HOME" "" =? "")%string = false ->
      checkRootDir w (value w "H2_HOME" "") = true ->
      findRootDir w = (Returned (value w "H2_HOME" ""), []))
  /\ (In (WARNINGLOG "Can't find git root directory") (snd (findRootDir w))
      <-> (find (checkRootDir w)
                (if (value w "H2_HOME" "" =? "")%string then []
                 else [value w "H2_HOME" ""]) = None
           /\ exists what, qx w "git" ["rev-parse"; "--show-toplevel"] = Thrown what)).
Proof.
  unfold findRootDir, candidates.
  destruct (value w "H2_HOME" "" =? "")%string eqn:Eenv; cbn [negb andb app].
  - split; [|split].
    + destruct (qx w "git" _) as [git_root_dir|what]; cbn [app removelast].
      * destruct (checkRootDir w git_root_dir) eqn:Egit; cbn [snd take_while];
          rewrite Egit; cbn [negb]; [reflexivity|].
        rewrite TestHelperFacts.last_resort_snd. reflexivity.
      * rewrite TestHelperFacts.last_resort_snd. reflexivity.
    + discriminate.
    + destruct (qx w "git" _) as [git_root_dir|what]; cbn [find].
      * split.
        -- destruct (checkRootDir w git_root_dir); cbn [snd]; [intros []|].
           rewrite TestHelperFacts.last_resort_snd.
           intros [H|[]]. discriminate.
        -- intros [_ [what H]]. discriminate.
      * rewrite TestHelperFacts.last_resort_snd. split.
        -- intros _. split; [reflexivity|]. eexists. reflexivity.
        -- intros _. left. reflexivity.
  - destruct (checkRootDir w (value w "H2_HOME" "")) eqn:Ecur.
    + split; [|split].
      * destruct (qx w "git" _) as [git_root_dir|what]; cbn [app removelast take_while];
          rewrite Ecur; reflexivity.
      * reflexivity.
      * cbn [snd find]. rewrite Ecur. split; [intros []|]. intros [H _]. discriminate.
    + split; [|split].
      * destruct (qx w "git" _) as [git_root_dir|what]; cbn [app removelast take_while];
          rewrite Ecur; cbn [negb].
        -- destruct (checkRootDir w git_root_dir) eqn:Egit; cbn [snd negb];
             [reflexivity|].
           rewrite TestHelperFacts.last_resort_snd. reflexivity.
        -- rewrite TestHelperFacts.last_resort_snd. reflexivity.
      * discriminate.
      * cbn [find]. rewrite Ecur.
        destruct (qx w "git" _) as [git_root_dir|what].
        -- split.
           ++ destruct (checkRootDir w git_root_dir); cbn [snd].
              ** intros [H|[]]. discriminate.
              ** rewrite TestHelperFacts.last_resort_snd.
                 intros [H|[H|[]]]; discriminate.
           ++ intros [_ [what H]]. discriminate.
        -- rewrite TestHelperFacts.last_resort_snd. split.
           ++ intros _. split; [reflexivity|]. eexists. reflexivity.
           ++ intros _. right. left. reflexivity.
Qed.

(** X3: when the constructor of [TestHelper] succeeds, its two directories
    lie under the directory [findRootDir] returned, the data directory as
    root/data/ and the test data directory as root/src/tests/data/, and the
    file /drumkits/baseKit/drumkit.xml exists under the test data
    directory; the last thing it logs is the directory it uses.  When
    [findRootDir] throws, the constructor throws the same exception. *)
Theorem TestHelper_directories_hold_the_test_drumkit (w : World) :
  match TestHelper w with
  | (Returned helper, log) =>
      exists root_dir,
        fst (findRootDir w) = Returned root_dir
        /\ m_sDataDir helper = (root_dir ++ "/data/")%string
        /\ m_sTestDataDir helper = (root_dir ++ "/src/tests/data/")%string
        /\ exists_ w (m_sTestDataDir helper ++ "/drumkits/baseKit/drumkit.xml") = true
        /\ log = snd (findRootDir w)
                 ++ [INFOLOG ("Using test data directory: " ++ root_dir)]
  | (Thrown what, log) =>
      findRootDir w = (Thrown what, log) /\ what = no_data_directory
  end.
Proof.
  pose proof (TestHelperFacts.findRootDir_find w) as Hfind.
  unfold TestHelper.
  destruct (findRootDir w) as [[root_dir|what] log] eqn:E; cbn [fst snd] in *.
  - exists root_dir. split; [reflexivity|]. split; [reflexivity|].
    split; [reflexivity|]. split; [|reflexivity].
    destruct (find (checkRootDir w) (candidates w)) as [d|] eqn:Ef; [|discriminate].
    injection Hfind as ->. apply find_some in Ef. destruct Ef as [_ Hok].
    unfold checkRootDir in Hok. cbn [m_sTestDataDir].
    rewrite TextFacts.append_assoc. exact Hok.
  - split; [reflexivity|].
    destruct (find (checkRootDir w) (candidates w)); [discriminate|].
    injection Hfind as ->. reflexivity.
Qed.

(** X4: [createInstance] builds the helper once.  With an instance in
    place it does nothing, whatever the machine looks like by then: it
    neither searches nor logs.  Without one it runs the constructor; if
    that throws, the exception leaves [createInstance] and there is still
    no instance, so the next call searches again. *)
Theorem createInstance_builds_the_helper_once (w w' : World) (m_pInstance : option t) :
  let '(first, thrown, log) := createInstance w m_pInstance in
  (forall helper, m_pInstance = Some helper -> (first, thrown, log) = (Some helper, None, []))
  /\ (forall helper, first = Some helper -> createInstance w' first = (first, None, []))
  /\ (m_pInstance = None -> first = None ->
      thrown = Some no_data_directory
      /\ createInstance w' first
         = (let '(r, l) := TestHelper w' in
            match r with
            | Returned helper => (Some helper, None, l)
            | Thrown what => (None, Some what, l)
            end))
  /\ (thrown = None <-> first <> None).
Proof.
  unfold createInstance.
  destruct m_pInstance as [helper0|].
  - split; [|split; [|split]].
    + intros helper H. injection H as ->. reflexivity.
    + intros helper H. injection H as ->. reflexivity.
    + discriminate.
    + split; [discriminate|reflexivity].
  - destruct (TestHelper.TestHelper w) as [[helper|what] log] eqn:E.
    + split; [|split; [|split]].
      * discriminate.
      * intros h H. reflexivity.
      * discriminate.
      * split; [discriminate|reflexivity].
    + split; [|split; [|split]].
      * discriminate.
      * discriminate.
      * intros _ _. rewrite (TestHelperFacts.TestHelper_thrown w what log E).
        split; [reflexivity|].
        cbn. destruct (TestHelper.TestHelper w') as [[h|e] l]; reflexivity.
      * split; [discriminate|]. intros H. contradiction H. reflexivity.
Qed.
End TestHelperProperties.

(** ** The resolution menu *)

Module MenuFacts.

Import Construction.

(** [nIndex] with its two [switch]es written as comparisons. *)
Lemma nIndex_cases (nRes nTupletNumerator nTupletDenominator : Z) :
  nIndex nRes nTupletNumerator nTupletDenominator
  = if nRes =? 192 then (11, [])
    else if negb (nTupletNumerator =? 3) || negb (nTupletDenominator =? 2) then
      if nRes =? 4 then (0, [])
      else if nRes =? 8 then (1, [])
      else if nRes =? 16 then (2, [])
      else if nRes =? 32 then (3, [])
      else if nRes =? 64 then (4, [])
      else (0, [wrong_grid_resolution nRes])
    else
      if nRes =? 4 then (6, [])
      else if nRes =? 8 then (7, [])
      else if nRes =? 16 then (8, [])
      else if nRes =? 32 then (9, [])
      else (6, [wrong_grid_resolution nRes]).
Proof.
  unfold nIndex, MAX_NOTES.
  destruct (negb (nTupletNumerator =? 3) || negb (nTupletDenominator =? 2));
    (destruct nRes as [|q|q]; [reflexivity| |reflexivity]);
    do 8 (try (destruct q as [q|q|]; try reflexivity)).
Qed.

(** The resolution an entry of the menu stands for. *)
Lemma gridResolutionChanged_resolution (nSelected : Z) (p : t) :
  In nSelected selectable ->
  let nResolution :=
    if nSelected =? 11 then 192
    else if 4 <? nSelected then 2 ^ (nSelected - 4) else 2 ^ (nSelected + 2) in
  m_nResolution (gridResolutionChanged nSelected p) = nResolution
  /\ Preferences.getPatternEditorGridResolution
       (preferences (gridResolutionChanged nSelected p)) = nResolution
  /\ Forall (fun ed => PatternEditor.m_nResolution ed = nResolution)
            (Editors.to_list (editors (gridResolutionChanged nSelected p))).
Proof.
  intros Hin. cbv zeta.
  destruct p as [? ? ? ? ? ? ? ? ? eds ?]; destruct eds.
  cbn in Hin.
  destruct Hin as [<-|[<-|[<-|[<-|[<-|[<-|[<-|[<-|[<-|[<-|[]]]]]]]]]]];
    (split; [reflexivity|split; [reflexivity|repeat constructor]]).
Qed.

(** What an entry does to the tuplet ratio: the plain entries leave it
    alone, the others store theirs everywhere. *)
Lemma gridResolutionChanged_ratio (nSelected : Z) (p : t) :
  In nSelected selectable ->
  let p' := gridResolutionChanged nSelected p in
  if nSelected <=? 4 then
    m_nTupletNumerator p' = m_nTupletNumerator p
    /\ m_nTupletDenominator p' = m_nTupletDenominator p
    /\ m_pTupletLCD p' = m_pTupletLCD p
    /\ Preferences.getPatternEditorGridTupletNumerator (preferences p')
       = Preferences.getPatternEditorGridTupletNumerator (preferences p)
    /\ Preferences.getPatternEditorGridTupletDenominator (preferences p')
       = Preferences.getPatternEditorGridTupletDenominator (preferences p)
  else
    let ratio := if nSelected =? 11 then (4, 4) else (3, 2) in
    m_nTupletNumerator p' = fst ratio
    /\ m_nTupletDenominator p' = snd ratio
    /\ m_pTupletLCD p' = ratio_text (fst ratio) (snd ratio)
    /\ Preferences.getPatternEditorGridTupletNumerator (preferences p') = fst ratio
    /\ Preferences.getPatternEditorGridTupletDenominator (preferences p') = snd ratio.
Proof.
  intros Hin. cbv zeta.
  destruct p as [? ? ? ? ? ? ? ? ? eds ?]; destruct eds.
  cbn in Hin.
  destruct Hin as [<-|[<-|[<-|[<-|[<-|[<-|[<-|[<-|[<-|[<-|[]]]]]]]]]]];
    cbn; repeat split; reflexivity.
Qed.

(** The members no entry of the menu touches. *)
Lemma gridResolutionChanged_frame (nSelected : Z) (p : t) :
  let p' := gridResolutionChanged nSelected p in
  m_pPattern p' = m_pPattern p
  /\ pattern_size_LCD p' = pattern_size_LCD p
  /\ m_pDenominatorWarning p' = m_pDenominatorWarning p
  /\ m_nCursorIndexPosition p' = m_nCursorIndexPosition p.
Proof.
  cbv zeta. unfold gridResolutionChanged.
  destruct (nSelected =? 11); [|destruct (4 <? nSelected)];
    destruct p; repeat split; reflexivity.
Qed.

End MenuFacts.

Section MenuProperties.

Import Construction.

(** X5: the entry the constructor computes from the stored settings is
    always one that can be chosen, never a separator.  When the stored
    resolution is on the menu (4, 8, 16, 32, 64 or 192, and not 64 while
    the stored ratio is 3:2) nothing is logged and [gridResolutionChanged]
    on that entry puts the stored resolution back into the panel, the
    seven editors and the preferences.  Any other stored resolution is
    logged as wrong and the grid falls back to resolution 4. *)
Theorem restored_entry_selects_the_stored_resolution
        (nRes nTupletNumerator nTupletDenominator : Z) (p : t) :
  let triplets := (nTupletNumerator =? 3) && (nTupletDenominator =? 2) in
  let on_menu := if triplets then [4; 8; 16; 32; 192] else [4; 8; 16; 32; 64; 192] in
  let restored := nIndex nRes nTupletNumerator nTupletDenominator in
  let p' := gridResolutionChanged (fst restored) p in
  In (fst restored) selectable
  /\ (In nRes on_menu ->
      snd restored = []
      /\ m_nResolution p' = nRes
      /\ Preferences.getPatternEditorGridResolution (preferences p') = nRes
      /\ Forall (fun ed => PatternEditor.m_nResolution ed = nRes)
                (Editors.to_list (editors p')))
  /\ (~ In nRes on_menu ->
      snd restored = [wrong_grid_resolution nRes]
      /\ m_nResolution p' = 4
      /\ Preferences.getPatternEditorGridResolution (preferences p') = 4).
Proof.
  cbv zeta. rewrite MenuFacts.nIndex_cases.
  assert (Hneg : negb (nTupletNumerator =? 3) || negb (nTupletDenominator =? 2)
                 = negb ((nTupletNumerator =? 3) && (nTupletDenominator =? 2)))
    by (destruct (nTupletNumerator =? 3), (nTupletDenominator =? 2); reflexivity).
  rewrite Hneg. clear Hneg.
  destruct ((nTupletNumerator =? 3) && (nTupletDenominator =? 2)); cbn [negb];
    repeat match goal with
           | |- context [nRes =? ?k] =>
               let E := fresh "E" in
               destruct (nRes =? k) eqn:E;
               [apply Z.eqb_eq in E; subst nRes | apply Z.eqb_neq in E]
           end;
    cbn [fst snd];
    (split; [cbn; tauto|]);
    match goal with
    | |- context [gridResolutionChanged ?k p] =>
        pose proof (MenuFacts.gridResolutionChanged_resolution k p ltac:(cbn; tauto))
          as (Hpanel & Hpref & Heds)
    end;
    (split;
     [ intros Hin;
       first [ solve [exfalso; cbn in Hin; lia]
             | split; [reflexivity|];
               split; [exact Hpanel|split; [exact Hpref|exact Heds]] ]
     | intros Hout;
       first [ solve [exfalso; apply Hout; cbn; tauto]
             | split; [reflexivity|];
               split; [exact Hpanel|exact Hpref] ] ]).
Qed.

(** X6: a choice on the resolution menu survives a restart.  After
    [gridResolutionChanged] on an entry that can be chosen, the entry the
    constructor computes from the preferences is that entry again, for the
    triplet entries and "off" always, for a plain entry as long as the
    stored tuplet ratio is not 3:2.  While 3:2 is stored, the plain entries
    1/4 to 1/32 come back as the triplet entries of the same resolution,
    and 1/64 comes back as 1/4T. *)
Theorem chosen_entry_is_restored (nSelected : Z) (p : t) :
  In nSelected selectable ->
  let pPref := preferences (gridResolutionChanged nSelected p) in
  let stored_triplets :=
    (Preferences.getPatternEditorGridTupletNumerator (preferences p) =? 3)
    && (Preferences.getPatternEditorGridTupletDenominator (preferences p) =? 2) in
  (5 <= nSelected \/ stored_triplets = false -> restored_index pPref = nSelected)
  /\ (nSelected <= 3 -> stored_triplets = true -> restored_index pPref = nSelected + 6)
  /\ (nSelected = 4 -> stored_triplets = true -> restored_index pPref = 6).
Proof.
  intros Hin. cbv zeta. unfold restored_index.
  pose proof (MenuFacts.gridResolutionChanged_resolution nSelected p Hin) as (_ & Hres & _).
  pose proof (MenuFacts.gridResolutionChanged_ratio nSelected p Hin) as Hratio.
  cbv zeta in Hres, Hratio. rewrite Hres. clear Hres.
  rewrite MenuFacts.nIndex_cases.
  cbn in Hin.
  destruct Hin as [<-|[<-|[<-|[<-|[<-|[<-|[<-|[<-|[<-|[<-|[]]]]]]]]]]];
    cbn [Z.leb Z.compare Pos.compare Pos.compare_cont Z.eqb Pos.eqb fst snd] in Hratio;
    destruct Hratio as (_ & _ & _ & -> & ->);
    cbn [Z.eqb Pos.eqb Z.ltb Z.compare Pos.compare Pos.compare_cont Z.pow Z.pow_pos
         Pos.iter Z.mul Pos.mul Z.sub Z.add Z.opp Z.pos_sub Pos.add Pos.succ
         Pos.pred_double negb orb andb fst snd];
    (split; [|split]); intros; try lia;
    try reflexivity;
    repeat match goal with
           | H : _ \/ _ |- _ => destruct H; [lia|]
           | H : (?a && ?b) = _ |- _ => rewrite H
           end;
    try reflexivity;
    try (assert (Hn : negb (Preferences.getPatternEditorGridTupletNumerator (preferences p) =? 3)
                      || negb (Preferences.getPatternEditorGridTupletDenominator (preferences p) =? 2)
                      = negb ((Preferences.getPatternEditorGridTupletNumerator (preferences p) =? 3)
                              && (Preferences.getPatternEditorGridTupletDenominator (preferences p) =? 2)))
           by (destruct (Preferences.getPatternEditorGridTupletNumerator (preferences p) =? 3),
                 (Preferences.getPatternEditorGridTupletDenominator (preferences p) =? 2);
               reflexivity);
         rewrite Hn;
         match goal with H : (_ && _) = _ |- _ => rewrite H end;
         reflexivity).
Qed.

Lemma chosen_entry_is_restored_witness :
  restored_index (preferences (gridResolutionChanged 8 (Sample.panel 16 5 4 192 4 0))) = 8
  /\ restored_index (preferences (gridResolutionChanged 1 (Sample.panel 16 3 2 192 4 0))) = 7.
Proof.
  split.
  - destruct (chosen_entry_is_restored 8 (Sample.panel 16 5 4 192 4 0)) as (H & _).
    + cbn. tauto.
    + apply H. left. lia.
  - destruct (chosen_entry_is_restored 1 (Sample.panel 16 3 2 192 4 0)) as (_ & H & _).
    + cbn. tauto.
    + apply H; [lia|reflexivity].
Defined.

(** X7: a triplet entry of the resolution menu, index 6 to 9, sets the
    resolution 2^(index - 4), that is 4, 8, 16 or 32, and the tuplet ratio
    3:2 in the panel, in each of the seven editors and in the preferences,
    and writes "3:2" on the tuplet display.  The granularity becomes
    2^(11 - index) ticks, two thirds of the plain entry of that resolution.
    The pattern, the size display and the cursor index stay as they were. *)
Theorem gridResolutionChanged_triplets (nSelected : Z) (p : t) :
  6 <= nSelected <= 9 ->
  let p' := gridResolutionChanged nSelected p in
  Forall (fun ed => ed = PatternEditor.mk (2 ^ (nSelected - 4)) 3 2)
         (Editors.to_list (editors p'))
  /\ m_nResolution p' = 2 ^ (nSelected - 4)
  /\ m_nTupletNumerator p' = 3
  /\ m_nTupletDenominator p' = 2
  /\ preferences p' = Preferences.mk (2 ^ (nSelected - 4)) 3 2
  /\ m_pTupletLCD p' = "3:2"
  /\ granularity p' = F32.of_Z (2 ^ (11 - nSelected))
  /\ granularity (setTupletRatioToAllEditors 4 4 p') = F32.of_Z (3 * 2 ^ (10 - nSelected))
  /\ m_pPattern p' = m_pPattern p
  /\ pattern_size_LCD p' = pattern_size_LCD p
  /\ m_nCursorIndexPosition p' = m_nCursorIndexPosition p.
Proof.
  intros H. cbv zeta.
  assert (Hsel : nSelected = 6 \/ nSelected = 7 \/ nSelected = 8 \/ nSelected = 9) by lia.
  destruct p as [? ? ? ? ? ? ? ? ? eds ?]; destruct eds.
  destruct Hsel as [->|[->|[-> | ->]]];
    (split; [cbn; repeat constructor|]);
    repeat split; reflexivity.
Qed.

Lemma gridResolutionChanged_triplets_witness :
  m_nResolution (gridResolutionChanged 7 (Sample.panel 16 5 4 192 4 0)) = 2 ^ (7 - 4)
  /\ granularity (gridResolutionChanged 7 (Sample.panel 16 5 4 192 4 0))
     = F32.of_Z (2 ^ (11 - 7)).
Proof.
  destruct (gridResolutionChanged_triplets 7 (Sample.panel 16 5 4 192 4 0))
    as (_ & Hres & _ & _ & _ & _ & Hgran & _); [lia|].
  split; assumption.
Defined.

(** X8: on the resolution menu the last choice decides the resolution.
    Two choices in a row leave the panel exactly as the second alone would,
    except when a plain entry follows a triplet entry or "off": the plain
    entry then changes the resolution only, and the ratio 3:2 or 4:4 of the
    first choice stays in the panel, on the display and in the
    preferences.  In particular choosing an entry twice is choosing it
    once. *)
Theorem gridResolutionChanged_twice (first second : Z) (p : t) :
  In first selectable -> In second selectable ->
  let p1 := gridResolutionChanged first p in
  let p2 := gridResolutionChanged second p1 in
  m_nResolution p2 = m_nResolution (gridResolutionChanged second p)
  /\ (5 <= second \/ first <= 4 -> p2 = gridResolutionChanged second p)
  /\ (second <= 4 -> 5 <= first ->
      m_nTupletNumerator p2 = m_nTupletNumerator p1
      /\ m_nTupletDenominator p2 = m_nTupletDenominator p1
      /\ m_pTupletLCD p2 = m_pTupletLCD p1
      /\ Preferences.getPatternEditorGridTupletNumerator (preferences p2)
         = Preferences.getPatternEditorGridTupletNumerator (preferences p1)
      /\ Preferences.getPatternEditorGridTupletDenominator (preferences p2)
         = Preferences.getPatternEditorGridTupletDenominator (preferences p1)
      /\ (m_nTupletNumerator p1, m_nTupletDenominator p1)
         = (if first =? 11 then (4, 4) else (3, 2)))
  /\ gridResolutionChanged first p1 = p1.
Proof.
  intros Hfirst Hsecond. cbv zeta.
  assert (Hf : 0 <= first <= 11) by (cbn in Hfirst; lia).
  assert (Hs : 0 <= second <= 11 /\ second <> 5 /\ second <> 10) by (cbn in Hsecond; lia).
  assert (Hf' : 5 <= first -> (first =? 11) = false -> first <> 11 /\ In first [6; 7; 8; 9])
    by (intros ? E; apply Z.eqb_neq in E; cbn in Hfirst; cbn; lia).
  clear Hfirst Hsecond.
  unfold gridResolutionChanged.
  destruct (first =? 11) eqn:Ef11; [apply Z.eqb_eq in Ef11|];
    (destruct (4 <? first) eqn:Ef4; [apply Z.ltb_lt in Ef4|apply Z.ltb_ge in Ef4]);
    (destruct (second =? 11) eqn:Es11; [apply Z.eqb_eq in Es11|apply Z.eqb_neq in Es11]);
    (destruct (4 <? second) eqn:Es4; [apply Z.ltb_lt in Es4|apply Z.ltb_ge in Es4]);
    try lia;
    destruct p as [? ? ? ? ? ? ? ? ? eds pref]; destruct eds; destruct pref;
    cbv [setResolutionToAllEditors setTupletRatioToAllEditors with_tuplet_display
         with_preferences with_cursor_increment Editors.each Editors.setResolution
         Editors.setTupletRatio Preferences.setPatternEditorGridTupletRatio
         Preferences.setPatternEditorGridResolution
         m_pPattern pattern_size_LCD m_pDenominatorWarning m_pTupletLCD m_nResolution
         m_nTupletNumerator m_nTupletDenominator m_nCursorIndexPosition
         m_nCursorIncrement editors preferences
         Preferences.getPatternEditorGridResolution
         Preferences.getPatternEditorGridTupletNumerator
         Preferences.getPatternEditorGridTupletDenominator
         Editors.m_pDrumPatternEditor Editors.m_pPianoRollEditor
         Editors.m_pNoteVelocityEditor Editors.m_pNoteLeadLagEditor
         Editors.m_pNoteNoteKeyEditor Editors.m_pNoteProbabilityEditor
         Editors.m_pNotePanEditor
         PatternEditor.m_nResolution PatternEditor.m_nTupletNumerator
         PatternEditor.m_nTupletDenominator];
    (split; [reflexivity|]);
    (split; [intros; first [reflexivity | exfalso; lia]|]);
    (split; [intros; first [exfalso; lia | repeat split; reflexivity]|]);
    reflexivity.
Qed.

Lemma gridResolutionChanged_twice_witness :
  m_nResolution (gridResolutionChanged 1 (gridResolutionChanged 7 (Sample.panel 16 5 4 192 4 0)))
  = m_nResolution (gridResolutionChanged 1 (Sample.panel 16 5 4 192 4 0))
  /\ m_nTupletNumerator
       (gridResolutionChanged 1 (gridResolutionChanged 7 (Sample.panel 16 5 4 192 4 0)))
     = m_nTupletNumerator (gridResolutionChanged 7 (Sample.panel 16 5 4 192 4 0)).
Proof.
  destruct (gridResolutionChanged_twice 7 1 (Sample.panel 16 5 4 192 4 0))
    as (Hres & _ & Hkeep & _).
  - cbn. tauto.
  - cbn. tauto.
  - split; [exact Hres|]. apply Hkeep; lia.
Defined.
End MenuProperties.

(** ** What the handlers keep in step *)

Module SyncFacts.

Import Sync.

(** Every cursor operation changes the cursor index at most. *)
Lemma with_cursor_own (p : t) : with_cursor (m_nCursorIndexPosition p) p = p.
Proof. destruct p; reflexivity. Qed.

Lemma setCursorIndexPosition_with_cursor (nGridIndex : Z) (p : t) :
  exists index, setCursorIndexPosition nGridIndex p = with_cursor index p.
Proof.
  unfold setCursorIndexPosition.
  destruct (nGridIndex <? 0); [|destruct (F64.leb _ _)]; eexists; reflexivity.
Qed.

Lemma setCursorPosition_with_cursor (nColumn : Z) (p : t) :
  exists index, setCursorPosition nColumn p = with_cursor index p.
Proof.
  unfold setCursorPosition.
  destruct (nColumn <? 0); [|destruct (_ <=? nColumn)]; eexists; reflexivity.
Qed.

Lemma moveCursorLeft_with_cursor (p : t) :
  exists index, fst (moveCursorLeft p) = with_cursor index p.
Proof.
  unfold moveCursorLeft. cbn [fst].
  destruct (0 <? m_nCursorIndexPosition p); eexists;
    [reflexivity|symmetry; apply with_cursor_own].
Qed.

Lemma moveCursorRight_with_cursor (p : t) :
  exists index, fst (moveCursorRight p) = with_cursor index p.
Proof.
  unfold moveCursorRight. cbn [fst].
  destruct (F64.ltb _ _); eexists; [reflexivity|symmetry; apply with_cursor_own].
Qed.

Lemma grids_agree_with_cursor (index : Z) (p : t) :
  grids_agree p -> grids_agree (with_cursor index p).
Proof. destruct p; exact (fun H => H). Qed.

Lemma grids_agree_with_size (qt : QtText) (pat : Pattern.t) (p : t) :
  grids_agree p -> grids_agree (updatePatternSizeLCD (with_pattern pat p)).
Proof. destruct p; exact (fun H => H). Qed.

(** What agreement says member by member. *)
Lemma grids_agree_members (p : t) :
  grids_agree p ->
  editors p
  = Sample.editors (m_nResolution p) (m_nTupletNumerator p) (m_nTupletDenominator p)
  /\ preferences p
     = Preferences.mk (m_nResolution p) (m_nTupletNumerator p) (m_nTupletDenominator p).
Proof.
  intros [Heds Hpref]. split; [|exact Hpref].
  destruct p as [? ? ? ? ? ? ? ? ? eds ?]; destruct eds.
  unfold Editors.to_list in Heds. cbn in *.
  repeat match goal with
         | H : Forall _ (_ :: _) |- _ => inversion H; clear H; subst
         end.
  reflexivity.
Qed.

Lemma grids_agree_accept_tuplet (nTupletNumerator nTupletDenominator : Z) (p : t) :
  grids_agree p -> grids_agree (accept_tuplet nTupletNumerator nTupletDenominator p).
Proof.
  intros H. apply grids_agree_members in H. destruct H as [Heds Hpref].
  destruct p as [? ? ? ? ? ? ? ? ? eds pref]. cbn in Heds, Hpref. subst eds pref.
  split; [cbn; repeat constructor|reflexivity].
Qed.

Lemma grids_agree_set_by_menu (nSelected : Z) (p : t) :
  5 <= nSelected <= 11 -> grids_agree (gridResolutionChanged nSelected p).
Proof.
  intros H.
  assert (Hsel : nSelected = 5 \/ nSelected = 6 \/ nSelected = 7 \/ nSelected = 8
                 \/ nSelected = 9 \/ nSelected = 10 \/ nSelected = 11) by lia.
  destruct p as [? ? ? ? ? ? ? ? ? eds pref]; destruct eds; destruct pref.
  destruct Hsel as [->|[->|[->|[->|[->|[->| ->]]]]]];
    (split; [cbn; repeat constructor|reflexivity]).
Qed.

Lemma grids_agree_kept_by_menu (nSelected : Z) (p : t) :
  0 <= nSelected <= 4 -> grids_agree p -> grids_agree (gridResolutionChanged nSelected p).
Proof.
  intros H Hp. apply grids_agree_members in Hp. destruct Hp as [Heds Hpref].
  assert (Hsel : nSelected = 0 \/ nSelected = 1 \/ nSelected = 2 \/ nSelected = 3
                 \/ nSelected = 4) by lia.
  destruct p as [? ? ? ? ? ? ? ? ? eds pref]. cbn in Heds, Hpref. subst eds pref.
  destruct Hsel as [->|[->|[->|[-> | ->]]]];
    (split; [cbn; repeat constructor|reflexivity]).
Qed.

Lemma size_shown_with_cursor (qt : QtText) (index : Z) (p : t) :
  size_shown p -> size_shown (with_cursor index p).
Proof. destruct p; exact (fun H => H). Qed.

Lemma tuplet_shown_with_cursor (index : Z) (p : t) :
  tuplet_shown p -> tuplet_shown (with_cursor index p).
Proof. destruct p; exact (fun H => H). Qed.

Lemma size_shown_updated (qt : QtText) (p : t) : size_shown (updatePatternSizeLCD p).
Proof. destruct p; split; reflexivity. Qed.

Lemma tuplet_shown_with_size (qt : QtText) (pat : Pattern.t) (p : t) :
  tuplet_shown p -> tuplet_shown (updatePatternSizeLCD (with_pattern pat p)).
Proof. destruct p; exact (fun H => H). Qed.

Lemma size_shown_accept_tuplet (qt : QtText) (nTupletNumerator nTupletDenominator : Z) (p : t) :
  size_shown p -> size_shown (accept_tuplet nTupletNumerator nTupletDenominator p).
Proof. destruct p; exact (fun H => H). Qed.

Lemma tuplet_shown_accept_tuplet (nTupletNumerator nTupletDenominator : Z) (p : t) :
  tuplet_shown (accept_tuplet nTupletNumerator nTupletDenominator p).
Proof. destruct p; left; reflexivity. Qed.

Lemma size_shown_menu (qt : QtText) (nSelected : Z) (p : t) :
  size_shown p -> size_shown (gridResolutionChanged nSelected p).
Proof.
  unfold size_shown.
  pose proof (MenuFacts.gridResolutionChanged_frame nSelected p) as (-> & -> & -> & _).
  exact (fun H => H).
Qed.

Lemma tuplet_shown_menu (nSelected : Z) (p : t) :
  tuplet_shown p -> tuplet_shown (gridResolutionChanged nSelected p).
Proof.
  unfold gridResolutionChanged.
  destruct (nSelected =? 11); [|destruct (4 <? nSelected)];
    destruct p; try (intros _; left; reflexivity).
  exact (fun H => H).
Qed.

(** The state a run of the pattern size dialog leaves: the one it found, or
    the one with the new pattern and its display. *)
Lemma patternSizeLCDClicked_state
      (qt : QtText) (bReady bIsOkPressed : bool) (qtmp : string) (p : t) :
  fst (patternSizeLCDClicked bReady bIsOkPressed qtmp p) = p
  \/ exists pat,
      fst (patternSizeLCDClicked bReady bIsOkPressed qtmp p)
      = updatePatternSizeLCD (with_pattern pat p).
Proof.
  destruct (patternSizeLCDClicked_cases bReady bIsOkPressed qtmp p)
    as [H|[H|[H|[H|[H|(fNumerator & nDenominator & H)]]]]];
    cbv zeta in H; rewrite H; try (left; reflexivity).
  right. eexists. reflexivity.
Qed.

(** The state a run of the tuplet dialog leaves. *)
Lemma tupletLCDClicked_state
      (qt : QtText) (bIsOkPressed : bool) (qtmp : string) (p p' : t) (msgs : list Message) :
  tupletLCDClicked bIsOkPressed qtmp p = Some (p', msgs) ->
  p' = p \/ exists nNum nDen, p' = accept_tuplet nNum nDen p.
Proof.
  intros Hrun.
  destruct (tupletLCDClicked_cases bIsOkPressed qtmp p)
    as [H|[H|[H|[H|[H|(nNum & nDen & _ & H)]]]]];
    cbv zeta in H; rewrite H in Hrun; try discriminate;
    injection Hrun as <- _; [left; reflexivity ..|].
  right. exists nNum, nDen. reflexivity.
Qed.

End SyncFacts.

(** X9: the panel, its seven editors and the preferences keep the same grid.
    If they hold the same resolution and the same tuplet ratio, they still
    do after any entry of the resolution menu, after any run of the tuplet
    dialog or of the pattern size dialog, and after any cursor operation.
    The entries 5 to 11 of the menu bring them into agreement from any
    state, since they write resolution and ratio everywhere. *)
Theorem grids_stay_in_agreement (qt : QtText) (p : t) :
  Sync.grids_agree p ->
  (forall nSelected,
      0 <= nSelected <= 11 -> Sync.grids_agree (gridResolutionChanged nSelected p))
  /\ (forall bIsOkPressed qtmp p' msgs,
         tupletLCDClicked bIsOkPressed qtmp p = Some (p', msgs) -> Sync.grids_agree p')
  /\ (forall bReady bIsOkPressed qtmp,
         Sync.grids_agree (fst (patternSizeLCDClicked bReady bIsOkPressed qtmp p)))
  /\ (forall nGridIndex, Sync.grids_agree (setCursorIndexPosition nGridIndex p))
  /\ (forall nColumn, Sync.grids_agree (setCursorPosition nColumn p))
  /\ Sync.grids_agree (fst (moveCursorLeft p))
  /\ Sync.grids_agree (fst (moveCursorRight p))
  /\ (forall nSelected q,
         5 <= nSelected <= 11 -> Sync.grids_agree (gridResolutionChanged nSelected q)).
Proof.
  intros Hp.
  split; [|split; [|split; [|split; [|split; [|split; [|split]]]]]].
  - intros nSelected H. destruct (Z_le_gt_dec nSelected 4).
    + apply SyncFacts.grids_agree_kept_by_menu; [lia|exact Hp].
    + apply SyncFacts.grids_agree_set_by_menu. lia.
  - intros bIsOkPressed qtmp p' msgs Hrun.
    destruct (SyncFacts.tupletLCDClicked_state qt bIsOkPressed qtmp p p' msgs Hrun)
      as [->|(nNum & nDen & ->)]; [exact Hp|].
    apply SyncFacts.grids_agree_accept_tuplet. exact Hp.
  - intros bReady bIsOkPressed qtmp.
    destruct (SyncFacts.patternSizeLCDClicked_state qt bReady bIsOkPressed qtmp p)
      as [->|(pat & ->)]; [exact Hp|].
    apply SyncFacts.grids_agree_with_size. exact Hp.
  - intros n. destruct (SyncFacts.setCursorIndexPosition_with_cursor n p) as [k ->].
    apply SyncFacts.grids_agree_with_cursor. exact Hp.
  - intros n. destruct (SyncFacts.setCursorPosition_with_cursor n p) as [k ->].
    apply SyncFacts.grids_agree_with_cursor. exact Hp.
  - destruct (SyncFacts.moveCursorLeft_with_cursor p) as [k ->].
    apply SyncFacts.grids_agree_with_cursor. exact Hp.
  - destruct (SyncFacts.moveCursorRight_with_cursor p) as [k ->].
    apply SyncFacts.grids_agree_with_cursor. exact Hp.
  - intros nSelected q H. apply SyncFacts.grids_agree_set_by_menu. exact H.
Qed.

Lemma grids_stay_in_agreement_witness :
  Sync.grids_agree (gridResolutionChanged 2 (Sample.panel 16 5 4 192 4 0))
  /\ Sync.grids_agree (fst (moveCursorRight (Sample.panel 16 5 4 192 4 0))).
Proof.
  destruct (grids_stay_in_agreement Sample.text (Sample.panel 16 5 4 192 4 0))
    as (Hmenu & _ & _ & _ & _ & _ & Hright & _).
  - split; [cbn; repeat constructor|reflexivity].
  - split; [apply Hmenu; lia|exact Hright].
Defined.

(** X10: the two displays keep showing what the panel holds.  If the size
    display and the warning icon show the pattern of the panel, and the
    tuplet display shows its tuplet ratio ("off" standing for 4:4), then
    they still do after any entry of the resolution menu, any run of either
    dialog, accepted or refused, and any cursor operation.
    [updatePatternSizeLCD] makes the size display right from any state. *)
Theorem displays_keep_showing_the_panel (qt : QtText) (p : t) :
  Sync.size_shown p -> Sync.tuplet_shown p ->
  (forall nSelected,
      Sync.size_shown (gridResolutionChanged nSelected p)
      /\ Sync.tuplet_shown (gridResolutionChanged nSelected p))
  /\ (forall bIsOkPressed qtmp p' msgs,
         tupletLCDClicked bIsOkPressed qtmp p = Some (p', msgs) ->
         Sync.size_shown p' /\ Sync.tuplet_shown p')
  /\ (forall bReady bIsOkPressed qtmp,
         Sync.size_shown (fst (patternSizeLCDClicked bReady bIsOkPressed qtmp p))
         /\ Sync.tuplet_shown (fst (patternSizeLCDClicked bReady bIsOkPressed qtmp p)))
  /\ (forall nGridIndex,
         Sync.size_shown (setCursorIndexPosition nGridIndex p)
         /\ Sync.tuplet_shown (setCursorIndexPosition nGridIndex p))
  /\ (forall nColumn,
         Sync.size_shown (setCursorPosition nColumn p)
         /\ Sync.tuplet_shown (setCursorPosition nColumn p))
  /\ (Sync.size_shown (fst (moveCursorLeft p)) /\ Sync.tuplet_shown (fst (moveCursorLeft p)))
  /\ (Sync.size_shown (fst (moveCursorRight p)) /\ Sync.tuplet_shown (fst (moveCursorRight p)))
  /\ (forall q, Sync.size_shown (updatePatternSizeLCD q)).
Proof.
  intros Hsize Htuplet.
  split; [|split; [|split; [|split; [|split; [|split; [|split]]]]]].
  - intros nSelected. split.
    + apply SyncFacts.size_shown_menu. exact Hsize.
    + apply SyncFacts.tuplet_shown_menu. exact Htuplet.
  - intros bIsOkPressed qtmp p' msgs Hrun.
    destruct (SyncFacts.tupletLCDClicked_state qt bIsOkPressed qtmp p p' msgs Hrun)
      as [->|(nNum & nDen & ->)]; [split; assumption|].
    split.
    + apply SyncFacts.size_shown_accept_tuplet. exact Hsize.
    + apply SyncFacts.tuplet_shown_accept_tuplet.
  - intros bReady bIsOkPressed qtmp.
    destruct (SyncFacts.patternSizeLCDClicked_state qt bReady bIsOkPressed qtmp p)
      as [->|(pat & ->)]; [split; assumption|].
    split.
    + apply SyncFacts.size_shown_updated.
    + apply SyncFacts.tuplet_shown_with_size. exact Htuplet.
  - intros n. destruct (SyncFacts.setCursorIndexPosition_with_cursor n p) as [k ->].
    split; [apply SyncFacts.size_shown_with_cursor|apply SyncFacts.tuplet_shown_with_cursor];
      assumption.
  - intros n. destruct (SyncFacts.setCursorPosition_with_cursor n p) as [k ->].
    split; [apply SyncFacts.size_shown_with_cursor|apply SyncFacts.tuplet_shown_with_cursor];
      assumption.
  - destruct (SyncFacts.moveCursorLeft_with_cursor p) as [k ->].
    split; [apply SyncFacts.size_shown_with_cursor|apply SyncFacts.tuplet_shown_with_cursor];
      assumption.
  - destruct (SyncFacts.moveCursorRight_with_cursor p) as [k ->].
    split; [apply SyncFacts.size_shown_with_cursor|apply SyncFacts.tuplet_shown_with_cursor];
      assumption.
  - intros q. apply SyncFacts.size_shown_updated.
Qed.

Lemma displays_keep_showing_the_panel_witness :
  @Sync.size_shown Sample.text
    (fst (@patternSizeLCDClicked Sample.text true true "3/8" (Sample.panel 16 4 4 192 4 0)))
  /\ Sync.tuplet_shown (gridResolutionChanged 7 (Sample.panel 16 4 4 192 4 0)).
Proof.
  destruct (displays_keep_showing_the_panel Sample.text (Sample.panel 16 4 4 192 4 0))
    as (Hmenu & _ & Hsize & _).
  - split; reflexivity.
  - right. repeat split; reflexivity.
  - split; [apply Hsize|apply Hmenu].
Defined.

(** ** The warning icon *)

Module WarningFacts.

Import DenominatorWarning.

Lemma listed_spec (nDen : Z) : listed nDen = true <-> In nDen supported_values.
Proof.
  unfold listed. rewrite existsb_exists. split.
  - intros (d & Hin & Heq). apply Z.eqb_eq in Heq. subst. exact Hin.
  - intros Hin. exists nDen. split; [exact Hin|apply Z.eqb_refl].
Qed.

Lemma divisors_listed_upto :
  forallb (fun nDen => Bool.eqb (Z.rem 192 nDen =? 0) (listed nDen))
          (Exhaustive.range 1 192) = true.
Proof. vm_compute. reflexivity. Qed.

(** The positive denominators that divide 192 are the fourteen listed. *)
Lemma divides_iff_listed (nDen : Z) :
  0 < nDen -> (CInt.rem MAX_NOTES nDen =? 0) = listed nDen.
Proof.
  intros Hpos. unfold CInt.rem, MAX_NOTES.
  destruct (Z_le_gt_dec nDen 192) as [Hle|Hgt].
  - pose proof (DisplayFacts.forallb_range _ 1 192 divisors_listed_upto nDen ltac:(lia)) as H.
    apply Bool.eqb_prop in H. exact H.
  - rewrite Z.rem_small by lia.
    assert (Hno : listed nDen = false).
    { apply not_true_is_false. rewrite listed_spec. cbn. lia. }
    rewrite Hno. reflexivity.
Qed.

End WarningFacts.

Section WarningProperties.

Import DenominatorWarning.

(** X11: the warning icon agrees with its own explanation.  The box
    [denominatorWarningClicked] opens ends on the list of supported note
    values 1/1, 1/2, 1/3, 1/4, 1/6, 1/8, 1/12, 1/16, 1/24, 1/32, 1/48,
    1/64, 1/96, 1/192.  For a pattern with a positive denominator
    [updatePatternSizeLCD] hides the icon exactly when the denominator is
    one of these fourteen, and whenever the pattern size dialog announces
    that 1/d notes are not supported, the pattern has received the
    denominator d, the icon is shown, and d is not on the list. *)
Theorem warning_icon_agrees_with_its_explanation (qt : QtText) (p : t) :
  denominatorWarningClicked
  = ("Hydrogen can only represent notes as small as 1/192 of a whole note, "
       ++ "so note values must be multiple of this."
       ++ String "010" "Supported values are: "
       ++ note_values supported_values)%string
  /\ (0 < Pattern.get_denominator (m_pPattern p) ->
      (m_pDenominatorWarning (updatePatternSizeLCD p) = false
       <-> In (Pattern.get_denominator (m_pPattern p)) supported_values))
  /\ (forall bReady bIsOkPressed qtmp nDenominator,
         let run := patternSizeLCDClicked bReady bIsOkPressed qtmp p in
         In (LengthNotSupported nDenominator) (snd run) ->
         Pattern.get_denominator (m_pPattern (fst run)) = nDenominator
         /\ m_pDenominatorWarning (fst run) = true
         /\ ~ In nDenominator supported_values).
Proof.
  split; [reflexivity|]. split.
  - intros Hpos.
    rewrite <- WarningFacts.listed_spec, <- (WarningFacts.divides_iff_listed _ Hpos).
    destruct p as [pat ? ? ? ? ? ? ? ? ? ?]. cbn.
    destruct (CInt.rem MAX_NOTES (Pattern.get_denominator pat) =? 0); cbn;
      split; congruence.
  - intros bReady bIsOkPressed qtmp nDenominator run Hin. subst run.
    destruct (patternSizeLCDClicked_cases bReady bIsOkPressed qtmp p)
      as [H|[H|[H|[H|[H|(fNumerator & nDen & H)]]]]];
      cbv zeta in H; rewrite H in *; cbn [snd] in Hin;
      try (destruct Hin as [Hin|[]]; discriminate);
      try (destruct Hin as []).
    unfold accept in *. cbn [fst snd] in *.
    destruct (CInt.rem MAX_NOTES nDen =? 0) eqn:Erem.
    + exfalso. cbn [app] in Hin.
      destruct (displayedNum_x1000 _ _ =? _); cbn in Hin;
        [destruct Hin|destruct Hin as [Hin|[]]; discriminate].
    + assert (Hd : nDen = nDenominator).
      { cbn [app] in Hin. destruct Hin as [Hin|Hin]; [congruence|].
        destruct (displayedNum_x1000 _ _ =? _); cbn in Hin;
          [destruct Hin|destruct Hin as [Hin|[]]; discriminate]. }
      subst nDen. split; [destruct p; reflexivity|]. split.
      * destruct p; cbn. rewrite Erem. reflexivity.
      * intros Hlisted.
        assert (Hpos : 0 < nDenominator)
          by (unfold supported_values in Hlisted; cbn [In] in Hlisted; lia).
        apply WarningFacts.listed_spec in Hlisted.
        rewrite <- (WarningFacts.divides_iff_listed _ Hpos) in Hlisted. congruence.
Qed.

End WarningProperties.

(** ** The note property views *)

Section NotePropertiesProperties.

Import NoteProperties.

(** X12: [propertiesComboChanged] with an entry 0 to 4 of the properties
    menu leaves exactly one of the five note property views visible,
    whatever was visible before: the view of the entry chosen (velocity,
    pan, lead and lag, note key, probability, in the order of the menu),
    and it is the editor of that view that is updated.  Any other value
    shows and hides nothing and is logged as unhandled. *)
Theorem propertiesComboChanged_shows_one_view (nSelected : Z) (v : NoteProperties.t) :
  let '(v', updated, log) := propertiesComboChanged nSelected v in
  (0 <= nSelected <= 4 ->
   exists mode,
     nth_error (map snd pPropertiesCombo) (Z.to_nat nSelected) = Some mode
     /\ updated = Some mode
     /\ log = []
     /\ forall other, view other v' = Mode_eqb other mode)
  /\ (nSelected < 0 \/ 4 < nSelected ->
      v' = v /\ updated = None /\ log = [unhandled_value nSelected]).
Proof.
  unfold propertiesComboChanged.
  repeat match goal with
         | |- context [nSelected =? ?k] =>
             destruct (Z.eqb_spec nSelected k); [subst nSelected|]
         end;
    (split; [intros H|intros H; try lia]);
    try (eexists; split; [reflexivity|]; split; [reflexivity|]; split; [reflexivity|];
         intros other; destruct other, v; reflexivity);
    try lia.
  repeat split; reflexivity.
Qed.

End NotePropertiesProperties.

(** ** The selected pattern *)

Module SelectedPatternFacts.

Lemma to_uint_nonneg (z : Z) : 0 <= z <= CInt.INT_MAX -> CInt.to_uint z = z.
Proof.
  unfold CInt.to_uint, CInt.INT_MAX. change (2 ^ 31) with 2147483648.
  change (2 ^ 32) with 4294967296. intros H. apply Z.mod_small. lia.
Qed.

Lemma to_uint_negative (z : Z) : CInt.INT_MIN <= z < 0 -> CInt.to_uint z = z + 2 ^ 32.
Proof.
  unfold CInt.to_uint, CInt.INT_MIN. change (2 ^ 31) with 2147483648.
  change (2 ^ 32) with 4294967296. intros H.
  replace z with (z + 4294967296 + (-1) * 4294967296) at 1 by lia.
  rewrite Z_mod_plus_full. apply Z.mod_small. lia.
Qed.

End SelectedPatternFacts.

Section SelectedPatternProperties.

Import SelectedPattern.

(** X13: [selectedPatternChangedEvent] never reads the pattern list outside
    its bounds.  For a pattern number within the list it points the panel
    to that pattern, writes its name on the label and into the window
    title, and the size display shows the length of that pattern.  For -1
    and every other number outside the list, the negative ones included,
    the panel points to no pattern, the label reads "No pattern selected",
    and the size display keeps what it showed. *)
Theorem selectedPatternChangedEvent_stays_within_the_list
        (qt : QtText) (pPatternList : list Named) (nSelectedPatternNumber : Z)
        (s : SelectedPattern.t) :
  CInt.is_int nSelectedPatternNumber ->
  Z.of_nat (List.length pPatternList) <= CInt.INT_MAX ->
  exists s',
    selectedPatternChangedEvent pPatternList nSelectedPatternNumber s = Some s'
    /\ (0 <= nSelectedPatternNumber < Z.of_nat (List.length pPatternList) ->
        exists pat,
          nth_error pPatternList (Z.to_nat nSelectedPatternNumber) = Some pat
          /\ SelectedPattern.m_pPattern s' = Some pat
          /\ m_pPatternNameLbl s' = get_name pat
          /\ windowTitle s' = ("Pattern editor - " ++ get_name pat)%string
          /\ PatternEditorPanel.m_pPattern (panel s') = pattern pat
          /\ pattern_size_LCD (panel s')
             = size_text (Pattern.get_length (pattern pat))
                         (Pattern.get_denominator (pattern pat)))
    /\ (nSelectedPatternNumber < 0
        \/ Z.of_nat (List.length pPatternList) <= nSelectedPatternNumber ->
        SelectedPattern.m_pPattern s' = None
        /\ m_pPatternNameLbl s' = "No pattern selected"
        /\ panel s' = panel s).
Proof.
  intros Hint Hsize. unfold selectedPatternChangedEvent.
  rewrite (SelectedPatternFacts.to_uint_nonneg (Z.of_nat (List.length pPatternList)))
    by lia.
  unfold CInt.is_int, CInt.INT_MIN, CInt.INT_MAX in *.
  change (2 ^ 31) with 2147483648 in *.
  destruct (Z_lt_ge_dec nSelectedPatternNumber 0) as [Hneg|Hnonneg].
  - rewrite SelectedPatternFacts.to_uint_negative
      by (unfold CInt.INT_MIN; change (2 ^ 31) with 2147483648; lia).
    change (2 ^ 32) with 4294967296.
    replace (nSelectedPatternNumber + 4294967296 <? Z.of_nat (List.length pPatternList))
      with false by (symmetry; apply Z.ltb_ge; lia).
    rewrite andb_false_r. eexists. split; [reflexivity|]. split.
    + intros H. lia.
    + intros _. repeat split; reflexivity.
  - rewrite SelectedPatternFacts.to_uint_nonneg
      by (unfold CInt.INT_MAX; change (2 ^ 31) with 2147483648; lia).
    replace (nSelectedPatternNumber =? -1) with false by (symmetry; apply Z.eqb_neq; lia).
    cbn [negb andb].
    destruct (nSelectedPatternNumber <? Z.of_nat (List.length pPatternList)) eqn:E.
    + apply Z.ltb_lt in E. unfold get.
      replace (nSelectedPatternNumber <? 0) with false by (symmetry; apply Z.ltb_ge; lia).
      destruct (nth_error pPatternList (Z.to_nat nSelectedPatternNumber)) as [pat|] eqn:Enth.
      * eexists. split; [reflexivity|]. split.
        -- intros _. exists pat. cbn [SelectedPattern.m_pPattern m_pPatternNameLbl
                                         windowTitle panel].
           repeat split; try reflexivity; destruct (panel s); reflexivity.
        -- intros H. lia.
      * exfalso. apply nth_error_None in Enth. lia.
    + apply Z.ltb_ge in E. eexists. split; [reflexivity|]. split.
      * intros H. lia.
      * intros _. repeat split; reflexivity.
Qed.

Lemma selectedPatternChangedEvent_stays_within_the_list_witness :
  exists s',
    @selectedPatternChangedEvent Sample.text
      [mkNamed "Pattern 1" (Pattern.mk 192 4); mkNamed "Pattern 2" (Pattern.mk 72 8)] (-2)
      (SelectedPattern.mk None "" "" (Sample.panel 16 4 4 192 4 0)) = Some s'
    /\ SelectedPattern.m_pPattern s' = None.
Proof.
  destruct (selectedPatternChangedEvent_stays_within_the_list Sample.text
              [mkNamed "Pattern 1" (Pattern.mk 192 4); mkNamed "Pattern 2" (Pattern.mk 72 8)]
              (-2) (SelectedPattern.mk None "" "" (Sample.panel 16 4 4 192 4 0)))
    as (s' & Hrun & _ & Hout).
  - unfold CInt.is_int, CInt.INT_MIN, CInt.INT_MAX. cbn. lia.
  - unfold CInt.INT_MAX. cbn. lia.
  - exists s'. split; [exact Hrun|]. apply Hout. left. lia.
Defined.
End SelectedPatternProperties.

(** ** More on the two dialogs *)

Module LimitFacts.

(** With OK pressed on a changed text, a run of the tuplet dialog that
    opens no box has stored a ratio within the limits of the dialog. *)
Lemma tupletLCDClicked_accepted_limits (qt : QtText) (qtmp : string) (p p' : t) :
  m_pTupletLCD p <> qtmp ->
  tupletLCDClicked true qtmp p = Some (p', []) ->
  exists nNum nDen,
    0 < nNum <= 20 /\ 0 < nDen <= MAX_NOTES /\ p' = accept_tuplet nNum nDen p.
Proof.
  intros Htext. unfold tupletLCDClicked. cbn [negb].
  apply String.eqb_neq in Htext. rewrite Htext.
  destruct (_ || _); [|discriminate].
  destruct (toInt_ok _) as [nNum bOk0].
  assert (Hfinish : forall nDen bOk,
             (bOk = true -> 0 < nNum <= 20 -> 0 < nDen <= MAX_NOTES) ->
             (if bOk && (0 <? nNum)
              then if 20 <? nNum then Some (p, [TupletNumeratorTooBig])
                   else Some (accept_tuplet nNum nDen p, [])
              else Some (p, [TextRejected])) = Some (p', []) ->
             exists nNum' nDen',
               0 < nNum' <= 20 /\ 0 < nDen' <= MAX_NOTES
               /\ p' = accept_tuplet nNum' nDen' p).
  { intros nDen bOk Hden.
    destruct (bOk && (0 <? nNum)) eqn:E; [|discriminate].
    apply andb_true_iff in E. destruct E as [Eok E]. apply Z.ltb_lt in E.
    destruct (20 <? nNum) eqn:E20; [discriminate|].
    apply Z.ltb_ge in E20. intros H. injection H as <-.
    exists nNum, nDen. split; [lia|]. split; [apply Hden; [exact Eok|lia]|reflexivity]. }
  destruct (bOk0 && _).
  - destruct (toInt_ok _) as [n b].
    destruct (b && ((n <=? 0) || (MAX_NOTES <? n))) eqn:Eref; [discriminate|].
    apply Hfinish. intros -> _. cbn [andb] in Eref.
    apply orb_false_iff in Eref. destruct Eref as [E1 E2].
    apply Z.leb_gt in E1. apply Z.ltb_ge in E2. lia.
  - destruct (standard_denominator nNum) as [n|] eqn:Estd; [|discriminate].
    apply Hfinish. intros _ Hrange.
    rewrite TupletFacts.standard_denominator_pow2 in Estd
      by (change (2 ^ 30) with 1073741824; lia).
    injection Estd as <-.
    pose proof (TupletFacts.log2_largest nNum ltac:(lia)) as [Hpow _].
    assert (0 < 2 ^ Z.log2 nNum) by (apply Z.pow_pos_nonneg; [lia|apply Z.log2_nonneg]).
    unfold MAX_NOTES. lia.
Qed.

Lemma accept_tuplet_members (nNum nDen : Z) (p : t) :
  let p' := accept_tuplet nNum nDen p in
  m_nTupletNumerator p' = nNum
  /\ m_nTupletDenominator p' = nDen
  /\ m_nResolution p' = m_nResolution p
  /\ Preferences.getPatternEditorGridTupletNumerator (preferences p') = nNum
  /\ Preferences.getPatternEditorGridTupletDenominator (preferences p') = nDen
  /\ Forall (fun ed => PatternEditor.m_nTupletNumerator ed = nNum
                       /\ PatternEditor.m_nTupletDenominator ed = nDen)
            (Editors.to_list (editors p')).
Proof.
  destruct p as [? ? ? ? ? ? ? ? ? eds ?]; destruct eds.
  cbn. repeat split; repeat constructor.
Qed.

End LimitFacts.

(** X14: every ratio the tuplet dialog accepts is within its limits.  After
    an accepted input the numerator is between 1 and 20 and the denominator
    between 1 and 192, in the panel, in each editor and in the preferences;
    the resolution is untouched.  So at any resolution from 1 to 192 the
    granularity of the new grid is positive and is the [float] nearest to
    192 * den / (num * resolution). *)
Theorem accepted_tuplet_is_within_limits (qt : QtText) (qtmp : string) (p p' : t) :
  m_pTupletLCD p <> qtmp ->
  tupletLCDClicked true qtmp p = Some (p', []) ->
  0 < m_nTupletNumerator p' <= 20
  /\ 0 < m_nTupletDenominator p' <= 192
  /\ m_nResolution p' = m_nResolution p
  /\ Preferences.getPatternEditorGridTupletNumerator (preferences p') = m_nTupletNumerator p'
  /\ Preferences.getPatternEditorGridTupletDenominator (preferences p')
     = m_nTupletDenominator p'
  /\ Forall (fun ed => PatternEditor.m_nTupletNumerator ed = m_nTupletNumerator p'
                       /\ PatternEditor.m_nTupletDenominator ed = m_nTupletDenominator p')
            (Editors.to_list (editors p'))
  /\ (0 < m_nResolution p <= 192 ->
      SFltb (S754_zero false) (granularity p') = true
      /\ IEEE.nearest_to_quotient F32.prec (granularity p')
           (192 * m_nTupletDenominator p') (m_nTupletNumerator p' * m_nResolution p')).
Proof.
  intros Htext Hrun.
  destruct (LimitFacts.tupletLCDClicked_accepted_limits qt qtmp p p' Htext Hrun)
    as (nNum & nDen & Hnum & Hden & ->).
  pose proof (LimitFacts.accept_tuplet_members nNum nDen p) as Hm. cbv zeta in Hm.
  destruct Hm as (En & Ed & Er & Epn & Epd & Heds).
  rewrite En, Ed, Er, Epn, Epd. unfold MAX_NOTES in Hden.
  split; [exact Hnum|]. split; [exact Hden|]. split; [reflexivity|].
  split; [reflexivity|]. split; [reflexivity|]. split; [exact Heds|].
  intros Hres. unfold granularity. rewrite En, Ed, Er. split.
  - apply GranularityFacts.granularity_positive;
      cbn [PatternEditor.m_nResolution PatternEditor.m_nTupletNumerator
           PatternEditor.m_nTupletDenominator];
      unfold CInt.UINT_MAX, CInt.INT_MAX;
      change (2 ^ 32) with 4294967296; change (2 ^ 31) with 2147483648; lia.
  - apply (GranularityFacts.granularity_nearest
             (PatternEditor.mk (m_nResolution p) nNum nDen));
      cbn [PatternEditor.m_nResolution PatternEditor.m_nTupletNumerator
           PatternEditor.m_nTupletDenominator];
      unfold MAX_NOTES; change (2 ^ 24) with 16777216; nia.
Qed.

Lemma accepted_tuplet_is_within_limits_witness :
  let p' := accept_tuplet 7 4 (Sample.panel 16 4 4 192 4 0) in
  0 < m_nTupletNumerator p' <= 20
  /\ 0 < m_nTupletDenominator p' <= 192
  /\ m_nResolution p' = 16.
Proof.
  destruct (accepted_tuplet_is_within_limits Sample.text "7" (Sample.panel 16 4 4 192 4 0)
              (accept_tuplet 7 4 (Sample.panel 16 4 4 192 4 0)))
    as (Hn & Hd & Hr & _).
  - vm_compute. discriminate.
  - reflexivity.
  - cbv zeta. split; [exact Hn|]. split; [exact Hd|exact Hr].
Defined.

(** ** Separators *)

Module SplitFacts.

Lemma split_without (sep : ascii) (s : string) :
  Qt.contains sep s = false -> QString.split sep s = [s].
Proof.
  induction s as [|c s IH]; [reflexivity|].
  cbn. intros H. apply orb_false_iff in H. destruct H as [Hc Hs].
  rewrite Hc, (IH Hs). reflexivity.
Qed.

Lemma split_at (sep : ascii) (a b : string) :
  Qt.contains sep a = false ->
  QString.split sep (a ++ String sep b) = a :: QString.split sep b.
Proof.
  induction a as [|c a IH]; intros H.
  - cbn. rewrite Ascii.eqb_refl. reflexivity.
  - cbn in H. apply orb_false_iff in H. destruct H as [Hc Ha].
    cbn. rewrite Hc, (IH Ha). reflexivity.
Qed.

Lemma replace_twice (before after : ascii) (s : string) :
  Ascii.eqb after before = false ->
  QString.replace before after (QString.replace before after s)
  = QString.replace before after s.
Proof.
  intros H. induction s as [|c s IH]; [reflexivity|].
  cbn. rewrite IH. destruct (Ascii.eqb c before) eqn:E; [rewrite H|rewrite E]; reflexivity.
Qed.

Lemma replace_contains (before after sep : ascii) (s : string) :
  Ascii.eqb after sep = false ->
  Qt.contains sep s = false ->
  Qt.contains sep (QString.replace before after s) = false.
Proof.
  intros H. induction s as [|c s IH]; [reflexivity|].
  cbn. intros Hs. apply orb_false_iff in Hs. destruct Hs as [Hc Hs].
  rewrite (IH Hs). destruct (Ascii.eqb c before); [rewrite H|rewrite Hc]; reflexivity.
Qed.

End SplitFacts.

(** X15: the pattern size dialog reads a comma in the numerator as a
    decimal point.  A text "n/d", or "n" alone, and the same text with
    every comma of n turned into a point have the same outcome, the same
    state and the same boxes, provided neither is the text the display
    already shows (that one is taken as unchanged and ignored). *)
Theorem comma_is_read_as_point
        (qt : QtText) (bReady bIsOkPressed : bool) (sNum sDen : string) (p : t) :
  Qt.contains "/" sNum = false ->
  Qt.contains "/" sDen = false ->
  let pointed := QString.replace "," "." sNum in
  (pattern_size_LCD p <> (sNum ++ "/" ++ sDen)%string ->
   pattern_size_LCD p <> (pointed ++ "/" ++ sDen)%string ->
   patternSizeLCDClicked bReady bIsOkPressed (sNum ++ "/" ++ sDen) p
   = patternSizeLCDClicked bReady bIsOkPressed (pointed ++ "/" ++ sDen) p)
  /\ (pattern_size_LCD p <> sNum ->
      pattern_size_LCD p <> pointed ->
      patternSizeLCDClicked bReady bIsOkPressed sNum p
      = patternSizeLCDClicked bReady bIsOkPressed pointed p).
Proof.
  intros Hnum Hden. cbv zeta.
  assert (Hpointed : Qt.contains "/" (QString.replace "," "." sNum) = false)
    by (apply SplitFacts.replace_contains; [reflexivity|exact Hnum]).
  split.
  - intros H1 H2. unfold patternSizeLCDClicked.
    apply String.eqb_neq in H1, H2. rewrite H1, H2.
    change (sNum ++ "/" ++ sDen)%string with (sNum ++ String "/" sDen)%string.
    change (QString.replace "," "." sNum ++ "/" ++ sDen)%string
      with (QString.replace "," "." sNum ++ String "/" sDen)%string.
    rewrite !SplitFacts.split_at by assumption.
    rewrite (SplitFacts.split_without "/" sDen Hden).
    cbn [nth List.length]. rewrite SplitFacts.replace_twice by reflexivity.
    reflexivity.
  - intros H1 H2. unfold patternSizeLCDClicked.
    apply String.eqb_neq in H1, H2. rewrite H1, H2.
    rewrite !SplitFacts.split_without by assumption.
    cbn [nth List.length]. rewrite SplitFacts.replace_twice by reflexivity.
    reflexivity.
Qed.

Lemma comma_is_read_as_point_witness :
  @patternSizeLCDClicked Sample.text true true "1,5/4" (Sample.panel 16 4 4 192 4 0)
  = @patternSizeLCDClicked Sample.text true true "1.5/4" (Sample.panel 16 4 4 192 4 0).
Proof.
  destruct (comma_is_read_as_point Sample.text true true "1,5" "4"
              (Sample.panel 16 4 4 192 4 0)) as (H & _).
  - reflexivity.
  - reflexivity.
  - apply H; vm_compute; discriminate.
Defined.

(** ** Stepping the cursor *)

(** X16: [moveCursorLeft] undoes [moveCursorRight].  Whenever
    [moveCursorRight] moves the cursor of a panel whose index is not
    negative, [moveCursorLeft] brings the panel back to the state it had,
    and both calls return the index they leave.  [moveCursorLeft] never
    takes a cursor at index 0 or below anywhere. *)
Theorem moveCursorLeft_undoes_moveCursorRight (p : t) :
  0 <= m_nCursorIndexPosition p < CInt.INT_MAX ->
  (snd (moveCursorRight p) <> m_nCursorIndexPosition p ->
   snd (moveCursorRight p) = m_nCursorIndexPosition p + 1
   /\ moveCursorLeft (fst (moveCursorRight p)) = (p, m_nCursorIndexPosition p))
  /\ snd (moveCursorRight p) = m_nCursorIndexPosition (fst (moveCursorRight p))
  /\ snd (moveCursorLeft p) = m_nCursorIndexPosition (fst (moveCursorLeft p))
  /\ (forall q, m_nCursorIndexPosition q <= 0 -> moveCursorLeft q = (q, m_nCursorIndexPosition q)).
Proof.
  intros Hidx.
  assert (Hadd : CInt.add (m_nCursorIndexPosition p) 1 = m_nCursorIndexPosition p + 1).
  { unfold CInt.add. apply CIntFacts.wrap_small.
    unfold CInt.is_int, CInt.INT_MIN, CInt.INT_MAX in *.
    change (2 ^ 31) with 2147483648 in *. lia. }
  split; [|split; [|split]].
  - unfold moveCursorRight. cbn [fst snd].
    destruct (F64.ltb _ _).
    + intros _. rewrite Hadd. split; [destruct p; reflexivity|].
      unfold moveCursorLeft.
      replace (0 <? m_nCursorIndexPosition (with_cursor (m_nCursorIndexPosition p + 1) p))
        with true by (symmetry; apply Z.ltb_lt; destruct p; cbn in *; lia).
      assert (Hsub : CInt.sub (m_nCursorIndexPosition
                                 (with_cursor (m_nCursorIndexPosition p + 1) p)) 1
                     = m_nCursorIndexPosition p).
      { unfold CInt.sub. rewrite CIntFacts.wrap_small.
        - destruct p; cbn. lia.
        - unfold CInt.is_int, CInt.INT_MIN, CInt.INT_MAX in *.
          change (2 ^ 31) with 2147483648 in *. destruct p; cbn in *. lia. }
      rewrite Hsub. destruct p; reflexivity.
    + intros H. contradiction H. reflexivity.
  - reflexivity.
  - reflexivity.
  - intros q Hq. unfold moveCursorLeft.
    replace (0 <? m_nCursorIndexPosition q) with false
      by (symmetry; apply Z.ltb_ge; exact Hq).
    reflexivity.
Qed.

Lemma moveCursorLeft_undoes_moveCursorRight_witness :
  snd (moveCursorRight (Sample.panel 16 4 4 192 4 3)) = 3 + 1
  /\ moveCursorLeft (fst (moveCursorRight (Sample.panel 16 4 4 192 4 3)))
     = (Sample.panel 16 4 4 192 4 3, 3).
Proof.
  destruct (moveCursorLeft_undoes_moveCursorRight (Sample.panel 16 4 4 192 4 3))
    as (H & _).
  - unfold CInt.INT_MAX. cbn. lia.
  - apply H. vm_compute. discriminate.
Defined.

(** ** Integers in floating point *)

Module ExactFacts.

Import RoundingFacts.

Section Format.

Variables prec emax : Z.
Hypothesis Hprec : 0 < prec.
Hypothesis Hemax : prec < emax.

(** A mantissa of at most [prec] digits is re-encoded without rounding,
    whatever its exponent, as long as the result is in the normal range. *)
Lemma binary_round_exact_at (s : bool) (n : positive) (e : Z) :
  Zpos (digits2_pos n) <= prec ->
  emin prec emax <= Zpos (digits2_pos n) + e - prec ->
  Zpos (digits2_pos n) + e <= emax ->
  exists m,
    binary_round prec emax s n e = S754_finite s m (Zpos (digits2_pos n) + e - prec)
    /\ Zpos (digits2_pos m) = prec
    /\ Zpos m = Zpos n * 2 ^ (prec - Zpos (digits2_pos n)).
Proof.
  intros Hd Hlo Hhi. unfold binary_round, shl_align, fexp.
  set (d := Zpos (digits2_pos n)) in *.
  rewrite Z.max_l by lia.
  destruct (d + e - prec - e) as [|k|k] eqn:Ek; try lia.
  - exists n. assert (d = prec) by lia.
    replace (d + e - prec) with e by lia. replace (prec - d) with 0 by lia.
    rewrite Z.mul_1_r. repeat split; [|assumption].
    apply binary_round_aux_exact; [assumption|lia].
  - exists (Pos.iter xO n k).
    pose proof (iter_xO n k) as Hshift.
    pose proof (digits2_shift n (Pos.iter xO n k) (Zpos k) ltac:(lia) Hshift) as Hdig.
    fold d in Hdig.
    replace (prec - d) with (Zpos k) by lia.
    repeat split; [|lia|assumption].
    apply binary_round_aux_exact; lia.
Qed.

(** The conversion of a positive integer of at most [prec] digits. *)
Lemma of_Z_exact (n : Z) :
  0 < n < 2 ^ prec ->
  exists m d,
    IEEE.of_Z prec emax n = S754_finite false m (d - prec)
    /\ Zpos (digits2_pos m) = prec
    /\ 1 <= d <= prec
    /\ 2 ^ (d - 1) <= n < 2 ^ d
    /\ Zpos m = n * 2 ^ (prec - d).
Proof.
  intros [Hpos Hlt]. destruct n as [|q|q]; try lia.
  pose proof (digits2_range q prec Hlt) as Hd.
  destruct (binary_round_exact prec emax Hprec Hemax false q ltac:(lia)) as (m & Hm & Hdm & Hv).
  exists m, (Zpos (digits2_pos q)).
  split; [exact Hm|]. split; [exact Hdm|]. split; [exact Hd|].
  split; [apply digits2_bounds|exact Hv].
Qed.

(** Products of integers stay exact while they have at most [prec]
    digits. *)
Lemma mul_of_Z (a b : Z) :
  0 <= a < 2 ^ prec -> 0 <= b < 2 ^ prec -> a * b < 2 ^ prec ->
  IEEE.mul prec emax (IEEE.of_Z prec emax a) (IEEE.of_Z prec emax b)
  = IEEE.of_Z prec emax (a * b).
Proof.
  intros Ha Hb Hab. unfold IEEE.mul, IEEE.of_Z, binary_normalize.
  destruct a as [|a|a]; try lia; destruct b as [|b|b]; try lia; try reflexivity.
  - cbn [Z.mul].
    pose proof (digits2_range b prec ltac:(lia)) as Hd.
    destruct (binary_round_exact prec emax Hprec Hemax false b ltac:(lia)) as (m & -> & _).
    reflexivity.
  - cbn [Z.mul].
    pose proof (digits2_range a prec ltac:(lia)) as Hd.
    destruct (binary_round_exact prec emax Hprec Hemax false a ltac:(lia)) as (m & -> & _).
    reflexivity.
  - cbn [Z.mul]. apply mul_of_Z_exact; assumption.
Qed.

(** Comparison of converted integers. *)
Lemma compare_of_Z (a b : Z) :
  0 <= a < 2 ^ prec -> 0 <= b < 2 ^ prec ->
  SFcompare (IEEE.of_Z prec emax a) (IEEE.of_Z prec emax b) = Some (a ?= b).
Proof.
  intros Ha Hb.
  destruct (Z.eq_dec a 0) as [->|Ha0]; destruct (Z.eq_dec b 0) as [->|Hb0].
  - reflexivity.
  - destruct (of_Z_exact b ltac:(lia)) as (m & d & -> & _).
    cbn. destruct b; try lia; reflexivity.
  - destruct (of_Z_exact a ltac:(lia)) as (m & d & -> & _).
    cbn. destruct a; try lia; reflexivity.
  - destruct (of_Z_exact a ltac:(lia)) as (ma & da & -> & Hdma & Hda & Hna & Hma).
    destruct (of_Z_exact b ltac:(lia)) as (mb & db & -> & Hdmb & Hdb & Hnb & Hmb).
    cbn [SFcompare]. f_equal.
    destruct (Z.compare_spec (da - prec) (db - prec)) as [E|E|E].
    + assert (da = db) by lia. subst db.
      change (PosDef.Pos.compare_cont Eq ma mb) with (Zpos ma ?= Zpos mb).
      rewrite Hma, Hmb.
      assert (Hp : 0 < 2 ^ (prec - da)) by (apply Z.pow_pos_nonneg; lia).
      destruct (Z.compare_spec a b) as [E'|E'|E'];
        [apply Z.compare_eq_iff|apply Z.compare_lt_iff|apply Z.compare_gt_iff]; nia.
    + symmetry. apply Z.compare_lt_iff.
      assert (2 ^ da <= 2 ^ (db - 1)) by (apply Z.pow_le_mono_r; lia). lia.
    + symmetry. apply Z.compare_gt_iff.
      assert (2 ^ db <= 2 ^ (da - 1)) by (apply Z.pow_le_mono_r; lia). lia.
Qed.

End Format.

Lemma pow2_24 : 2 ^ 24 = 16777216.
Proof. reflexivity. Qed.

Lemma pow2_53 : 2 ^ 53 = 9007199254740992.
Proof. reflexivity. Qed.

Lemma of_Z32 (n : Z) :
  0 < n < 2 ^ 24 ->
  exists m d,
    F32.of_Z n = S754_finite false m (d - 24)
    /\ Zpos (digits2_pos m) = 24
    /\ 1 <= d <= 24
    /\ 2 ^ (d - 1) <= n < 2 ^ d
    /\ Zpos m = n * 2 ^ (24 - d).
Proof. apply (of_Z_exact 24 128); lia. Qed.

Lemma of_Z64 (n : Z) :
  0 < n < 2 ^ 53 ->
  exists m d,
    F64.of_Z n = S754_finite false m (d - 53)
    /\ Zpos (digits2_pos m) = 53
    /\ 1 <= d <= 53
    /\ 2 ^ (d - 1) <= n < 2 ^ d
    /\ Zpos m = n * 2 ^ (53 - d).
Proof. apply (of_Z_exact 53 1024); lia. Qed.

(** The number of digits of a positive integer is determined by its size. *)
Lemma digits_agree (n d d' : Z) :
  2 ^ (d - 1) <= n < 2 ^ d -> 2 ^ (d' - 1) <= n < 2 ^ d' -> 1 <= d -> 1 <= d' -> d = d'.
Proof.
  intros H H' Hd Hd'.
  destruct (Z.lt_trichotomy d d') as [Hlt|[Heq|Hgt]]; [|exact Heq|].
  - assert (2 ^ d <= 2 ^ (d' - 1)) by (apply Z.pow_le_mono_r; lia). lia.
  - assert (2 ^ d' <= 2 ^ (d - 1)) by (apply Z.pow_le_mono_r; lia). lia.
Qed.

(** A [float] that holds an integer is the same integer as a [double]. *)
Lemma widen_of_Z (n : Z) :
  0 <= n < 2 ^ 24 -> F64.of_float (F32.of_Z n) = F64.of_Z n.
Proof.
  intros [Hnn Hlt].
  destruct (Z.eq_dec n 0) as [->|Hne]; [reflexivity|].
  destruct (of_Z32 n ltac:(lia)) as (m & d & -> & Hdm & Hd & Hn & Hm).
  assert (Hlt53 : n < 2 ^ 53) by (rewrite pow2_24 in Hlt; rewrite pow2_53; lia).
  destruct (of_Z64 n ltac:(lia)) as (m' & d' & -> & Hdm' & Hd' & Hn' & Hm').
  assert (d' = d) by (apply (digits_agree n); lia). subst d'.
  unfold F64.of_float, IEEE.widen, binary_normalize, F64.prec, F64.emax. cbn [cond_Zopp].
  destruct (binary_round_exact_at 53 1024 false m (d - 24))
    as (m2 & -> & Hdm2 & Hm2).
  - rewrite Hdm. lia.
  - rewrite Hdm. unfold emin. lia.
  - rewrite Hdm. lia.
  - rewrite Hdm in *. f_equal; [|lia].
    apply Pos2Z.inj. rewrite Hm2, Hm, Hm'.
    rewrite <- Z.mul_assoc, <- Z.pow_add_r by lia. f_equal. f_equal. lia.
Qed.

(** Magnitude of an integer held in a floating-point number. *)
Lemma round_magnitude_integer (m : positive) (n k : Z) :
  0 <= k -> Zpos m = n * 2 ^ k -> IEEE.round_magnitude m (- k) = n.
Proof.
  intros Hk Hm. destruct k as [|q|q]; try lia; cbn [Z.opp IEEE.round_magnitude].
  - rewrite Z.mul_1_r in Hm. exact Hm.
  - rewrite Z.shiftr_div_pow2, Z.shiftl_mul_pow2 by lia. rewrite Hm, Z.mul_1_l.
    assert (Hp : 0 < 2 ^ (Zpos q - 1)) by (apply Z.pow_pos_nonneg; lia).
    assert (E : 2 ^ Zpos q = 2 * 2 ^ (Zpos q - 1)).
    { rewrite <- Z.pow_succ_r by lia. f_equal. lia. }
    rewrite E. symmetry. apply (Z.div_unique _ _ n (2 ^ (Zpos q - 1))); lia.
Qed.

Lemma trunc_magnitude_integer (m : positive) (n k : Z) :
  0 <= k -> Zpos m = n * 2 ^ k -> IEEE.trunc_magnitude m (- k) = n.
Proof.
  intros Hk Hm. destruct k as [|q|q]; try lia; cbn [Z.opp IEEE.trunc_magnitude].
  - rewrite Z.shiftl_0_r. rewrite Z.mul_1_r in Hm. exact Hm.
  - rewrite Z.shiftr_div_pow2 by lia. rewrite Hm.
    apply Z.div_mul. apply Z.pow_nonzero; lia.
Qed.

(** [round] of a [double] that holds an integer returns it. *)
Lemma round_of_Z (n : Z) : 0 <= n < 2 ^ 53 -> F64.round (F64.of_Z n) = F64.of_Z n.
Proof.
  intros [Hnn Hlt].
  destruct (Z.eq_dec n 0) as [->|Hne]; [reflexivity|].
  destruct (of_Z64 n ltac:(lia)) as (m & d & E & Hdm & Hd & Hn & Hm).
  rewrite E. unfold F64.round, IEEE.round. cbn [cond_Zopp].
  replace (d - 53) with (- (53 - d)) by lia.
  rewrite (round_magnitude_integer m n (53 - d)) by lia.
  replace (- (53 - d)) with (d - 53) by lia. rewrite <- E. reflexivity.
Qed.

(** The conversion of such a [double] to [int]. *)
Lemma to_int_of_Z (n : Z) : 0 <= n <= CInt.INT_MAX -> IEEE.to_int (F64.of_Z n) = n.
Proof.
  intros [Hnn Hmax].
  destruct (Z.eq_dec n 0) as [->|Hne]; [reflexivity|].
  unfold CInt.INT_MAX in Hmax. change (2 ^ 31) with 2147483648 in Hmax.
  destruct (of_Z64 n ltac:(rewrite pow2_53; lia)) as (m & d & E & Hdm & Hd & Hn & Hm).
  rewrite E. unfold IEEE.to_int. cbn [cond_Zopp].
  replace (d - 53) with (- (53 - d)) by lia.
  rewrite (trunc_magnitude_integer m n (53 - d)) by lia.
  replace (CInt.is_intb n) with true; [reflexivity|].
  symmetry. apply CIntFacts.is_intb_spec.
  unfold CInt.is_int, CInt.INT_MIN, CInt.INT_MAX. change (2 ^ 31) with 2147483648. lia.
Qed.

(** [round( x )] of a [float] that holds an integer. *)
Lemma round_float_of_Z (n : Z) :
  0 <= n < 2 ^ 24 -> round_float (F32.of_Z n) = F64.of_Z n.
Proof.
  intros H. unfold round_float. rewrite widen_of_Z by exact H.
  apply round_of_Z. rewrite pow2_24 in H. rewrite pow2_53. lia.
Qed.

Lemma mul32_of_Z (a b : Z) :
  0 <= a < 2 ^ 24 -> 0 <= b < 2 ^ 24 -> a * b < 2 ^ 24 ->
  F32.mul (F32.of_Z a) (F32.of_Z b) = F32.of_Z (a * b).
Proof. apply (mul_of_Z 24 128); lia. Qed.

Lemma mul64_of_Z (a b : Z) :
  0 <= a < 2 ^ 53 -> 0 <= b < 2 ^ 53 -> a * b < 2 ^ 53 ->
  F64.mul (F64.of_Z a) (F64.of_Z b) = F64.of_Z (a * b).
Proof. apply (mul_of_Z 53 1024); lia. Qed.

Lemma ltb64_of_Z (a b : Z) :
  0 <= a < 2 ^ 53 -> 0 <= b < 2 ^ 53 -> F64.ltb (F64.of_Z a) (F64.of_Z b) = (a <? b).
Proof.
  intros Ha Hb. unfold F64.ltb, SFltb, F64.of_Z.
  rewrite (compare_of_Z 53 1024) by (assumption || lia).
  unfold Z.ltb. destruct (a ?= b); reflexivity.
Qed.

Lemma leb64_of_Z (a b : Z) :
  0 <= a < 2 ^ 53 -> 0 <= b < 2 ^ 53 -> F64.leb (F64.of_Z a) (F64.of_Z b) = (a <=? b).
Proof.
  intros Ha Hb. unfold F64.leb, SFleb, F64.of_Z.
  rewrite (compare_of_Z 53 1024) by (assumption || lia).
  unfold Z.leb. destruct (a ?= b); reflexivity.
Qed.

(** *** Quotients of integers in [float] *)

(** The quotient of two integers below 2^23 and 2^24: a mantissa [m] of 24
    digits and an exponent [- k] with [2 ^ k] above the divisor, within half
    a unit of the last digit of the exact quotient. *)
Lemma div32_nearest (a b : Z) :
  0 < a < 2 ^ 23 -> 0 < b < 2 ^ 24 ->
  exists m k,
    F32.div (F32.of_Z a) (F32.of_Z b) = S754_finite false m (- k)
    /\ Zpos (digits2_pos m) = 24
    /\ 1 <= k <= 48
    /\ b < 2 ^ k
    /\ 2 * Z.abs (Zpos m * b - a * 2 ^ k) <= b.
Proof.
  intros Ha Hb.
  assert (H23 : 2 ^ 23 = 8388608) by reflexivity.
  rewrite H23 in Ha. rewrite pow2_24 in Hb.
  destruct a as [|pa|pa]; try lia. destruct b as [|pb|pb]; try lia.
  pose proof (div_of_Z_nearest 24 128 ltac:(lia) ltac:(lia) pa pb
                ltac:(rewrite pow2_24; lia) ltac:(rewrite pow2_24; lia) ltac:(lia))
    as (m & e & Hx & Hd & Hn).
  change (SFdiv 24 128 (binary_round 24 128 false pa 0) (binary_round 24 128 false pb 0))
    with (F32.div (F32.of_Z (Zpos pa)) (F32.of_Z (Zpos pb))) in Hx.
  unfold F32.prec in Hd.
  pose proof (digits2_bounds m) as Hm. rewrite Hd in Hm.
  change (2 ^ (24 - 1)) with 8388608 in Hm. rewrite pow2_24 in Hm.
  destruct (Z_le_gt_dec e 0) as [He|He].
  - rewrite (Z.max_r e 0), (Z.max_l (- e) 0) in Hn by lia.
    rewrite Z.pow_0_r, !Z.mul_1_r in Hn || (rewrite Z.pow_0_r in Hn).
    set (k := - e) in *.
    assert (Hk : 0 <= k) by lia.
    assert (HE : 0 < 2 ^ k) by (apply Z.pow_pos_nonneg; lia).
    assert (Hbig : Zpos pb < 2 ^ k).
    { assert (2 * Zpos m * Zpos pb - Zpos pb <= 2 * Zpos pa * 2 ^ k) by lia. nia. }
    assert (Hk1 : 1 <= k).
    { destruct (Z.eq_dec k 0) as [E0|E0]; [|lia]. rewrite E0 in Hbig. cbn in Hbig. lia. }
    assert (Hk48 : k <= 48).
    { destruct (Z_le_gt_dec k 48) as [Hle|Hgt]; [exact Hle|exfalso].
      assert (2 ^ 49 <= 2 ^ k) by (apply Z.pow_le_mono_r; lia).
      change (2 ^ 49) with 562949953421312 in *.
      assert (2 * Zpos pa * 2 ^ k <= 2 * Zpos m * Zpos pb + Zpos pb) by lia. nia. }
    exists m, k. replace (- k) with e by (unfold k; lia).
    split; [exact Hx|]. split; [exact Hd|]. split; [lia|]. split; [exact Hbig|].
    lia.
  - exfalso. rewrite (Z.max_l e 0), (Z.max_r (- e) 0) in Hn by lia.
    rewrite Z.pow_0_r, Z.mul_1_r in Hn.
    assert (2 ^ 1 <= 2 ^ e) by (apply Z.pow_le_mono_r; lia).
    change (2 ^ 1) with 2 in *. nia.
Qed.

Lemma div32_zero (b : Z) :
  0 < b < 2 ^ 24 -> F32.div (F32.of_Z 0) (F32.of_Z b) = S754_zero false.
Proof.
  intros Hb. destruct (of_Z32 b Hb) as (m & d & -> & _). reflexivity.
Qed.

(** Converted to [int], the quotient is the integer quotient. *)
Lemma to_int_div32 (a b : Z) :
  0 <= a < 2 ^ 23 -> 0 < b < 2 ^ 24 ->
  IEEE.to_int (F32.div (F32.of_Z a) (F32.of_Z b)) = a / b.
Proof.
  intros Ha Hb.
  destruct (Z.eq_dec a 0) as [->|Ha0].
  { rewrite div32_zero by exact Hb. rewrite Z.div_0_l by lia. reflexivity. }
  destruct (div32_nearest a b ltac:(lia) Hb) as (m & k & -> & Hd & Hk & Hbig & Hn).
  assert (HE : 0 < 2 ^ k) by (apply Z.pow_pos_nonneg; lia).
  assert (Hq : Zpos m / 2 ^ k = a / b).
  { pose proof (Z.div_mod a b ltac:(lia)) as Hdm.
    pose proof (Z.mod_pos_bound a b ltac:(lia)) as Hr.
    set (q := a / b) in *. set (r := a mod b) in *. set (E := 2 ^ k) in *.
    symmetry. apply (Z.div_unique_pos _ _ q (Zpos m - q * E)); [|lia].
    split.
    - assert (- b <= 2 * (Zpos m * b - a * E)) by lia.
      assert (- b <= 2 * b * (Zpos m - q * E) + 2 * r * E) by (rewrite Hdm in *; nia).
      nia.
    - assert (2 * (Zpos m * b - a * E) <= b) by lia.
      assert (2 * b * (Zpos m - q * E) <= b + 2 * r * E) by (rewrite Hdm in *; nia).
      assert (2 * r * E <= 2 * (b - 1) * E) by nia.
      nia. }
  rewrite CursorFacts.to_int_floor; [|lia|]; rewrite Z.opp_involutive.
  - exact Hq.
  - rewrite Hq. unfold CInt.INT_MAX. change (2 ^ 31) with 2147483648.
    change (2 ^ 23) with 8388608 in Ha.
    assert (a / b <= a) by (apply Z.div_le_upper_bound; nia). lia.
Qed.

(** The quotient of an exact division is exact. *)
Lemma div32_exact (a b g : Z) :
  0 < b -> 0 < g -> a = g * b -> a < 2 ^ 23 ->
  F32.div (F32.of_Z a) (F32.of_Z b) = F32.of_Z g.
Proof.
  intros Hb Hg Ha Hlt.
  assert (H23 : 2 ^ 23 = 8388608) by reflexivity.
  assert (Hb24 : 0 < b < 2 ^ 24) by (rewrite pow2_24; rewrite H23 in Hlt; nia).
  destruct (div32_nearest a b ltac:(nia) Hb24) as (m & k & -> & Hd & Hk & Hbig & Hn).
  assert (HE : 0 < 2 ^ k) by (apply Z.pow_pos_nonneg; lia).
  assert (Hm : Zpos m = g * 2 ^ k).
  { subst a. set (E := 2 ^ k) in *.
    destruct (Z.eq_dec (Zpos m) (g * E)) as [E0|E0]; [exact E0|exfalso].
    assert (1 <= Z.abs (Zpos m - g * E)) by lia.
    replace (Zpos m * b - g * b * E) with ((Zpos m - g * E) * b) in Hn by ring.
    rewrite Z.abs_mul in Hn. rewrite (Z.abs_eq b) in Hn by lia. nia. }
  destruct (of_Z32 g ltac:(rewrite pow2_24; rewrite H23 in Hlt; nia))
    as (mg & dg & -> & Hdg & Hrange & Hbounds & Hmg).
  assert (Hdig : 24 = dg + k).
  { rewrite <- Hd. apply digits2_unique. rewrite Hm.
    replace (dg + k - 1) with (dg - 1 + k) by lia.
    rewrite !Z.pow_add_r by lia. nia. }
  f_equal; [|lia].
  apply Pos2Z.inj. rewrite Hm, Hmg. f_equal. f_equal. lia.
Qed.

(** Rounded to the nearest integer, halves upwards, the quotient is the
    integer nearest to the exact quotient. *)
Lemma to_int_round_div32 (a b : Z) :
  0 <= a < 2 ^ 23 -> 0 < b < 2 ^ 24 ->
  IEEE.to_int (round_float (F32.div (F32.of_Z a) (F32.of_Z b))) = (2 * a + b) / (2 * b).
Proof.
  intros Ha Hb.
  destruct (Z.eq_dec a 0) as [->|Ha0].
  { rewrite div32_zero by exact Hb. rewrite Z.div_small by lia. reflexivity. }
  destruct (div32_nearest a b ltac:(lia) Hb) as (m & k & -> & Hd & Hk & Hbig & Hn).
  assert (HE : 0 < 2 ^ k) by (apply Z.pow_pos_nonneg; lia).
  unfold round_float, F64.of_float, IEEE.widen, binary_normalize, F64.prec, F64.emax.
  cbn [cond_Zopp].
  destruct (binary_round_exact_at 53 1024 false m (- k))
    as (m2 & -> & Hdm2 & Hm2); try (rewrite Hd; unfold emin; lia).
  rewrite Hd in *. unfold F64.round, IEEE.round. cbn [cond_Zopp].
  replace (24 + - k - 53) with (- (k + 29)) by lia.
  set (N := (2 * a + b) / (2 * b)).
  assert (HN : IEEE.round_magnitude m2 (- (k + 29)) = N).
  { assert (Hk29 : exists q, k + 29 = Zpos q) by (destruct (k + 29) as [|q|q] eqn:E; try lia; eauto).
    destruct Hk29 as [q Hq]. rewrite Hq. cbn [Z.opp IEEE.round_magnitude].
    rewrite Z.shiftr_div_pow2, Z.shiftl_mul_pow2 by lia. rewrite Z.mul_1_l.
    rewrite <- Hq, Hm2. change (53 - 24) with 29.
    replace (k + 29 - 1) with (k - 1 + 29) by lia.
    rewrite !Z.pow_add_r by lia.
    set (H := 2 ^ (k - 1)) in *.
    assert (HH : 0 < H) by (apply Z.pow_pos_nonneg; lia).
    assert (E2 : 2 ^ k = 2 * H).
    { unfold H. rewrite <- Z.pow_succ_r by lia. f_equal. lia. }
    rewrite E2 in *.
    assert (HP : 0 < 2 ^ 29) by reflexivity.
    replace (Zpos m * 2 ^ 29 + H * 2 ^ 29) with ((Zpos m + H) * 2 ^ 29) by ring.
    rewrite Z.div_mul_cancel_r by lia.
    pose proof (Z.div_mod (2 * a + b) (2 * b) ltac:(lia)) as Hdm.
    pose proof (Z.mod_pos_bound (2 * a + b) (2 * b) ltac:(lia)) as Hr.
    fold N in Hdm. set (r := (2 * a + b) mod (2 * b)) in *.
    symmetry. apply (Z.div_unique_pos _ _ N (Zpos m + H - N * (2 * H))); [|lia].
    split.
    - assert (- b <= 2 * (Zpos m * b - a * (2 * H))) by lia.
      assert (2 * a = 2 * b * N + r - b) by lia.
      assert (- b <= 2 * b * (Zpos m + H - N * (2 * H)) - 2 * r * H) by nia.
      assert (0 <= 2 * r * H) by nia.
      nia.
    - assert (2 * (Zpos m * b - a * (2 * H)) <= b) by lia.
      assert (2 * a = 2 * b * N + r - b) by lia.
      assert (2 * b * (Zpos m + H - N * (2 * H)) <= b + 2 * r * H) by nia.
      assert (2 * r * H <= 2 * (2 * b - 1) * H) by nia.
      nia. }
  rewrite HN.
  apply to_int_of_Z. unfold N, CInt.INT_MAX. change (2 ^ 31) with 2147483648.
  change (2 ^ 23) with 8388608 in Ha.
  split; [apply Z.div_pos; lia|].
  assert ((2 * a + b) / (2 * b) <= 2 * a + b) by (apply Z.div_le_upper_bound; nia).
  rewrite pow2_24 in Hb. lia.
Qed.

End ExactFacts.

(** ** The numerator of the size display *)

Module ThousandthFacts.

Import PatternEditorPanel Outcome.

(** Below 1024 the [float] quotient by 192 is so close to the exact one
    that its thousandths are those of the exact quotient, rounded to the
    nearest with halves upwards. *)
Lemma quotient_thousandths (a : Z) :
  0 < a < 1024 * MAX_NOTES ->
  exists m k,
    F32.div (F32.of_Z a) (F32.of_Z MAX_NOTES) = S754_finite false m (- k)
    /\ 0 < k
    /\ IEEE.round_magnitude (m * 1000) (- k) = (1000 * a + 96) / 192.
Proof.
  unfold MAX_NOTES. intros Ha.
  destruct (ExactFacts.div32_nearest a 192) as (m & k & Hdiv & Hdig & Hk & _ & Hnear).
  { change (2 ^ 23) with 8388608. lia. }
  { change (2 ^ 24) with 16777216. lia. }
  exists m, k. split; [exact Hdiv|]. split; [lia|].
  pose proof (RoundingFacts.digits2_bounds m) as Hm. rewrite Hdig in Hm.
  change (2 ^ (24 - 1)) with 8388608 in Hm. change (2 ^ 24) with 16777216 in Hm.
  assert (Hk14 : 14 <= k).
  { destruct (Z_lt_le_dec k 14) as [Hlt|]; [|assumption]. exfalso.
    assert (2 ^ k <= 2 ^ 13) by (apply Z.pow_le_mono_r; lia).
    change (2 ^ 13) with 8192 in *. nia. }
  destruct k as [|pk|pk]; try lia.
  cbn [Z.opp IEEE.round_magnitude].
  rewrite Z.shiftr_div_pow2, Z.shiftl_mul_pow2 by lia. rewrite Z.mul_1_l.
  set (H' := 2 ^ (Zpos pk - 4)).
  assert (HH' : 1024 <= H').
  { unfold H'. change 1024 with (2 ^ 10). apply Z.pow_le_mono_r; lia. }
  assert (E1 : 2 ^ (Zpos pk - 1) = 8 * H').
  { unfold H'. replace (Zpos pk - 1) with (3 + (Zpos pk - 4)) by lia.
    rewrite Z.pow_add_r by lia. reflexivity. }
  assert (E0 : 2 ^ Zpos pk = 16 * H').
  { unfold H'. replace (Zpos pk) with (4 + (Zpos pk - 4)) at 1 by lia.
    rewrite Z.pow_add_r by lia. reflexivity. }
  rewrite E1, E0. rewrite E0 in Hnear.
  change (Zpos (m * 1000)) with (Zpos m * 1000).
  clearbody H'. clear E0 E1 Hdiv Hdig Hk Hk14.
  set (M := (1000 * a + 96) / 192).
  pose proof (Z.div_mod (1000 * a + 96) 192 ltac:(lia)) as Hdm.
  pose proof (Z.mod_pos_bound (1000 * a + 96) 192 ltac:(lia)) as Hr.
  fold M in Hdm. set (r0 := (1000 * a + 96) mod 192) in *.
  clearbody M r0.
  assert (Hr8 : r0 mod 8 = 0).
  { clear - Hdm. replace r0 with (8 * (125 * a + 12 - 24 * M)) by lia.
    rewrite Z.mul_comm. apply Z.mod_mul. lia. }
  symmetry. apply (Z.div_unique _ _ M (Zpos m * 1000 + 8 * H' - 16 * H' * M)); [|lia].
  left.
  assert (Hd : -96 <= Zpos m * 192 - a * (16 * H') <= 96) by lia.
  set (d := Zpos m * 192 - a * (16 * H')) in *.
  assert (Hid : 192 * (Zpos m * 1000 + 8 * H' - 16 * H' * M) = 16 * H' * r0 + 1000 * d).
  { unfold d. nia. }
  destruct (Z.eq_dec r0 0) as [Hz|Hnz].
  - assert (Hd0 : d = 0).
    { assert (Ea : a = 12 * (10 * M - 5 - 52 * a)) by lia.
      assert (d = 192 * (Zpos m - (10 * M - 5 - 52 * a) * H')).
      { unfold d. rewrite Ea at 1. ring. }
      lia. }
    rewrite Hz, Hd0 in Hid. nia.
  - assert (8 <= r0 <= 184) by lia. nia.
Qed.

(** The text of a positive number with a negative exponent shows its
    thousandths. *)
Lemma toString_f3_decimal3 (point : ascii) (m : positive) (k N : Z) :
  0 < k -> IEEE.round_magnitude (m * 1000) (- k) = N ->
  decimal3 point (QLocale.toString_f3 point (S754_finite false m (- k))) N.
Proof.
  intros Hk HN.
  pose proof (DisplayFacts.round_magnitude_nonneg (m * 1000) (- k)) as Hn.
  cbn [QLocale.toString_f3]. rewrite HN in *. clear HN.
  pose proof (Z.mod_pos_bound N 1000 ltac:(lia)) as Hf.
  exists (N / 1000), (N mod 1000 / 100), (N mod 1000 / 10 mod 10), (N mod 1000 mod 10).
  split; [apply Z.div_pos; lia|].
  split.
  { assert (N mod 1000 / 100 < 10) by (apply Z.div_lt_upper_bound; lia).
    split; [apply Z.div_pos; lia|lia]. }
  split; [pose proof (Z.mod_pos_bound (N mod 1000 / 10) 10 ltac:(lia)); lia|].
  split; [pose proof (Z.mod_pos_bound (N mod 1000) 10 ltac:(lia)); lia|].
  split; [reflexivity|].
  clear. Z.div_mod_to_equations. lia.
Qed.

(** Rounding to the nearest thousandth, halves upwards, stays within half
    a thousandth. *)
Lemma nearest_thousandth (a : Z) :
  2 * Z.abs (MAX_NOTES * ((1000 * a + 96) / MAX_NOTES) - 1000 * a) <= MAX_NOTES.
Proof. unfold MAX_NOTES. Z.div_mod_to_equations. lia. Qed.

Section Display.

Context {qt : QtText}.

Lemma size_text_thousandths (nLength nDen : Z) :
  0 <= nLength -> 0 <= nDen -> nLength * nDen < 1024 * MAX_NOTES ->
  (nLength * nDen) mod MAX_NOTES <> 0 ->
  exists sNumerator,
    decimal3 decimalPoint sNumerator ((1000 * (nLength * nDen) + 96) / MAX_NOTES)
    /\ size_text nLength nDen = (sNumerator ++ "/" ++ QString.number nDen)%string.
Proof.
  intros HL Hd Hmax Hrem.
  assert (Hint : nLength * nDen <= CInt.INT_MAX).
  { unfold CInt.INT_MAX, MAX_NOTES in *. change (2 ^ 31) with 2147483648. lia. }
  destruct (DisplayFacts.size_numerator_exact nLength nDen HL Hd Hint) as [Er _].
  unfold size_text. rewrite Er.
  apply Z.eqb_neq in Hrem. rewrite Hrem.
  assert (Em : CInt.mul nLength nDen = nLength * nDen).
  { unfold CInt.mul. apply CIntFacts.wrap_small.
    unfold CInt.is_int, CInt.INT_MIN, CInt.INT_MAX in *.
    change (2 ^ 31) with 2147483648 in *. nia. }
  rewrite Em.
  assert (Hpos : 0 < nLength * nDen < 1024 * MAX_NOTES).
  { split; [|assumption]. apply Z.eqb_neq in Hrem.
    assert (nLength * nDen <> 0) by (intros E; rewrite E in Hrem; apply Hrem; reflexivity).
    nia. }
  destruct (quotient_thousandths (nLength * nDen) Hpos) as (m & k & Hdiv & Hk & HN).
  rewrite Hdiv. eexists. split; [|reflexivity].
  apply toString_f3_decimal3; assumption.
Qed.

End Display.

End ThousandthFacts.

(** C5: [updatePatternSizeLCD] displays the pair (length, denominator) as
    the fraction numerator/denominator with the integer numerator
    (length * denominator) / 192 when (length * denominator) % 192 == 0, and
    otherwise with a numerator in fixed notation with exactly three digits
    after the decimal separator.  While the numerator is below 1024 that
    decimal is the numerator itself, length * denominator / 192, rounded to
    the nearest thousandth (a half upwards), so it is off by half a
    thousandth at most: 38 ticks in 1/5 notes are displayed as "0.990/5".
    Hence every exact fraction n/d accepted by the dialog (0 < n <= 4 * d)
    whose denominator divides 192 stores 192 / d * n ticks and is displayed
    again as "n/d"; "3/8" comes back as "3/8". *)
Theorem pattern_size_display (qt : QtText) (p : t) :
  let nLength := Pattern.get_length (m_pPattern p) in
  let nDen := Pattern.get_denominator (m_pPattern p) in
  let text := pattern_size_LCD (updatePatternSizeLCD p) in
  (CInt.rem (CInt.mul nLength nDen) MAX_NOTES = 0 ->
   text = fraction_text (CInt.div (CInt.mul nLength nDen) MAX_NOTES) nDen)
  /\ (CInt.rem (CInt.mul nLength nDen) MAX_NOTES <> 0 ->
      exists sNumerator,
        fixed3 decimalPoint sNumerator
        /\ text = (sNumerator ++ "/" ++ QString.number nDen)%string)
  /\ (0 <= nLength -> 0 <= nDen -> nLength * nDen < 1024 * MAX_NOTES ->
      (nLength * nDen) mod MAX_NOTES <> 0 ->
      let thousandths := (1000 * (nLength * nDen) + 96) / MAX_NOTES in
      (exists sNumerator,
          decimal3 decimalPoint sNumerator thousandths
          /\ text = (sNumerator ++ "/" ++ QString.number nDen)%string)
      /\ 2 * Z.abs (MAX_NOTES * thousandths - 1000 * (nLength * nDen)) <= MAX_NOTES)
  /\ (0 <= nLength -> 0 <= nDen -> nLength * nDen <= CInt.INT_MAX ->
      CInt.rem (CInt.mul nLength nDen) MAX_NOTES = (nLength * nDen) mod MAX_NOTES
      /\ CInt.div (CInt.mul nLength nDen) MAX_NOTES = nLength * nDen / MAX_NOTES)
  /\ (forall point n d q,
         0 < n <= 4 * d -> 0 < d <= MAX_NOTES -> MAX_NOTES mod d = 0 ->
         pattern_size_LCD q <> fraction_text n d ->
         let q' := fst (@patternSizeLCDClicked (DecimalText.qt point) true true
                          (fraction_text n d) q) in
         m_pPattern q' = Pattern.mk (MAX_NOTES / d * n) d
         /\ pattern_size_LCD q' = fraction_text n d)
  /\ (let q' := fst (@patternSizeLCDClicked Sample.text true true "3/8"
                       (Sample.panel 16 4 4 192 4 0)) in
      m_pPattern q' = Pattern.mk 72 8 /\ pattern_size_LCD q' = "3/8")
  /\ pattern_size_LCD
       (@updatePatternSizeLCD Sample.text
          (with_pattern (Pattern.mk 38 5) (Sample.panel 16 4 4 192 4 0)))
     = "0.990/5".
Proof.
  cbv zeta. rewrite DisplayFacts.updatePatternSizeLCD_text.
  split; [|split; [|split; [|split; [|split; [|split]]]]].
  - unfold size_text. intros H. rewrite H. reflexivity.
  - unfold size_text. intros H. apply Z.eqb_neq in H. rewrite H.
    eexists. split; [|reflexivity].
    apply DisplayFacts.toString_f3_fixed3.
    apply GranularityFacts.size_quotient_finite. apply DisplayFacts.wrap_is_int.
  - intros HL Hd Hmax Hrem. split.
    + apply ThousandthFacts.size_text_thousandths; assumption.
    + apply ThousandthFacts.nearest_thousandth.
  - apply DisplayFacts.size_numerator_exact.
  - intros point n d q. apply DisplayFacts.fraction_roundtrip.
  - vm_compute. split; reflexivity.
  - vm_compute. reflexivity.
Qed.

(** ** The cursor on a grid of whole ticks *)

Module WholeTickFacts.

Import ExactFacts.

Lemma pow2_23 : 2 ^ 23 = 8388608.
Proof. reflexivity. Qed.

Lemma umul_small (a b : Z) : 0 <= a -> 0 <= b -> a * b < 2 ^ 32 -> CInt.umul a b = a * b.
Proof.
  intros Ha Hb Hab. unfold CInt.umul, CInt.to_uint.
  change (2 ^ 32) with 4294967296 in *.
  destruct (Z.eq_dec a 0) as [->|Ha0]; [reflexivity|].
  destruct (Z.eq_dec b 0) as [->|Hb0].
  { change (0 mod 4294967296) with 0. rewrite !Z.mul_0_r. reflexivity. }
  rewrite (Z.mod_small a), (Z.mod_small b) by nia.
  apply Z.mod_small. nia.
Qed.

(** On such a grid [granularity()] is the whole number [G]. *)
Lemma granularity_whole (G : Z) (p : t) :
  Grid.whole_ticks G p -> granularity p = F32.of_Z G /\ 0 < G < 2 ^ 23.
Proof.
  intros (Hres & Hnum & Hden & HG & Heq & Hlt).
  rewrite pow2_23 in *. unfold MAX_NOTES in *.
  assert (Hprod : 0 < m_nTupletNumerator p * m_nResolution p) by nia.
  split; [|nia].
  unfold granularity, PatternEditor.granularity.
  cbn [PatternEditor.m_nResolution PatternEditor.m_nTupletNumerator
       PatternEditor.m_nTupletDenominator].
  unfold MAX_NOTES.
  rewrite mul32_of_Z by (rewrite ?pow2_24; lia).
  rewrite umul_small by (change (2 ^ 32) with 4294967296; nia).
  apply div32_exact; try assumption; rewrite ?pow2_23; lia.
Qed.

(** The tick [round( index * granularity() )] of a grid index. *)
Lemma tick_whole (G index : Z) (p : t) :
  Grid.whole_ticks G p -> 0 <= index -> index * G < 2 ^ 24 ->
  round_float (F32.mul (F32.of_Z index) (granularity p)) = F64.of_Z (index * G).
Proof.
  intros Hgrid Hidx Hlt.
  destruct (granularity_whole G p Hgrid) as [-> HG].
  rewrite pow2_23 in HG. rewrite pow2_24 in Hlt.
  rewrite mul32_of_Z by (rewrite ?pow2_24; nia).
  apply round_float_of_Z. rewrite pow2_24. nia.
Qed.

Lemma add_small (index : Z) : 0 <= index < CInt.INT_MAX -> CInt.add index 1 = index + 1.
Proof.
  intros H. unfold CInt.add. apply CIntFacts.wrap_small.
  unfold CInt.is_int, CInt.INT_MIN, CInt.INT_MAX in *.
  change (2 ^ 31) with 2147483648 in *. lia.
Qed.

End WholeTickFacts.

(** X17: on a grid of whole ticks, G ticks between two marks,
    [granularity()] is exactly G and [getCursorPosition] returns
    index * G for every cursor index from 0 on (while that product stays
    below 2^24): no rounding is involved.  The entries of the resolution
    menu with the tuplet off are such grids: resolution 16 gives 12 ticks,
    and its triplet entry gives 8. *)
Theorem getCursorPosition_on_whole_ticks (G : Z) (p : t) :
  Grid.whole_ticks G p ->
  0 <= m_nCursorIndexPosition p ->
  m_nCursorIndexPosition p * G < 2 ^ 24 ->
  granularity p = F32.of_Z G
  /\ getCursorPosition p = m_nCursorIndexPosition p * G
  /\ Grid.whole_ticks 12 (Sample.panel 16 4 4 192 4 0)
  /\ Grid.whole_ticks 8 (gridResolutionChanged 8 (Sample.panel 16 4 4 192 4 0)).
Proof.
  intros Hgrid Hidx Hlt.
  split; [apply (WholeTickFacts.granularity_whole G p Hgrid)|]. split.
  - unfold getCursorPosition.
    rewrite (WholeTickFacts.tick_whole G) by assumption.
    apply ExactFacts.to_int_of_Z.
    destruct (WholeTickFacts.granularity_whole G p Hgrid) as [_ HG].
    rewrite ExactFacts.pow2_24 in Hlt. unfold CInt.INT_MAX.
    change (2 ^ 31) with 2147483648. nia.
  - split; cbv; repeat split; congruence.
Qed.

Lemma getCursorPosition_on_whole_ticks_witness :
  granularity (Sample.panel 16 4 4 192 4 5) = F32.of_Z 12
  /\ getCursorPosition (Sample.panel 16 4 4 192 4 5) = 5 * 12.
Proof.
  destruct (getCursorPosition_on_whole_ticks 12 (Sample.panel 16 4 4 192 4 5))
    as (Hg & Hpos & _).
  - cbv; repeat split; congruence.
  - cbv. congruence.
  - reflexivity.
  - split; [exact Hg|exact Hpos].
Defined.

(** X18: on a grid of whole ticks [moveCursorRight] does what the rule
    says: from index i it moves to i + 1 exactly when (i + 1) * G is below
    the pattern length, and stays otherwise.  So a cursor inside the
    pattern stays inside, and [moveCursorRight] and the rule worded with
    round((i + 1) * granularity()) agree. *)
Theorem moveCursorRight_on_whole_ticks (G : Z) (p : t) :
  Grid.whole_ticks G p ->
  0 <= m_nCursorIndexPosition p ->
  (m_nCursorIndexPosition p + 1) * G < 2 ^ 24 ->
  0 <= Pattern.get_length (m_pPattern p) <= CInt.INT_MAX ->
  let index := m_nCursorIndexPosition p in
  let next := snd (moveCursorRight p) in
  next = (if (index + 1) * G <? Pattern.get_length (m_pPattern p) then index + 1 else index)
  /\ next = AsSpecified.moveRight p
  /\ (next <> index ->
      getCursorPosition (fst (moveCursorRight p)) = (index + 1) * G
      /\ getCursorPosition (fst (moveCursorRight p)) < Pattern.get_length (m_pPattern p)).
Proof.
  intros Hgrid Hidx Hlt Hlen. cbv zeta.
  destruct (WholeTickFacts.granularity_whole G p Hgrid) as [Hg HG].
  rewrite WholeTickFacts.pow2_23 in HG.
  assert (Hlt' := Hlt). rewrite ExactFacts.pow2_24 in Hlt'.
  unfold CInt.INT_MAX in Hlen. change (2 ^ 31) with 2147483648 in Hlen.
  assert (Hadd : CInt.add (m_nCursorIndexPosition p) 1 = m_nCursorIndexPosition p + 1).
  { apply WholeTickFacts.add_small. unfold CInt.INT_MAX.
    change (2 ^ 31) with 2147483648. nia. }
  assert (Htest :
            F64.ltb
              (F64.mul (F64.round (F64.of_Z (CInt.add (m_nCursorIndexPosition p) 1)))
                       (F64.of_float (granularity p)))
              (F64.of_Z (Pattern.get_length (m_pPattern p)))
            = ((m_nCursorIndexPosition p + 1) * G <? Pattern.get_length (m_pPattern p))).
  { rewrite Hadd, Hg.
    rewrite ExactFacts.round_of_Z by (rewrite ExactFacts.pow2_53; nia).
    rewrite ExactFacts.widen_of_Z by (rewrite ExactFacts.pow2_24; nia).
    rewrite ExactFacts.mul64_of_Z by (rewrite ?ExactFacts.pow2_53; nia).
    apply ExactFacts.ltb64_of_Z; rewrite ExactFacts.pow2_53; nia. }
  assert (Hnext : snd (moveCursorRight p)
                  = if (m_nCursorIndexPosition p + 1) * G <? Pattern.get_length (m_pPattern p)
                    then m_nCursorIndexPosition p + 1 else m_nCursorIndexPosition p).
  { rewrite CursorFacts.moveCursorRight_test, Htest, Hadd. reflexivity. }
  split; [exact Hnext|]. split.
  - rewrite Hnext. unfold AsSpecified.moveRight, AsSpecified.tick_of_index.
    rewrite (WholeTickFacts.tick_whole G) by (assumption || lia).
    rewrite ExactFacts.ltb64_of_Z by (rewrite ExactFacts.pow2_53; nia).
    reflexivity.
  - intros Hmoved. rewrite Hnext in Hmoved.
    destruct ((m_nCursorIndexPosition p + 1) * G <? Pattern.get_length (m_pPattern p))
      eqn:E; [|contradiction Hmoved; reflexivity].
    apply Z.ltb_lt in E.
    assert (Hstate : fst (moveCursorRight p) = with_cursor (m_nCursorIndexPosition p + 1) p).
    { unfold moveCursorRight. cbn [fst]. rewrite Htest.
      replace ((m_nCursorIndexPosition p + 1) * G <? Pattern.get_length (m_pPattern p))
        with true by (symmetry; apply Z.ltb_lt; exact E).
      rewrite Hadd. reflexivity. }
    rewrite Hstate.
    assert (Hpos : getCursorPosition (with_cursor (m_nCursorIndexPosition p + 1) p)
                   = (m_nCursorIndexPosition p + 1) * G).
    { unfold getCursorPosition.
      replace (granularity (with_cursor (m_nCursorIndexPosition p + 1) p))
        with (granularity p) by (destruct p; reflexivity).
      replace (m_nCursorIndexPosition (with_cursor (m_nCursorIndexPosition p + 1) p))
        with (m_nCursorIndexPosition p + 1) by (destruct p; reflexivity).
      rewrite (WholeTickFacts.tick_whole G) by (assumption || lia).
      apply ExactFacts.to_int_of_Z. unfold CInt.INT_MAX.
      change (2 ^ 31) with 2147483648. nia. }
    rewrite Hpos. split; [reflexivity|exact E].
Qed.

Lemma moveCursorRight_on_whole_ticks_witness :
  snd (moveCursorRight (Sample.panel 16 4 4 192 4 15)) = 15
  /\ snd (moveCursorRight (Sample.panel 16 4 4 192 4 14)) = 14 + 1.
Proof.
  split.
  - destruct (moveCursorRight_on_whole_ticks 12 (Sample.panel 16 4 4 192 4 15))
      as (H & _).
    + cbv; repeat split; congruence.
    + cbv. congruence.
    + reflexivity.
    + cbv. split; congruence.
    + exact H.
  - destruct (moveCursorRight_on_whole_ticks 12 (Sample.panel 16 4 4 192 4 14))
      as (H & _).
    + cbv; repeat split; congruence.
    + cbv. congruence.
    + reflexivity.
    + cbv. split; congruence.
    + exact H.
Defined.

(** X19: on a grid of whole ticks [setCursorIndexPosition] stores 0 for a
    negative index, the index itself when its tick index * G is below the
    pattern length, and the integer quotient length / G otherwise.  The
    tick of the stored index is never negative and never beyond the
    pattern length; it is the length itself when an index at or past the
    end is given and G divides the length. *)
Theorem setCursorIndexPosition_on_whole_ticks (G nGridIndex : Z) (p : t) :
  Grid.whole_ticks G p ->
  nGridIndex * G < 2 ^ 24 ->
  0 <= Pattern.get_length (m_pPattern p) < 2 ^ 23 ->
  let nLength := Pattern.get_length (m_pPattern p) in
  let stored := m_nCursorIndexPosition (setCursorIndexPosition nGridIndex p) in
  stored = (if nGridIndex <? 0 then 0
            else if nLength <=? nGridIndex * G then nLength / G else nGridIndex)
  /\ 0 <= stored * G <= nLength
  /\ (0 <= nGridIndex -> nLength <= nGridIndex * G -> nLength mod G = 0 ->
      stored * G = nLength).
Proof.
  intros Hgrid Hlt Hlen. cbv zeta.
  destruct (WholeTickFacts.granularity_whole G p Hgrid) as [Hg HG].
  assert (Hlen' := Hlen). assert (HG' := HG).
  rewrite WholeTickFacts.pow2_23 in HG', Hlen'.
  assert (Hstored :
            m_nCursorIndexPosition (setCursorIndexPosition nGridIndex p)
            = if nGridIndex <? 0 then 0
              else if Pattern.get_length (m_pPattern p) <=? nGridIndex * G
                   then Pattern.get_length (m_pPattern p) / G else nGridIndex).
  { unfold setCursorIndexPosition.
    destruct (nGridIndex <? 0) eqn:Eneg; [destruct p; reflexivity|].
    apply Z.ltb_ge in Eneg.
    rewrite (WholeTickFacts.tick_whole G) by assumption.
    rewrite ExactFacts.pow2_24 in Hlt.
    rewrite ExactFacts.leb64_of_Z by (rewrite ExactFacts.pow2_53; nia).
    destruct (Pattern.get_length (m_pPattern p) <=? nGridIndex * G);
      [|destruct p; reflexivity].
    rewrite Hg, ExactFacts.to_int_div32 by (rewrite ?ExactFacts.pow2_24; lia).
    destruct p; reflexivity. }
  rewrite Hstored.
  pose proof (Z.div_mod (Pattern.get_length (m_pPattern p)) G ltac:(lia)) as Hdm.
  pose proof (Z.mod_pos_bound (Pattern.get_length (m_pPattern p)) G ltac:(lia)) as Hr.
  assert (Hq : 0 <= Pattern.get_length (m_pPattern p) / G) by (apply Z.div_pos; lia).
  split; [reflexivity|]. split.
  - destruct (nGridIndex <? 0) eqn:Eneg; [lia|]. apply Z.ltb_ge in Eneg.
    destruct (Pattern.get_length (m_pPattern p) <=? nGridIndex * G) eqn:E.
    + nia.
    + apply Z.leb_gt in E. nia.
  - intros Hnn Hend Hdiv.
    replace (nGridIndex <? 0) with false by (symmetry; apply Z.ltb_ge; lia).
    replace (Pattern.get_length (m_pPattern p) <=? nGridIndex * G) with true
      by (symmetry; apply Z.leb_le; lia).
    rewrite Hdiv in Hdm. lia.
Qed.

Lemma setCursorIndexPosition_on_whole_ticks_witness :
  m_nCursorIndexPosition (setCursorIndexPosition 40 (Sample.panel 16 4 4 190 4 0))
  = (if 40 <? 0 then 0 else if 190 <=? 40 * 12 then 190 / 12 else 40).
Proof.
  destruct (setCursorIndexPosition_on_whole_ticks 12 40 (Sample.panel 16 4 4 190 4 0))
    as (H & _).
  - cbv; repeat split; congruence.
  - reflexivity.
  - cbv. split; congruence.
  - exact H.
Defined.

(** X20: on a grid of whole ticks [setCursorPosition] takes a tick inside
    the pattern to the nearest grid index, a tick halfway between two marks
    to the upper one; a negative tick goes to index 0 and a tick at or past
    the end to length / G.  It is the inverse of [getCursorPosition]:
    given the tick of the cursor, it leaves a cursor that stands inside
    the pattern where it is. *)
Theorem setCursorPosition_on_whole_ticks (G nColumn : Z) (p : t) :
  Grid.whole_ticks G p ->
  0 <= Pattern.get_length (m_pPattern p) < 2 ^ 23 ->
  let nLength := Pattern.get_length (m_pPattern p) in
  m_nCursorIndexPosition (setCursorPosition nColumn p)
  = (if nColumn <? 0 then 0
     else if nLength <=? nColumn then nLength / G
          else (2 * nColumn + G) / (2 * G))
  /\ (0 <= m_nCursorIndexPosition p ->
      m_nCursorIndexPosition p * G < nLength ->
      setCursorPosition (getCursorPosition p) p = p).
Proof.
  intros Hgrid Hlen. cbv zeta.
  destruct (WholeTickFacts.granularity_whole G p Hgrid) as [Hg HG].
  assert (Hlen' := Hlen). assert (HG' := HG).
  rewrite WholeTickFacts.pow2_23 in HG', Hlen'.
  assert (Hstored : forall c,
            setCursorPosition c p
            = with_cursor
                (if c <? 0 then 0
                 else if Pattern.get_length (m_pPattern p) <=? c
                      then Pattern.get_length (m_pPattern p) / G
                      else (2 * c + G) / (2 * G)) p).
  { intros c. unfold setCursorPosition.
    destruct (c <? 0) eqn:Eneg; [reflexivity|]. apply Z.ltb_ge in Eneg.
    destruct (Pattern.get_length (m_pPattern p) <=? c) eqn:E.
    - rewrite Hg, ExactFacts.to_int_div32 by (rewrite ?ExactFacts.pow2_24; lia).
      reflexivity.
    - apply Z.leb_gt in E.
      rewrite Hg, ExactFacts.to_int_round_div32
        by (rewrite ?ExactFacts.pow2_24, ?WholeTickFacts.pow2_23; lia).
      reflexivity. }
  split; [rewrite Hstored; destruct p; reflexivity|].
  intros Hidx Hin.
  assert (Hpos : getCursorPosition p = m_nCursorIndexPosition p * G).
  { unfold getCursorPosition.
    rewrite (WholeTickFacts.tick_whole G)
      by (try assumption; rewrite ExactFacts.pow2_24; lia).
    apply ExactFacts.to_int_of_Z. unfold CInt.INT_MAX.
    change (2 ^ 31) with 2147483648. nia. }
  rewrite Hpos, Hstored.
  replace (m_nCursorIndexPosition p * G <? 0) with false
    by (symmetry; apply Z.ltb_ge; nia).
  replace (Pattern.get_length (m_pPattern p) <=? m_nCursorIndexPosition p * G) with false
    by (symmetry; apply Z.leb_gt; lia).
  replace ((2 * (m_nCursorIndexPosition p * G) + G) / (2 * G))
    with (m_nCursorIndexPosition p).
  - apply SyncFacts.with_cursor_own.
  - apply (Z.div_unique_pos _ _ _ G); lia.
Qed.

Lemma setCursorPosition_on_whole_ticks_witness :
  m_nCursorIndexPosition (setCursorPosition 30 (Sample.panel 16 4 4 192 4 0))
  = (if 30 <? 0 then 0 else if 192 <=? 30 then 192 / 12 else (2 * 30 + 12) / (2 * 12)).
Proof.
  destruct (setCursorPosition_on_whole_ticks 12 30 (Sample.panel 16 4 4 192 4 0))
    as (H & _).
  - cbv; repeat split; congruence.
  - cbv. split; congruence.
  - exact H.
Defined.

(** ** The grids of the resolution menu *)

(** X21: the resolution menu makes grids of whole ticks.  A triplet entry
    (index 6 to 9) gives marks 2^(11 - index) ticks apart and "off" gives
    marks one tick apart, from any state.  A plain entry (index 0 to 4)
    gives marks 3 * 2^(4 - index) ticks apart, 48 down to 3, while the
    tuplet ratio is 4:4 or 1:1, and 2^(5 - index) ticks apart while it is
    3:2.  On all of these the cursor functions compute with whole
    numbers. *)
Theorem menu_grids_are_on_whole_ticks (p : t) :
  (forall nSelected,
      6 <= nSelected <= 9 ->
      Grid.whole_ticks (2 ^ (11 - nSelected)) (gridResolutionChanged nSelected p))
  /\ Grid.whole_ticks 1 (gridResolutionChanged 11 p)
  /\ (forall nSelected,
         0 <= nSelected <= 4 ->
         (m_nTupletNumerator p, m_nTupletDenominator p) = (4, 4)
         \/ (m_nTupletNumerator p, m_nTupletDenominator p) = (1, 1) ->
         Grid.whole_ticks (3 * 2 ^ (4 - nSelected)) (gridResolutionChanged nSelected p))
  /\ (forall nSelected,
         0 <= nSelected <= 4 ->
         (m_nTupletNumerator p, m_nTupletDenominator p) = (3, 2) ->
         Grid.whole_ticks (2 ^ (5 - nSelected)) (gridResolutionChanged nSelected p)).
Proof.
  destruct p as [? ? ? ? res num den ? ? eds ?].
  split; [|split; [|split]].
  - intros nSelected H.
    assert (Hsel : nSelected = 6 \/ nSelected = 7 \/ nSelected = 8 \/ nSelected = 9) by lia.
    destruct Hsel as [->|[->|[-> | ->]]]; cbv; repeat split; congruence.
  - cbv; repeat split; congruence.
  - intros nSelected H Hratio. cbn in Hratio.
    assert (Hsel : nSelected = 0 \/ nSelected = 1 \/ nSelected = 2 \/ nSelected = 3
                   \/ nSelected = 4) by lia.
    destruct Hratio as [Hratio|Hratio]; injection Hratio as -> ->;
      destruct Hsel as [->|[->|[->|[-> | ->]]]]; cbv; repeat split; congruence.
  - intros nSelected H Hratio. cbn in Hratio. injection Hratio as -> ->.
    assert (Hsel : nSelected = 0 \/ nSelected = 1 \/ nSelected = 2 \/ nSelected = 3
                   \/ nSelected = 4) by lia.
    destruct Hsel as [->|[->|[->|[-> | ->]]]]; cbv; repeat split; congruence.
Qed.

(** ** The two recording boxes *)

Section RecDeleteProperties.

Import RecDelete.

(** X22: [recPreDeleteSelect] stores the entry chosen and shows the
    post-delete box exactly for the entries 9 to 15 of the pre-delete box,
    which are the entries "On rec: " followed by a note value of the
    post-delete box ("On rec: 1/64" to "On rec: 1/1").
    [displayorHidePrePostCB] hides both boxes while destructive recording is
    off; while it is on it shows the pre-delete box and shows the
    post-delete box for a current entry from 8 to 14, so that it decides
    like [recPreDeleteSelect] for every entry but 8 and 15. *)
Theorem post_delete_box_follows_the_entry (index : Z) (s : RecDelete.t) :
  let chosen := recPreDeleteSelect index s in
  let shown := displayorHidePrePostCB s in
  m_nRecPreDelete chosen = index
  /\ recpostdelete_visible chosen = ((9 <=? index) && (index <=? 15))
  /\ (0 <= index < 17 ->
      recpostdelete_visible chosen
      = names_note_value (nth (Z.to_nat index) recpredelete ""))
  /\ (getDestructiveRecord s = false ->
      recpredelete_visible shown = false /\ recpostdelete_visible shown = false)
  /\ (getDestructiveRecord s = true ->
      recpredelete_visible shown = true
      /\ recpostdelete_visible shown
         = ((8 <=? currentIndex s) && (currentIndex s <=? 14)))
  /\ (getDestructiveRecord s = true -> currentIndex s = index ->
      (recpostdelete_visible shown = recpostdelete_visible chosen
       <-> index <> 8 /\ index <> 15))
  /\ m_nRecPostDelete (recPostDeleteSelect index s) = index.
Proof.
  cbv zeta. split; [reflexivity|]. split; [reflexivity|]. split.
  - intros H.
    assert (Hcases : index = 0 \/ index = 1 \/ index = 2 \/ index = 3 \/ index = 4
                     \/ index = 5 \/ index = 6 \/ index = 7 \/ index = 8 \/ index = 9
                     \/ index = 10 \/ index = 11 \/ index = 12 \/ index = 13
                     \/ index = 14 \/ index = 15 \/ index = 16) by lia.
    repeat (destruct Hcases as [->|Hcases]; [reflexivity|]).
    subst index. reflexivity.
  - unfold displayorHidePrePostCB.
    split; [intros ->; split; reflexivity|].
    split; [intros ->; split; reflexivity|].
    split; [|reflexivity].
    intros -> ->. cbn [recpostdelete_visible recPreDeleteSelect].
    destruct (Z.leb_spec 8 index), (Z.leb_spec index 14), (Z.leb_spec 9 index),
      (Z.leb_spec index 15); cbn [andb]; split; intros; try lia; try discriminate;
      try reflexivity.
Qed.

End RecDeleteProperties.

(** ** Drum editor and piano roll *)

Section EditorViewsProperties.

Import EditorViews.

(** X23: after [showDrumEditorBtnClick] exactly one of the two editors is
    on screen: the piano roll when the button is pressed, the drum editor
    when it is not.  The instrument list is visible, the ruler and the
    instrument list forward their focus to the editor on screen, nothing is
    selected in either editor, and [selectInstrumentNotes] reaches the
    editor on screen. *)
Theorem showDrumEditorBtnClick_shows_one_editor (Note : Type) (s : EditorViews.t Note) :
  let s' := showDrumEditorBtnClick s in
  let shown := if show_drum_btn s then PianoRollEditor else DrumPatternEditor in
  let hidden := if show_drum_btn s then DrumPatternEditor else PianoRollEditor in
  visible shown s' = true
  /\ visible hidden s' = false
  /\ m_pInstrListScrollView s' = true
  /\ rulerFocusProxy s' = shown
  /\ instrumentListFocusProxy s' = shown
  /\ drumSelection s' = []
  /\ pianoRollSelection s' = []
  /\ selectInstrumentNotes s' = shown
  /\ show_drum_btn s' = show_drum_btn s.
Proof.
  cbv zeta. unfold showDrumEditorBtnClick, selectInstrumentNotes.
  destruct (show_drum_btn s) eqn:E; cbn; rewrite ?E; repeat split; reflexivity.
Qed.

End EditorViewsProperties.

(** ** Moving the selected instrument *)

Section InstrumentMovesProperties.

Import InstrumentMoves.

(** X24: the two buttons that move the selected instrument undo each
    other.  For an instrument list whose [swap] keeps the size and is its
    own inverse, with instrument n selected: if n is not the first,
    [moveUpBtnClicked] swaps n - 1 and n, both inside the list, and selects
    n - 1, and [moveDownBtnClicked] after it brings list and selection
    back; only the mark that the song is modified stays.  On the first
    instrument [moveUpBtnClicked], and on the last [moveDownBtnClicked],
    changes neither the list nor the selection nor that mark.  The audio
    engine is never left locked. *)
Theorem instrument_moves_undo_each_other
        (InstrumentList : Type) (size : InstrumentList -> Z)
        (swap : Z -> Z -> InstrumentList -> InstrumentList)
        (s : InstrumentMoves.t InstrumentList) :
  (forall a b l, size (swap a b l) = size l) ->
  (forall a b l, swap a b (swap a b l) = l) ->
  0 <= nSelectedInstrument s < size (pInstrumentList s) ->
  size (pInstrumentList s) <= CInt.INT_MAX ->
  let n := nSelectedInstrument s in
  let up := moveUpBtnClicked swap s in
  let down := moveDownBtnClicked size swap s in
  (1 <= n ->
   up = mk (swap (n - 1) n (pInstrumentList s)) (n - 1) true false
   /\ moveDownBtnClicked size swap up = mk (pInstrumentList s) n true false)
  /\ (n + 1 < size (pInstrumentList s) ->
      down = mk (swap n (n + 1) (pInstrumentList s)) (n + 1) true false
      /\ moveUpBtnClicked swap down = mk (pInstrumentList s) n true false)
  /\ (n = 0 -> up = mk (pInstrumentList s) n (isModified s) false)
  /\ (n + 1 = size (pInstrumentList s) ->
      down = mk (pInstrumentList s) n (isModified s) false)
  /\ locked up = false
  /\ locked down = false.
Proof.
  intros Hsize Hinv Hn Hmax. cbv zeta.
  unfold CInt.INT_MAX in Hmax. change (2 ^ 31) with 2147483648 in Hmax.
  assert (Hwrap : forall z, -2147483648 <= z <= 2147483647 -> CInt.wrap z = z).
  { intros z Hz. apply CIntFacts.wrap_small.
    unfold CInt.is_int, CInt.INT_MIN, CInt.INT_MAX. change (2 ^ 31) with 2147483648. lia. }
  destruct s as [l n modified lk]. cbn [nSelectedInstrument pInstrumentList isModified] in *.
  unfold moveUpBtnClicked, moveDownBtnClicked, lock, unlock, CInt.sub, CInt.add.
  cbn [nSelectedInstrument pInstrumentList isModified locked].
  rewrite !(Hwrap (n - 1)), !(Hwrap (n + 1)), !(Hwrap (size l)) by lia.
  split; [|split; [|split; [|split; [|split]]]].
  - intros H1.
    replace (0 <=? n - 1) with true by (symmetry; apply Z.leb_le; lia).
    split; [reflexivity|].
    cbn [nSelectedInstrument pInstrumentList isModified locked].
    rewrite Hsize, !(Hwrap (n - 1 + 1)), !(Hwrap (size l)) by lia.
    replace (n - 1 + 1 <? size l) with true by (symmetry; apply Z.ltb_lt; lia).
    replace (n - 1 + 1) with n by lia. rewrite Hinv. reflexivity.
  - intros H1.
    replace (n + 1 <? size l) with true by (symmetry; apply Z.ltb_lt; lia).
    split; [reflexivity|].
    cbn [nSelectedInstrument pInstrumentList isModified locked].
    rewrite !(Hwrap (n + 1 - 1)) by lia.
    replace (0 <=? n + 1 - 1) with true by (symmetry; apply Z.leb_le; lia).
    replace (n + 1 - 1) with n by lia. rewrite Hinv. reflexivity.
  - intros ->. reflexivity.
  - intros H1.
    replace (n + 1 <? size l) with false by (symmetry; apply Z.ltb_ge; lia).
    reflexivity.
  - destruct (0 <=? n - 1); reflexivity.
  - destruct (n + 1 <? size l); reflexivity.
Qed.

Lemma instrument_moves_undo_each_other_witness :
  moveDownBtnClicked pair_size pair_swap
    (moveUpBtnClicked pair_swap (mk (36, 38) 1 false false))
  = mk (36, 38) 1 true false.
Proof.
  destruct (instrument_moves_undo_each_other (Z * Z) pair_size pair_swap
              (mk (36, 38) 1 false false)) as (H & _).
  - reflexivity.
  - intros a b [x y]. unfold pair_swap. destruct (a =? b); reflexivity.
  - cbn. unfold pair_size. lia.
  - unfold pair_size, CInt.INT_MAX. cbn. lia.
  - apply H. cbn. lia.
Defined.

End InstrumentMovesProperties.
